(** * ditty: a shallow embedding of [ditty.c]

    [ditty.c] is a probe for CVE-2022-0847: it creates a read-only file,
    runs the pipe / splice / write sequence against it, reads the file
    back and prints a verdict.

    The program is embedded as functions in a state-and-abort monad over
    a process state.  Every system call goes through an [OS] record, so
    the statements hold for every behaviour of the operating system; the
    calls issued and the lines printed are logged as [Event]s.  A small
    model of the kernel ([Kernel], [linux]) gives runs that evaluate. *)

From Stdlib Require Import ZArith List String Ascii Bool Lia.
From Equations Require Import Equations.
Import ListNotations.

Set Implicit Arguments.
Open Scope Z_scope.

(** ** C integer types

    The integers of the program are [Z]s; a conversion to a C type is
    written out where the source performs one.  Signed overflow, which C
    leaves undefined, wraps as it does on the two's complement target. *)

Definition to_unsigned (z : Z) : Z := z mod 2 ^ 32.
Definition to_size_t (z : Z) : Z := z mod 2 ^ 64.
Definition to_loff_t (z : Z) : Z := (z + 2 ^ 63) mod 2 ^ 64 - 2 ^ 63.

Definition LOFF_MAX : Z := 2 ^ 63 - 1.
Definition LOFF_MIN : Z := - 2 ^ 63.

(** ** Constants of the headers *)

(** [#define PAGE_SIZE 4096], the fallback of the source; where
    [<sys/user.h>] defines [PAGE_SIZE] it is the same 4096 (as an
    unsigned constant, for which the tests below have the same outcome). *)
Definition PAGE_SIZE : Z := 4096.
(** [<stdlib.h>] *)
Definition EXIT_SUCCESS : Z := 0.
Definition EXIT_FAILURE : Z := 1.
(** [<fcntl.h>] on Linux *)
Definition O_RDONLY : Z := 0.
Definition O_WRONLY : Z := 1.
Definition O_CREAT : Z := 64.
(** [sizeof(buffer)] for [static char buffer[4096]] *)
Definition sizeof_buffer : Z := 4096.

(** ** C strings *)

Definition NUL : ascii := Ascii.zero.
Definition LF : string := String (ascii_of_nat 10) EmptyString.

(** The bytes of a C string: the characters before the first NUL. *)
Fixpoint cstr (s : string) : list ascii :=
  match s with
  | EmptyString => []
  | String c s' => if Ascii.eqb c NUL then [] else c :: cstr s'
  end.

Definition strlen (s : string) : Z := Z.of_nat (List.length (cstr s)).

(** [strncmp(s1, s2, n)]: at most [n] characters are compared, and the
    comparison stops after a NUL.  The end of a list reads as NUL. *)
Fixpoint strncmp (s1 s2 : list ascii) (n : nat) : Z :=
  match n with
  | O => 0
  | S n' =>
      let c1 := hd NUL s1 in
      let c2 := hd NUL s2 in
      if negb (Ascii.eqb c1 c2)
      then Z.of_nat (nat_of_ascii c1) - Z.of_nat (nat_of_ascii c2)
      else if Ascii.eqb c1 NUL then 0
      else strncmp (tl s1) (tl s2) n'
  end.

(** ** Events: what a run does that can be observed *)

Inductive Event : Type :=
| EOpen (path : string) (flags : Z) (ret : Z)
| EClose (fd : Z)
| EFstat (fd : Z) (ret : Z) (st_size : Z)
| EPipe (ret : Z) (rd wr : Z)
| EGetPipeSz (fd : Z) (ret : Z)
| EWrite (fd : Z) (data : list ascii) (ret : Z)
| ERead (fd : Z) (count : Z) (ret : Z) (data : list ascii)
| ESplice (fd_in : Z) (off_in : Z) (fd_out : Z) (len : Z) (ret : Z)
| EUnlink (path : string)
| EStderr (msg : string)
| EPerror (msg : string)
| EStdout (msg : string)
| EAbort.

(** ** The operating system

    What each call returns to the program, as a value of the C type of
    the call, and how it changes the state [W] of the system.  [os_read]
    returns the bytes it stored, or [None] when it fails; [os_fstat]
    returns the status and [st_size]; [os_pipe] returns the status and
    the two descriptors. *)

Record OS (W : Type) : Type := mkOS {
  os_open : string -> Z -> Z -> W -> Z * W;
  os_close : Z -> W -> W;
  os_fstat : Z -> W -> Z * Z * W;
  os_pipe : W -> Z * (Z * Z) * W;
  os_getpipe_sz : Z -> W -> Z * W;
  os_write : Z -> list ascii -> W -> Z * W;
  os_read : Z -> Z -> W -> option (list ascii) * W;
  os_splice : Z -> Z -> Z -> Z -> W -> Z * W;
  os_unlink : string -> W -> W
}.

(** ** The process *)

(** [world] is the state of the system, [buffer] the static scratch
    array of [prepare_pipe]. *)
Record Proc (W : Type) : Type := mkProc {
  world : W;
  buffer : list ascii
}.

(** The result of a computation: a value, or the process was aborted. *)
Inductive Outcome (A : Type) : Type :=
| Val (a : A)
| Aborted.
Arguments Aborted {A}.

(** A computation maps a process state to its outcome, the new state and
    the events of the run, in order. *)
Definition M (W A : Type) : Type :=
  Proc W -> Outcome A * Proc W * list Event.

Definition ret {W A} (a : A) : M W A := fun p => (Val a, p, []).

Definition bind {W A B} (m : M W A) (f : A -> M W B) : M W B :=
  fun p =>
    match m p with
    | (Val a, p1, t1) => let '(o, p2, t2) := f a p1 in (o, p2, t1 ++ t2)
    | (Aborted, p1, t1) => (Aborted, p1, t1)
    end.

Declare Scope prog_scope.
Delimit Scope prog_scope with prog.
Notation "x <- m ;; k" := (bind m (fun x => k))
  (at level 61, m at next level, right associativity) : prog_scope.
Notation "' pat <- m ;; k" := (bind m (fun x => match x with pat => k end))
  (at level 61, pat pattern, m at next level, right associativity) : prog_scope.
Notation "m ;; k" := (bind m (fun _ => k))
  (at level 61, right associativity) : prog_scope.
Open Scope prog_scope.

Definition emit {W} (e : Event) : M W unit := fun p => (Val tt, p, [e]).

Definition result {W A} (r : Outcome A * Proc W * list Event) : Outcome A :=
  fst (fst r).
Definition final {W A} (r : Outcome A * Proc W * list Event) : Proc W :=
  snd (fst r).
Definition trace {W A} (r : Outcome A * Proc W * list Event) : list Event :=
  snd r.

(** The initial process: the static buffer is zeroed. *)
Definition start {W} (w : W) : Proc W :=
  mkProc w (repeat NUL (Z.to_nat sizeof_buffer)).

(** Overwriting a prefix of [old] with [new]. *)
Definition store (new old : list ascii) : list ascii :=
  new ++ skipn (List.length new) old.

Section Program.

Context {W : Type} (os : OS W).

(** *** Library calls *)

Definition fprintf_stderr (msg : string) : M W unit := emit (EStderr msg).
Definition perror (msg : string) : M W unit := emit (EPerror msg).
Definition printf (msg : string) : M W unit := emit (EStdout msg).

Definition abort {A} : M W A := fun p => (Aborted, p, [EAbort]).

Definition open (path : string) (flags mode : Z) : M W Z :=
  fun p =>
    let '(fd, w) := os_open os path flags mode (world p) in
    (Val fd, mkProc w (buffer p), [EOpen path flags fd]).

Definition close (fd : Z) : M W unit :=
  fun p =>
    (Val tt, mkProc (os_close os fd (world p)) (buffer p), [EClose fd]).

Definition fstat (fd : Z) : M W (Z * Z) :=
  fun p =>
    let '(r, size, w) := os_fstat os fd (world p) in
    (Val (r, size), mkProc w (buffer p), [EFstat fd r size]).

Definition pipe : M W (Z * (Z * Z)) :=
  fun p =>
    let '(r, (rd, wr), w) := os_pipe os (world p) in
    (Val (r, (rd, wr)), mkProc w (buffer p), [EPipe r rd wr]).

Definition fcntl_getpipe_sz (fd : Z) : M W Z :=
  fun p =>
    let '(r, w) := os_getpipe_sz os fd (world p) in
    (Val r, mkProc w (buffer p), [EGetPipeSz fd r]).

(** [write(fd, data, n)] for the [n] bytes [data]. *)
Definition write (fd : Z) (data : list ascii) : M W Z :=
  fun p =>
    let '(r, w) := os_write os fd data (world p) in
    (Val r, mkProc w (buffer p), [EWrite fd data r]).

(** [write(fd, buffer, n)] from the static buffer. *)
Definition write_buffer (fd : Z) (n : Z) : M W Z :=
  fun p => write fd (firstn (Z.to_nat n) (buffer p)) p.

(** [read(fd, buf, count)]: the status and the bytes stored, at most
    [count] of them. *)
Definition read (fd : Z) (count : Z) : M W (Z * list ascii) :=
  fun p =>
    let '(res, w) := os_read os fd count (world p) in
    let '(r, bytes) :=
      match res with
      | Some bs =>
          let bs' := firstn (Z.to_nat count) bs in
          (Z.of_nat (List.length bs'), bs')
      | None => (-1, [])
      end in
    (Val (r, bytes), mkProc w (buffer p), [ERead fd count r bytes]).

(** [read(fd, buffer, n)] into the static buffer. *)
Definition read_buffer (fd : Z) (n : Z) : M W Z :=
  fun p =>
    match read fd n p with
    | (Val (r, bytes), p', t) =>
        (Val r, mkProc (world p') (store bytes (buffer p')), t)
    | (Aborted, p', t) => (Aborted, p', t)
    end.

(** [splice(fd_in, &off_in, fd_out, NULL, len, 0)]; the offset the
    kernel stores back is not read again by the program. *)
Definition splice (fd_in off_in fd_out len : Z) : M W Z :=
  fun p =>
    let '(r, w) := os_splice os fd_in off_in fd_out len (world p) in
    (Val r, mkProc w (buffer p), [ESplice fd_in off_in fd_out len r]).

Definition unlink (path : string) : M W unit :=
  fun p =>
    (Val tt, mkProc (os_unlink os path (world p)) (buffer p),
     [EUnlink path]).

(** *** [prepare_pipe] *)

(** [for (unsigned r = pipe_size; r > 0;) { n = ...; write(p[1], buffer, n); r -= n; }] *)
Equations? fill_loop (fd : Z) (r : Z) : M W unit by wf (Z.to_nat r) lt :=
  fill_loop fd r with Z_lt_dec 0 r => {
    | left _ :=
        _ <- write_buffer fd (if r >? sizeof_buffer then sizeof_buffer else r) ;;
        fill_loop fd (r - (if r >? sizeof_buffer then sizeof_buffer else r));
    | right _ := ret tt }.
Proof. unfold sizeof_buffer. destruct (r >? 4096) eqn:E; lia. Qed.

(** [for (unsigned r = pipe_size; r > 0;) { n = ...; read(p[0], buffer, n); r -= n; }] *)
Equations? drain_loop (fd : Z) (r : Z) : M W unit by wf (Z.to_nat r) lt :=
  drain_loop fd r with Z_lt_dec 0 r => {
    | left _ :=
        _ <- read_buffer fd (if r >? sizeof_buffer then sizeof_buffer else r) ;;
        drain_loop fd (r - (if r >? sizeof_buffer then sizeof_buffer else r));
    | right _ := ret tt }.
Proof. unfold sizeof_buffer. destruct (r >? 4096) eqn:E; lia. Qed.

Definition prepare_pipe : M W (Z * Z) :=
  '(r, p) <- pipe ;;
  if negb (r =? 0) then abort else
  sz <- fcntl_getpipe_sz (snd p) ;;
  let pipe_size := to_unsigned sz in
  fill_loop (snd p) pipe_size ;;
  drain_loop (fst p) pipe_size ;;
  ret p.

(** *** [check_dirty_pipe] *)

Definition check_dirty_pipe (path : string) (offset : Z) (data : string)
  : M W Z :=
  let data_size := strlen data in
  if Z.rem offset PAGE_SIZE =? 0 then
    fprintf_stderr ("Sorry, cannot start writing at a page boundary" ++ LF) ;;
    ret EXIT_FAILURE
  else
  let next_page := to_loff_t (Z.lor offset (PAGE_SIZE - 1) + 1) in
  let end_offset := to_loff_t (offset + to_loff_t data_size) in
  if end_offset >? next_page then
    fprintf_stderr ("Sorry, cannot write across a page boundary" ++ LF) ;;
    ret EXIT_FAILURE
  else
  fd <- open path O_RDONLY 0 ;;
  if fd <? 0 then
    perror "open failed" ;;
    ret EXIT_FAILURE
  else
  '(r, st_size) <- fstat fd ;;
  if negb (r =? 0) then
    perror "stat failed" ;;
    ret EXIT_FAILURE
  else
  if offset >? st_size then
    fprintf_stderr ("Offset is not inside the file" ++ LF) ;;
    ret EXIT_FAILURE
  else
  if end_offset >? st_size then
    fprintf_stderr ("Sorry, cannot enlarge the file" ++ LF) ;;
    ret EXIT_FAILURE
  else
  p <- prepare_pipe ;;
  let offset := to_loff_t (offset - 1) in
  nbytes <- splice fd offset (snd p) 1 ;;
  if nbytes <? 0 then
    perror "splice failed" ;;
    ret EXIT_FAILURE
  else
  if nbytes =? 0 then
    fprintf_stderr ("short splice" ++ LF) ;;
    ret EXIT_FAILURE
  else
  nbytes <- write (snd p) (cstr data) ;;
  if nbytes <? 0 then
    perror "write failed" ;;
    ret EXIT_FAILURE
  else
  if to_size_t nbytes <? data_size then
    fprintf_stderr ("short write" ++ LF) ;;
    ret EXIT_FAILURE
  else
  ret EXIT_SUCCESS.

(** *** The harness *)

Definition test_string : string := "Hello World!" ++ LF.
Definition test_file : string := "/tmp/testfile.txt".

Definition create_test_file (path : string) : M W Z :=
  fd <- open path (Z.lor O_CREAT O_WRONLY) 292 (* 0444 *) ;;
  if fd <? 0 then
    perror "testfile open failed" ;;
    ret EXIT_FAILURE
  else
  n <- write fd (cstr test_string) ;;
  if n <? 0 then
    perror "testfile write failed" ;;
    ret EXIT_FAILURE
  else
  close fd ;;
  ret 0.

Definition check_file_content (path : string) : M W Z :=
  fd <- open path O_RDONLY 0 ;;
  if fd <? 0 then
    perror "testfile read failed" ;;
    ret (-1)
  else
  '(r, buf) <- read fd 255 ;;
  close fd ;;
  let l := strlen test_string in
  if negb (r =? l) || negb (strncmp (cstr test_string) buf (Z.to_nat l) =? 0)
  then ret 1
  else ret 0.

Definition main (argc : Z) (argv : list string) : M W Z :=
  r <- create_test_file test_file ;;
  if r <? 0 then ret EXIT_FAILURE else
  let path := test_file in
  let offset := 6 in
  let data := "mammy"%string in
  r <- check_dirty_pipe path offset data ;;
  if r <? 0 then ret EXIT_FAILURE else
  ret_ <- check_file_content test_file ;;
  if ret_ =? -1 then ret EXIT_FAILURE else
  (if ret_ =? 0 then printf ("You are safe" ++ LF)
   else if ret_ =? 1 then printf ("VULNERABLE!" ++ LF)
   else ret tt) ;;
  unlink "/tmp/testfile.txt" ;;
  ret 0.

End Program.

(** ** A model of the kernel

    The part of Linux the program exercises: regular files in the page
    cache, a descriptor table bounded by [RLIMIT_NOFILE] and one pipe.
    On a vulnerable kernel a write to the pipe that follows a splice is
    merged into the page the splice left a reference to.  A call that
    would block returns an error instead.

    The buffers of the pipe carry no merge flag: on a vulnerable kernel
    the model merges whether or not the pipe was filled and drained
    before, so it does not show what [prepare_pipe] contributes to the
    merge.  Apart from the example [vulnerable_run], what is proved on
    the model is about kernels without the bug or about runs that reach
    no write after a splice. *)

(** What a descriptor refers to: a terminal, a file with the position of
    the descriptor and whether it was opened for writing, or an end of
    the pipe. *)
Inductive Desc : Type :=
| DTty
| DFile (path : string) (pos : Z) (writable : bool)
| DPipeRd
| DPipeWr.

(** A file: its content in the page cache and its permission bits. *)
Record File : Type := mkFile {
  f_data : list ascii;
  f_mode : Z
}.

(** [k_files]: the files by path.  [k_fds]: the descriptor table.
    [k_pipe]: the bytes queued in the pipe.  [k_ref]: the file and the
    position behind the byte a splice queued last, while the buffer that
    holds it is the last of the pipe.  [k_nofile]: [RLIMIT_NOFILE].
    [k_pipe_sz]: the capacity of the pipe.  [k_vulnerable]: the kernel
    has CVE-2022-0847. *)
Record Kernel : Type := mkKernel {
  k_files : list (string * File);
  k_fds : list (Z * Desc);
  k_pipe : list ascii;
  k_ref : option (string * Z);
  k_nofile : Z;
  k_pipe_sz : Z;
  k_vulnerable : bool
}.

Definition set_files (fs : list (string * File)) (k : Kernel) : Kernel :=
  mkKernel fs (k_fds k) (k_pipe k) (k_ref k) (k_nofile k) (k_pipe_sz k)
    (k_vulnerable k).
Definition set_fds (fds : list (Z * Desc)) (k : Kernel) : Kernel :=
  mkKernel (k_files k) fds (k_pipe k) (k_ref k) (k_nofile k) (k_pipe_sz k)
    (k_vulnerable k).
Definition set_pipe (q : list ascii) (r : option (string * Z)) (k : Kernel)
  : Kernel :=
  mkKernel (k_files k) (k_fds k) q r (k_nofile k) (k_pipe_sz k)
    (k_vulnerable k).

Section Assoc.
Context {K V : Type} (eqb : K -> K -> bool).

Fixpoint assoc (x : K) (l : list (K * V)) : option V :=
  match l with
  | [] => None
  | (y, v) :: l' => if eqb x y then Some v else assoc x l'
  end.

Definition drop (x : K) (l : list (K * V)) : list (K * V) :=
  filter (fun e => negb (eqb x (fst e))) l.

Definition put (x : K) (v : V) (l : list (K * V)) : list (K * V) :=
  (x, v) :: drop x l.
End Assoc.

Definition file_at (path : string) (k : Kernel) : option File :=
  assoc String.eqb path (k_files k).
Definition desc_at (fd : Z) (k : Kernel) : option Desc :=
  assoc Z.eqb fd (k_fds k).

(** The lowest free descriptor below the limit. *)
Definition free_fd (k : Kernel) : option Z :=
  find (fun fd => match desc_at fd k with None => true | Some _ => false end)
    (map Z.of_nat (seq 0 (Z.to_nat (k_nofile k)))).

(** [new] written over [old] from position [pos]. *)
Definition patch (pos : Z) (new old : list ascii) : list ascii :=
  firstn (Z.to_nat pos) old ++ new
    ++ skipn (Z.to_nat pos + List.length new) old.

Definition len (l : list ascii) : Z := Z.of_nat (List.length l).

(** [open]: fails without a free descriptor (EMFILE), for writing on a
    file without the owner's write bit (EACCES, the caller is the
    unprivileged owner), and on a missing file without [O_CREAT]
    (ENOENT).  An existing file keeps its content: the program passes no
    [O_TRUNC]. *)
Definition linux_open (path : string) (flags mode : Z) (k : Kernel)
  : Z * Kernel :=
  match free_fd k with
  | None => (-1, k)
  | Some fd =>
      let wr := negb (Z.land flags 3 =? O_RDONLY) in
      match file_at path k with
      | Some f =>
          if wr && (Z.land (f_mode f) 128 =? 0) then (-1, k)
          else (fd, set_fds (put Z.eqb fd (DFile path 0 wr) (k_fds k)) k)
      | None =>
          if Z.land flags O_CREAT =? 0 then (-1, k)
          else (fd,
                set_fds (put Z.eqb fd (DFile path 0 wr) (k_fds k))
                  (set_files (put String.eqb path (mkFile [] mode) (k_files k))
                     k))
      end
  end.

Definition linux_close (fd : Z) (k : Kernel) : Kernel :=
  set_fds (drop Z.eqb fd (k_fds k)) k.

Definition linux_fstat (fd : Z) (k : Kernel) : Z * Z * Kernel :=
  match desc_at fd k with
  | Some (DFile path _ _) =>
      match file_at path k with
      | Some f => (0, len (f_data f), k)
      | None => (-1, 0, k)
      end
  | Some _ => (0, 0, k)
  | None => (-1, 0, k)
  end.

Definition linux_pipe (k : Kernel) : Z * (Z * Z) * Kernel :=
  match free_fd k with
  | None => (-1, (0, 0), k)
  | Some rd =>
      let k1 := set_fds (put Z.eqb rd DPipeRd (k_fds k)) k in
      match free_fd k1 with
      | None => (-1, (0, 0), k)
      | Some wr =>
          (0, (rd, wr),
           set_pipe [] None (set_fds (put Z.eqb wr DPipeWr (k_fds k1)) k1))
      end
  end.

Definition linux_getpipe_sz (fd : Z) (k : Kernel) : Z * Kernel :=
  match desc_at fd k with
  | Some DPipeRd | Some DPipeWr => (k_pipe_sz k, k)
  | _ => (-1, k)
  end.

(** [write]: to a file, at the position of the descriptor; to the
    pipe, queues the bytes, and on a vulnerable kernel also copies them
    into the page a preceding splice referred to, without growing the
    file. *)
Definition linux_write (fd : Z) (data : list ascii) (k : Kernel)
  : Z * Kernel :=
  match desc_at fd k with
  | Some (DFile path pos true) =>
      match file_at path k with
      | Some f =>
          (len data,
           set_fds (put Z.eqb fd (DFile path (pos + len data) true) (k_fds k))
             (set_files
                (put String.eqb path
                   (mkFile (patch pos data (f_data f)) (f_mode f)) (k_files k))
                k))
      | None => (-1, k)
      end
  | Some DPipeWr =>
      if len (k_pipe k) + len data >? k_pipe_sz k then (-1, k)
      else
        match k_ref k with
        | Some (path, pos) =>
            match file_at path k with
            | Some f =>
                if k_vulnerable k
                   && (pos mod PAGE_SIZE + len data <=? PAGE_SIZE)
                then
                  (len data,
                   set_pipe (k_pipe k ++ data) (Some (path, pos + len data))
                     (set_files
                        (put String.eqb path
                           (mkFile
                              (firstn (List.length (f_data f))
                                 (patch pos data (f_data f)))
                              (f_mode f))
                           (k_files k))
                        k))
                else (len data, set_pipe (k_pipe k ++ data) None k)
            | None => (len data, set_pipe (k_pipe k ++ data) None k)
            end
        | None => (len data, set_pipe (k_pipe k ++ data) None k)
        end
  | _ => (-1, k)
  end.

(** [read]: from a file, at the position of the descriptor; from the
    pipe, the bytes at its head. *)
Definition linux_read (fd : Z) (count : Z) (k : Kernel)
  : option (list ascii) * Kernel :=
  match desc_at fd k with
  | Some (DFile path pos false) =>
      match file_at path k with
      | Some f =>
          let bs := firstn (Z.to_nat count) (skipn (Z.to_nat pos) (f_data f)) in
          (Some bs,
           set_fds (put Z.eqb fd (DFile path (pos + len bs) false) (k_fds k)) k)
      | None => (None, k)
      end
  | Some DPipeRd =>
      match k_pipe k with
      | [] => (None, k)
      | _ =>
          let rest := skipn (Z.to_nat count) (k_pipe k) in
          (Some (firstn (Z.to_nat count) (k_pipe k)),
           set_pipe rest (match rest with [] => None | _ => k_ref k end) k)
      end
  | _ => (None, k)
  end.

(** [splice] from a file into the pipe: queues the bytes at [off_in]
    and leaves a reference to their page; returns 0 at the end of the
    file. *)
Definition linux_splice (fd_in off_in fd_out n : Z) (k : Kernel)
  : Z * Kernel :=
  match desc_at fd_in k, desc_at fd_out k with
  | Some (DFile path _ _), Some DPipeWr =>
      match file_at path k with
      | Some f =>
          if off_in <? 0 then (-1, k)
          else
            let bs := firstn (Z.to_nat n) (skipn (Z.to_nat off_in) (f_data f)) in
            match bs with
            | [] => (0, k)
            | _ =>
                if len (k_pipe k) + len bs >? k_pipe_sz k then (-1, k)
                else
                  (len bs,
                   set_pipe (k_pipe k ++ bs) (Some (path, off_in + len bs)) k)
            end
      | None => (-1, k)
      end
  | _, _ => (-1, k)
  end.

Definition linux_unlink (path : string) (k : Kernel) : Kernel :=
  set_files (drop String.eqb path (k_files k)) k.

Definition linux : OS Kernel :=
  mkOS linux_open linux_close linux_fstat linux_pipe linux_getpipe_sz
    linux_write linux_read linux_splice linux_unlink.

(** A freshly started process: the three standard descriptors are open,
    the pipe capacity is the default 65536. *)
Definition boot (vulnerable : bool) (nofile : Z) (fs : list (string * File))
  : Kernel :=
  mkKernel fs [(0, DTty); (1, DTty); (2, DTty)] [] None nofile 65536
    vulnerable.

(** Environments used in the examples.  [fresh] has no file at the
    path of the artifact; [tight] is [fresh] with [RLIMIT_NOFILE] set to
    6; [stale_short] and [stale_long] hold a file that was left at the
    path of the artifact, the first read-only (mode 0444), the second
    writable (mode 0644); [with_artifact] holds the artifact itself. *)
Definition fresh : Kernel := boot false 1024 [].
Definition fresh_vulnerable : Kernel := boot true 1024 [].
Definition tight : Kernel := boot false 6 [].
Definition stale_short : Kernel :=
  boot false 1024 [(test_file, mkFile (cstr ("Hi" ++ LF)) 292)].
Definition stale_long : Kernel :=
  boot false 1024
    [(test_file, mkFile (cstr "0123456789abcdefghij") 420)].
Definition with_artifact : Kernel :=
  boot false 1024
    [(test_file, mkFile (cstr test_string) 292)].

(** ** The vocabulary of the specification

    The specification names the failures of [check_dirty_pipe]
    ([attemptOverwrite]); the program tells them apart by the diagnostic
    it prints before it returns [EXIT_FAILURE]. *)

Inductive WriteError : Type :=
| PageBoundaryOffset
| CrossesPageBoundary
| OpenFailed
| StatFailed
| OffsetOutOfRange
| WouldGrowFile
| SpliceFailed
| ShortSplice
| WriteFailed
| ShortWrite.

Definition diagnostic (e : WriteError) : Event :=
  match e with
  | PageBoundaryOffset =>
      EStderr ("Sorry, cannot start writing at a page boundary" ++ LF)
  | CrossesPageBoundary =>
      EStderr ("Sorry, cannot write across a page boundary" ++ LF)
  | OpenFailed => EPerror "open failed"
  | StatFailed => EPerror "stat failed"
  | OffsetOutOfRange => EStderr ("Offset is not inside the file" ++ LF)
  | WouldGrowFile => EStderr ("Sorry, cannot enlarge the file" ++ LF)
  | SpliceFailed => EPerror "splice failed"
  | ShortSplice => EStderr ("short splice" ++ LF)
  | WriteFailed => EPerror "write failed"
  | ShortWrite => EStderr ("short write" ++ LF)
  end.

(** A run returns the error [e]: it returns [EXIT_FAILURE] and the
    diagnostic of [e] is the last thing it did. *)
Definition returns_error {W} (e : WriteError)
  (r : Outcome Z * Proc W * list Event) : Prop :=
  result r = Val EXIT_FAILURE /\ last (trace r) EAbort = diagnostic e.

(** [offset] rounded up to the next multiple of the page size. *)
Definition nextPageBoundary (offset : Z) : Z :=
  PAGE_SIZE * ((offset + (PAGE_SIZE - 1)) / PAGE_SIZE).

Inductive ProbeVerdict : Type :=
| Safe
| Vulnerable
| Error.

(** The lines a run printed on the standard output. *)
Definition stdout (tr : list Event) : list string :=
  flat_map (fun e => match e with EStdout msg => [msg] | _ => [] end) tr.

(** The verdict a run of the harness shows: the line it printed with
    exit status 0, or an error. *)
Definition verdict_of {W} (r : Outcome Z * Proc W * list Event)
  : ProbeVerdict :=
  match result r, stdout (trace r) with
  | Val 0, [line] =>
      if String.eqb line ("You are safe" ++ LF) then Safe
      else if String.eqb line ("VULNERABLE!" ++ LF) then Vulnerable
      else Error
  | _, _ => Error
  end.

Definition bytes_eqb (a b : list ascii) : bool :=
  String.eqb (string_of_list_ascii a) (string_of_list_ascii b).

(** The classification as the specification words it, for the content
    [reread] of the artifact ([None]: it could not be read), the
    [original] content, and the payload injected at [offset]. *)
Definition spec_verdict (original : list ascii) (offset : Z)
  (payload : list ascii) (reread : option (list ascii)) : ProbeVerdict :=
  match reread with
  | Some content =>
      if bytes_eqb content original then Safe
      else if bytes_eqb content (patch offset payload original) then Vulnerable
      else Error
  | None => Error
  end.

(** Descriptors a run obtained, and whether it released them all. *)
Definition obtained (tr : list Event) : list Z :=
  flat_map
    (fun e =>
       match e with
       | EOpen _ _ fd => if fd <? 0 then [] else [fd]
       | EPipe r rd wr => if r =? 0 then [rd; wr] else []
       | _ => []
       end) tr.

Definition is_close (fd : Z) (e : Event) : bool :=
  match e with
  | EClose fd' => fd' =? fd
  | _ => false
  end.

Definition releases_all (tr : list Event) : bool :=
  forallb (fun fd => existsb (is_close fd) tr) (obtained tr).

Definition is_unlink (path : string) (e : Event) : bool :=
  match e with
  | EUnlink path' => String.eqb path' path
  | _ => false
  end.

(** Bytes the writes of a run transferred, and bytes its reads returned. *)
Definition bytes_written (tr : list Event) : Z :=
  fold_right
    (fun e acc => match e with EWrite _ _ r => r + acc | _ => acc end) 0 tr.

Definition bytes_read (tr : list Event) : Z :=
  fold_right
    (fun e acc => match e with ERead _ _ r _ => r + acc | _ => acc end) 0 tr.

(** A write of a whole chunk of the scratch buffer to [fd]. *)
Definition chunk_write (fd : Z) (e : Event) : Prop :=
  match e with
  | EWrite fd' data r =>
      fd' = fd /\ r = len data /\ 0 < len data <= sizeof_buffer
  | _ => False
  end.

(** A read of a whole chunk from [fd]. *)
Definition chunk_read (fd : Z) (e : Event) : Prop :=
  match e with
  | ERead fd' count r data =>
      fd' = fd /\ r = count /\ len data = count /\ 0 < count <= sizeof_buffer
  | _ => False
  end.

(** ** The exit paths of [check_dirty_pipe]

    [Path path offset data o tr]: a call can end with outcome [o] after
    the events [tr].  [Prepared rd wr tr] are the events of a
    [prepare_pipe] that obtained the pipe [(rd, wr)]. *)

Definition pipe_write (wr : Z) (e : Event) : Prop :=
  match e with
  | EWrite fd _ _ => fd = wr
  | _ => False
  end.

Definition pipe_read (rd : Z) (e : Event) : Prop :=
  match e with
  | ERead fd _ _ _ => fd = rd
  | _ => False
  end.

Inductive Prepared (rd wr : Z) : list Event -> Prop :=
| prepared sz ws rs :
    Forall (pipe_write wr) ws ->
    Forall (pipe_read rd) rs ->
    Prepared rd wr (EPipe 0 rd wr :: EGetPipeSz wr sz :: ws ++ rs).

Inductive Path (path : string) (offset : Z) (data : string)
  : Outcome Z -> list Event -> Prop :=
| path_page_boundary :
    Path path offset data (Val EXIT_FAILURE) [diagnostic PageBoundaryOffset]
| path_crosses :
    ~ (PAGE_SIZE | offset) ->
    Path path offset data (Val EXIT_FAILURE) [diagnostic CrossesPageBoundary]
| path_open_failed fd :
    ~ (PAGE_SIZE | offset) ->
    fd < 0 ->
    Path path offset data (Val EXIT_FAILURE)
      [EOpen path O_RDONLY fd; diagnostic OpenFailed]
| path_stat_failed fd r size :
    ~ (PAGE_SIZE | offset) ->
    0 <= fd -> r <> 0 ->
    Path path offset data (Val EXIT_FAILURE)
      [EOpen path O_RDONLY fd; EFstat fd r size; diagnostic StatFailed]
| path_out_of_range fd size :
    ~ (PAGE_SIZE | offset) ->
    0 <= fd ->
    Path path offset data (Val EXIT_FAILURE)
      [EOpen path O_RDONLY fd; EFstat fd 0 size; diagnostic OffsetOutOfRange]
| path_would_grow fd size :
    ~ (PAGE_SIZE | offset) ->
    0 <= fd ->
    Path path offset data (Val EXIT_FAILURE)
      [EOpen path O_RDONLY fd; EFstat fd 0 size; diagnostic WouldGrowFile]
| path_aborted fd size r rd wr :
    ~ (PAGE_SIZE | offset) ->
    0 <= fd -> r <> 0 ->
    Path path offset data Aborted
      [EOpen path O_RDONLY fd; EFstat fd 0 size; EPipe r rd wr; EAbort]
| path_splice_failed fd size rd wr prep n :
    ~ (PAGE_SIZE | offset) -> 0 <= fd -> Prepared rd wr prep -> n < 0 ->
    Path path offset data (Val EXIT_FAILURE)
      (EOpen path O_RDONLY fd :: EFstat fd 0 size :: prep
         ++ [ESplice fd (to_loff_t (offset - 1)) wr 1 n;
             diagnostic SpliceFailed])
| path_short_splice fd size rd wr prep :
    ~ (PAGE_SIZE | offset) -> 0 <= fd -> Prepared rd wr prep ->
    Path path offset data (Val EXIT_FAILURE)
      (EOpen path O_RDONLY fd :: EFstat fd 0 size :: prep
         ++ [ESplice fd (to_loff_t (offset - 1)) wr 1 0;
             diagnostic ShortSplice])
| path_write_failed fd size rd wr prep n m :
    ~ (PAGE_SIZE | offset) -> 0 <= fd -> Prepared rd wr prep -> 0 < n -> m < 0 ->
    Path path offset data (Val EXIT_FAILURE)
      (EOpen path O_RDONLY fd :: EFstat fd 0 size :: prep
         ++ [ESplice fd (to_loff_t (offset - 1)) wr 1 n;
             EWrite wr (cstr data) m; diagnostic WriteFailed])
| path_short_write fd size rd wr prep n m :
    ~ (PAGE_SIZE | offset) -> 0 <= fd -> Prepared rd wr prep -> 0 < n -> 0 <= m ->
    Path path offset data (Val EXIT_FAILURE)
      (EOpen path O_RDONLY fd :: EFstat fd 0 size :: prep
         ++ [ESplice fd (to_loff_t (offset - 1)) wr 1 n;
             EWrite wr (cstr data) m; diagnostic ShortWrite])
| path_success fd size rd wr prep n m :
    ~ (PAGE_SIZE | offset) -> 0 <= fd -> Prepared rd wr prep -> 0 < n -> 0 <= m ->
    Path path offset data (Val EXIT_SUCCESS)
      (EOpen path O_RDONLY fd :: EFstat fd 0 size :: prep
         ++ [ESplice fd (to_loff_t (offset - 1)) wr 1 n;
             EWrite wr (cstr data) m]).

(** ** The runs of the harness

    [Created tr]: the events of [create_test_file].  [Harness o tr]: a
    run of [main] can end with outcome [o] after the events [tr]; [n]
    and [content] are the status and the bytes of the read-back. *)

Inductive Created (path : string) : list Event -> Prop :=
| created_open_failed fd :
    fd < 0 ->
    Created path
      [EOpen path (Z.lor O_CREAT O_WRONLY) fd; EPerror "testfile open failed"]
| created_write_failed fd n :
    Created path
      [EOpen path (Z.lor O_CREAT O_WRONLY) fd;
       EWrite fd (cstr test_string) n;
       EPerror "testfile write failed"]
| created fd n :
    Created path
      [EOpen path (Z.lor O_CREAT O_WRONLY) fd;
       EWrite fd (cstr test_string) n; EClose fd].

(** The line [main] prints for the status [n] and the bytes [content]
    of the read-back. *)
Definition verdict_line (n : Z) (content : list ascii) : string :=
  if negb (n =? 13)
     || negb (strncmp (cstr test_string) content 13 =? 0)
  then "VULNERABLE!" ++ LF
  else "You are safe" ++ LF.

Inductive Harness : Outcome Z -> list Event -> Prop :=
| harness_aborted t1 t2 :
    Created test_file t1 ->
    Path test_file 6 "mammy" Aborted t2 ->
    Harness Aborted (t1 ++ t2)
| harness_unreadable t1 v t2 fd :
    Created test_file t1 ->
    Path test_file 6 "mammy" (Val v) t2 ->
    fd < 0 ->
    Harness (Val EXIT_FAILURE)
      (t1 ++ t2
         ++ [EOpen test_file O_RDONLY fd;
             EPerror "testfile read failed"])
| harness_verdict t1 v t2 fd n content :
    Created test_file t1 ->
    Path test_file 6 "mammy" (Val v) t2 ->
    0 <= fd ->
    n = len content \/ (n = -1 /\ content = []) ->
    Harness (Val 0)
      (t1 ++ t2
         ++ [EOpen test_file O_RDONLY fd; ERead fd 255 n content;
             EClose fd; EStdout (verdict_line n content);
             EUnlink test_file]).

(** The events that follow the first splice of a run. *)
Fixpoint after_splice (tr : list Event) : list Event :=
  match tr with
  | [] => []
  | ESplice _ _ _ _ _ :: rest => rest
  | _ :: rest => after_splice rest
  end.

(** What a run addresses: the path of every [open] and [unlink], the
    position and length of every splice, and the bytes of every write
    that follows the splice. *)
Definition addresses (path : string) (offset : Z) (e : Event) : Prop :=
  match e with
  | EOpen path' _ _ => path' = path
  | EUnlink path' => path' = path
  | ESplice _ off_in _ n _ => off_in = offset - 1 /\ n = 1
  | _ => True
  end.

(** A write, if [e] is one, carries [payload]. *)
Definition carries (payload : list ascii) (e : Event) : Prop :=
  match e with
  | EWrite _ bytes _ => bytes = payload
  | _ => True
  end.

Definition targets (path : string) (offset : Z) (payload : list ascii)
  (tr : list Event) : Prop :=
  Forall (addresses path offset) tr
  /\ Forall (carries payload) (after_splice tr).

(** ** Observations on the events of a run *)

(** The content the last read of a run returned. *)
Definition last_read (tr : list Event) : option (list ascii) :=
  fold_left
    (fun acc e =>
       match e with
       | ERead _ _ n content => if n <? 0 then None else Some content
       | _ => acc
       end) tr None.

(** Kinds of events a run is free of. *)
Definition no_close (e : Event) : Prop := forall fd, is_close fd e = false.

Definition no_splice (e : Event) : Prop :=
  match e with
  | ESplice _ _ _ _ _ => False
  | _ => True
  end.

Definition no_stdout (e : Event) : Prop :=
  match e with
  | EStdout _ => False
  | _ => True
  end.

Definition no_unlink (e : Event) : Prop :=
  match e with
  | EUnlink _ => False
  | _ => True
  end.

(** A splice, if [e] is one, takes one byte at [pos]. *)
Definition splice_at (pos : Z) (e : Event) : Prop :=
  match e with
  | ESplice _ off_in _ n _ => off_in = pos /\ n = 1
  | _ => True
  end.

(** Neither a splice nor a write. *)
Definition no_transfer (e : Event) : Prop :=
  match e with
  | ESplice _ _ _ _ _ => False
  | EWrite _ _ _ => False
  | _ => True
  end.

(** Bytes the writes of a run offered, and bytes its reads asked for. *)
Definition bytes_offered (tr : list Event) : Z :=
  fold_right
    (fun e acc => match e with EWrite _ data _ => len data + acc | _ => acc end)
    0 tr.

Definition bytes_requested (tr : list Event) : Z :=
  fold_right
    (fun e acc => match e with ERead _ count _ _ => count + acc | _ => acc end)
    0 tr.

(** A write to [fd] that offers a chunk of at most 4096 bytes, and a
    read from [fd] that asks for one. *)
Definition chunk_offered (fd : Z) (e : Event) : Prop :=
  match e with
  | EWrite fd' data _ => fd' = fd /\ 0 < len data <= sizeof_buffer
  | _ => False
  end.

Definition chunk_requested (fd : Z) (e : Event) : Prop :=
  match e with
  | ERead fd' count _ _ => fd' = fd /\ 0 < count <= sizeof_buffer
  | _ => False
  end.

(** ** Systems with a fault

    A system [os] in which one call misbehaves: every [read] fails, or
    every [write] stores only the first [n] bytes it is given. *)

Definition read_fails {W} (os : OS W) : OS W :=
  mkOS (os_open os) (os_close os) (os_fstat os) (os_pipe os)
    (os_getpipe_sz os) (os_write os) (fun _ _ w => (None, w))
    (os_splice os) (os_unlink os).

Definition writes_short {W} (n : nat) (os : OS W) : OS W :=
  mkOS (os_open os) (os_close os) (os_fstat os) (os_pipe os)
    (os_getpipe_sz os) (fun fd data w => os_write os fd (firstn n data) w)
    (os_read os) (os_splice os) (os_unlink os).

(** ** More observations on the events of a run *)

(** The sizes of the chunks the loops of [prepare_pipe] go through for
    [r] bytes: whole buffers, then the rest. *)
Definition chunks (r : Z) : list Z :=
  repeat sizeof_buffer (Z.to_nat (r / sizeof_buffer))
    ++ (if r mod sizeof_buffer =? 0 then [] else [r mod sizeof_buffer]).

(** The number of bytes each write of a run offered, and each read
    asked for, in order. *)
Definition offered (tr : list Event) : list Z :=
  flat_map (fun e => match e with EWrite _ data _ => [len data] | _ => [] end)
    tr.

Definition requested (tr : list Event) : list Z :=
  flat_map (fun e => match e with ERead _ count _ _ => [count] | _ => [] end)
    tr.

(** The diagnostics a run printed on the error stream. *)
Definition diagnostics (tr : list Event) : list Event :=
  filter
    (fun e => match e with EStderr _ | EPerror _ => true | _ => false end) tr.

(** The flags of the [open] calls of a run. *)
Definition open_flags (tr : list Event) : list Z :=
  flat_map (fun e => match e with EOpen _ flags _ => [flags] | _ => [] end) tr.

(** The descriptors the writes of a run went to. *)
Definition written_to (tr : list Event) : list Z :=
  flat_map (fun e => match e with EWrite fd _ _ => [fd] | _ => [] end) tr.

(** ** The phases of [check_dirty_pipe]

    A call first validates the request, then prepares the pipe, then
    transfers: one splice and one write. *)

(** [next_page] and [end_offset], as the program computes them. *)
Definition next_page (offset : Z) : Z :=
  to_loff_t (Z.lor offset (PAGE_SIZE - 1) + 1).

Definition end_offset (offset data_size : Z) : Z :=
  to_loff_t (offset + to_loff_t data_size).

(** The four tests of the validation on the offset, the payload and the
    size of the file: none of them fires. *)
Definition accepts (offset : Z) (data : string) (st_size : Z) : bool :=
  negb (Z.rem offset PAGE_SIZE =? 0)
  && negb (end_offset offset (strlen data) >? next_page offset)
  && negb (offset >? st_size)
  && negb (end_offset offset (strlen data) >? st_size).

(** [Rejected path offset data e pre]: the validation ends with the
    error [e] after the events [pre]; the tests before the one of [e]
    passed and the one of [e] fired. *)
Inductive Rejected (path : string) (offset : Z) (data : string)
  : WriteError -> list Event -> Prop :=
| rejected_page_boundary :
    Z.rem offset PAGE_SIZE = 0 ->
    Rejected path offset data PageBoundaryOffset []
| rejected_crosses :
    Z.rem offset PAGE_SIZE <> 0 ->
    end_offset offset (strlen data) > next_page offset ->
    Rejected path offset data CrossesPageBoundary []
| rejected_open fd :
    Z.rem offset PAGE_SIZE <> 0 ->
    end_offset offset (strlen data) <= next_page offset ->
    fd < 0 ->
    Rejected path offset data OpenFailed [EOpen path O_RDONLY fd]
| rejected_stat fd r size :
    Z.rem offset PAGE_SIZE <> 0 ->
    end_offset offset (strlen data) <= next_page offset ->
    0 <= fd -> r <> 0 ->
    Rejected path offset data StatFailed
      [EOpen path O_RDONLY fd; EFstat fd r size]
| rejected_out_of_range fd size :
    Z.rem offset PAGE_SIZE <> 0 ->
    end_offset offset (strlen data) <= next_page offset ->
    0 <= fd -> offset > size ->
    Rejected path offset data OffsetOutOfRange
      [EOpen path O_RDONLY fd; EFstat fd 0 size]
| rejected_would_grow fd size :
    Z.rem offset PAGE_SIZE <> 0 ->
    end_offset offset (strlen data) <= next_page offset ->
    0 <= fd -> offset <= size ->
    end_offset offset (strlen data) > size ->
    Rejected path offset data WouldGrowFile
      [EOpen path O_RDONLY fd; EFstat fd 0 size].

(** [Transfer fd pos wr data v tl]: the transfer from [fd] at [pos] into
    the pipe end [wr] returns [v] after the events [tl]; [n] is what
    [splice] returned and [m] what [write] returned. *)
Inductive Transfer (fd pos wr : Z) (data : string)
  : Z -> list Event -> Prop :=
| transfer_splice_failed n :
    n < 0 ->
    Transfer fd pos wr data EXIT_FAILURE
      [ESplice fd pos wr 1 n; diagnostic SpliceFailed]
| transfer_short_splice :
    Transfer fd pos wr data EXIT_FAILURE
      [ESplice fd pos wr 1 0; diagnostic ShortSplice]
| transfer_write_failed n m :
    0 < n -> m < 0 ->
    Transfer fd pos wr data EXIT_FAILURE
      [ESplice fd pos wr 1 n; EWrite wr (cstr data) m;
       diagnostic WriteFailed]
| transfer_short_write n m :
    0 < n -> 0 <= m -> to_size_t m < strlen data ->
    Transfer fd pos wr data EXIT_FAILURE
      [ESplice fd pos wr 1 n; EWrite wr (cstr data) m;
       diagnostic ShortWrite]
| transfer_success n m :
    0 < n -> 0 <= m -> strlen data <= to_size_t m ->
    Transfer fd pos wr data EXIT_SUCCESS
      [ESplice fd pos wr 1 n; EWrite wr (cstr data) m].

(** The events the validation can leave: [open], [fstat] and what goes
    to the error stream. *)
Definition validation_event (e : Event) : Prop :=
  match e with
  | EOpen _ _ _ | EFstat _ _ _ | EStderr _ | EPerror _ => True
  | _ => False
  end.

(** An [open], if [e] is one, is of [path] with [O_RDONLY]; [e] is no
    [unlink]. *)
Definition read_only (path : string) (e : Event) : Prop :=
  match e with
  | EOpen path' flags _ => path' = path /\ flags = O_RDONLY
  | EUnlink _ => False
  | _ => True
  end.

(** A [pipe], if [e] is one, succeeded. *)
Definition pipe_granted (e : Event) : Prop :=
  match e with
  | EPipe r _ _ => r = 0
  | _ => True
  end.

(** A write, if [e] is one, carries NUL bytes only. *)
Definition writes_zeros (e : Event) : Prop :=
  match e with
  | EWrite _ bytes _ => Forall (fun c => c = NUL) bytes
  | _ => True
  end.

(** ** Tactics *)

(** [Forall P tr] for the events [tr] of an exit path: [leaf] proves [P]
    of each event, [prep] is the lemma for the events of [prepare_pipe]. *)
Ltac path_forall prep leaf :=
  repeat (apply Forall_cons; [leaf |]);
  try apply Forall_nil;
  (apply Forall_app; split;
   [ eapply prep; [eassumption | ..]; intros; leaf
   | repeat (apply Forall_cons; [leaf |]); apply Forall_nil ]).

(** * Facts *)

(** ** Arithmetic of the validation *)

Lemma to_loff_t_id (z : Z) : LOFF_MIN <= z <= LOFF_MAX -> to_loff_t z = z.
Proof.
  unfold to_loff_t, LOFF_MIN, LOFF_MAX. intros H.
  rewrite Z.mod_small; lia.
Qed.

Lemma page_boundary_test (z : Z) :
  (Z.rem z PAGE_SIZE =? 0) = true <-> (PAGE_SIZE | z).
Proof.
  rewrite Z.eqb_eq. apply Z.rem_divide. discriminate.
Qed.

Lemma page_boundary_test_false (z : Z) :
  ~ (PAGE_SIZE | z) -> (Z.rem z PAGE_SIZE =? 0) = false.
Proof.
  intros H. destruct (Z.rem z PAGE_SIZE =? 0) eqn:E; [| reflexivity].
  apply page_boundary_test in E. contradiction.
Qed.

(** [offset | (PAGE_SIZE - 1)] sets the twelve low bits. *)
Lemma lor_page (z : Z) :
  Z.lor z (PAGE_SIZE - 1) = PAGE_SIZE * (z / PAGE_SIZE) + (PAGE_SIZE - 1).
Proof.
  unfold PAGE_SIZE. apply Z.bits_inj'. intros n Hn.
  rewrite Z.lor_spec.
  destruct (Z.lt_ge_cases n 12) as [Hlt | Hge].
  - rewrite <- (Z.mod_pow2_bits_low (4096 * (z / 4096) + (4096 - 1)) 12 n)
      by lia.
    replace ((4096 * (z / 4096) + (4096 - 1)) mod 2 ^ 12) with (Z.ones 12).
    + change (4096 - 1) with (Z.ones 12).
      rewrite Z.ones_spec_low by lia. apply orb_true_r.
    + change (2 ^ 12) with 4096.
      rewrite Z.add_comm, Z.mul_comm, Z.mod_add by lia. reflexivity.
  - change (4096 - 1) with (Z.ones 12) at 1.
    rewrite Z.ones_spec_high by lia. rewrite orb_false_r.
    replace n with ((n - 12) + 12) by lia.
    rewrite <- !Z.div_pow2_bits by lia.
    f_equal. change (2 ^ 12) with 4096.
    rewrite Z.add_comm, Z.mul_comm, Z.div_add by lia.
    change ((4096 - 1) / 4096) with 0. lia.
Qed.

(** Off a page boundary, the [next_page] of the program is the offset
    rounded up to the next multiple of the page size. *)
Lemma next_page_rounds_up (z : Z) :
  ~ (PAGE_SIZE | z) -> Z.lor z (PAGE_SIZE - 1) + 1 = nextPageBoundary z.
Proof.
  intros H. rewrite lor_page. unfold nextPageBoundary, PAGE_SIZE in *.
  assert (z mod 4096 <> 0) by (intro E; apply H; apply Z.mod_divide; lia).
  pose proof (Z.mod_pos_bound z 4096 ltac:(lia)).
  pose proof (Z.div_mod z 4096 ltac:(lia)).
  replace (z + (4096 - 1)) with ((z mod 4096 + 4095) + (z / 4096) * 4096)
    by lia.
  rewrite Z.div_add by lia.
  assert ((z mod 4096 + 4095) / 4096 = 1)
    by (symmetry; apply Z.div_unique with (r := z mod 4096 - 1); lia).
  lia.
Qed.

Lemma next_page_bounds (z : Z) :
  z < Z.lor z (PAGE_SIZE - 1) + 1 <= z + PAGE_SIZE.
Proof.
  rewrite lor_page. unfold PAGE_SIZE.
  pose proof (Z.mod_pos_bound z 4096 ltac:(lia)).
  pose proof (Z.div_mod z 4096 ltac:(lia)). lia.
Qed.


(** ** Facts about the kernel model *)

Lemma free_fd_spec (k : Kernel) (fd : Z) :
  free_fd k = Some fd -> 0 <= fd /\ desc_at fd k = None.
Proof.
  unfold free_fd. intros H. apply find_some in H. destruct H as [Hin Hfree].
  apply in_map_iff in Hin. destruct Hin as (n & <- & _).
  split; [lia |]. destruct (desc_at (Z.of_nat n) k); [discriminate | reflexivity].
Qed.

Lemma assoc_put_same (fd : Z) (d : Desc) (l : list (Z * Desc)) :
  assoc Z.eqb fd (put Z.eqb fd d l) = Some d.
Proof.
  unfold put. cbn. rewrite Z.eqb_refl. reflexivity.
Qed.

Lemma assoc_drop_other (x y : Z) (l : list (Z * Desc)) :
  x <> y -> assoc Z.eqb x (drop Z.eqb y l) = assoc Z.eqb x l.
Proof.
  intros Hne. unfold drop.
  induction l as [| [z d] l IH]; [reflexivity |].
  cbn [filter fst assoc]. destruct (Z.eqb y z) eqn:E; cbn [negb assoc].
  - apply Z.eqb_eq in E. subst z.
    replace (x =? y) with false by (symmetry; apply Z.eqb_neq; exact Hne).
    exact IH.
  - rewrite IH. reflexivity.
Qed.

Lemma assoc_put_other (x y : Z) (d : Desc) (l : list (Z * Desc)) :
  x <> y -> assoc Z.eqb x (put Z.eqb y d l) = assoc Z.eqb x l.
Proof.
  intros Hne. unfold put. cbn.
  replace (x =? y) with false by (symmetry; apply Z.eqb_neq; exact Hne).
  apply assoc_drop_other. exact Hne.
Qed.

(** Opening an existing file read-only takes the lowest free descriptor
    and leaves the files as they are. *)
Lemma linux_open_rdonly (k : Kernel) (path : string) (fd : Z) (f : File) :
  free_fd k = Some fd -> file_at path k = Some f ->
  linux_open path O_RDONLY 0 k
  = (fd, set_fds (put Z.eqb fd (DFile path 0 false) (k_fds k)) k).
Proof.
  intros Hfd Hf. unfold linux_open. rewrite Hfd, Hf. reflexivity.
Qed.

Lemma linux_fstat_opened (k : Kernel) (path : string) (fd : Z) (f : File)
  (pos : Z) (wr : bool) :
  file_at path k = Some f ->
  linux_fstat fd (set_fds (put Z.eqb fd (DFile path pos wr) (k_fds k)) k)
  = (0, len (f_data f),
     set_fds (put Z.eqb fd (DFile path pos wr) (k_fds k)) k).
Proof.
  intros Hf. unfold linux_fstat, desc_at. cbn [k_fds set_fds].
  rewrite assoc_put_same.
  unfold file_at in *. cbn [k_files set_fds]. rewrite Hf. reflexivity.
Qed.

(** A pipe that was obtained is empty and both its ends are open. *)
Lemma linux_pipe_obtained (k k1 : Kernel) (rd wr : Z) :
  linux_pipe k = (0, (rd, wr), k1) ->
  desc_at rd k1 = Some DPipeRd /\ desc_at wr k1 = Some DPipeWr
  /\ k_pipe k1 = [] /\ k_ref k1 = None /\ k_pipe_sz k1 = k_pipe_sz k.
Proof.
  unfold linux_pipe.
  destruct (free_fd k) as [rd' |] eqn:Hrd; [| discriminate].
  destruct (free_fd (set_fds _ k)) as [wr' |] eqn:Hwr; [| discriminate].
  intros H. injection H as <- <- <-.
  apply free_fd_spec in Hwr. destruct Hwr as [_ Hwr].
  unfold desc_at in *. cbn [k_fds set_fds set_pipe] in *.
  assert (Hne : rd' <> wr').
  { intros ->. rewrite assoc_put_same in Hwr. discriminate. }
  repeat split.
  - rewrite assoc_put_other by exact Hne. apply assoc_put_same.
  - apply assoc_put_same.
Qed.

Lemma set_pipe_set_pipe (q q' : list ascii) (r r' : option (string * Z))
  (k : Kernel) :
  set_pipe q r (set_pipe q' r' k) = set_pipe q r k.
Proof. reflexivity. Qed.

Lemma set_pipe_same (k : Kernel) :
  k_ref k = None -> set_pipe (k_pipe k) None k = k.
Proof.
  destruct k. cbn. intros ->. reflexivity.
Qed.

Lemma len_app (a b : list ascii) : len (a ++ b) = len a + len b.
Proof. unfold len. rewrite length_app. lia. Qed.

Lemma len_firstn (n : Z) (l : list ascii) :
  0 <= n <= len l -> len (firstn (Z.to_nat n) l) = n.
Proof. unfold len. intros H. rewrite length_firstn. lia. Qed.

Lemma len_skipn (n : Z) (l : list ascii) :
  0 <= n <= len l -> len (skipn (Z.to_nat n) l) = len l - n.
Proof. unfold len. intros H. rewrite length_skipn. lia. Qed.

Lemma len_store (new old : list ascii) :
  len new <= len old -> len (store new old) = len old.
Proof.
  unfold store, len. intros H. rewrite length_app, length_skipn. lia.
Qed.

(** ** The loops of [prepare_pipe], for every system *)

Section LoopFacts.

Context {W : Type} (os : OS W).

Lemma fill_loop_step (fd r : Z) :
  fill_loop os fd r =
  if 0 <? r then
    (_ <- write_buffer os fd (if r >? sizeof_buffer then sizeof_buffer else r) ;;
     fill_loop os fd (r - (if r >? sizeof_buffer then sizeof_buffer else r)))
  else ret tt.
Proof.
  rewrite fill_loop_equation_1. unfold fill_loop_unfold_clause_1.
  destruct (Z_lt_dec 0 r) as [H | H].
  - apply Z.ltb_lt in H. rewrite H. reflexivity.
  - apply Z.ltb_nlt in H. rewrite H. reflexivity.
Qed.

Lemma drain_loop_step (fd r : Z) :
  drain_loop os fd r =
  if 0 <? r then
    (_ <- read_buffer os fd (if r >? sizeof_buffer then sizeof_buffer else r) ;;
     drain_loop os fd (r - (if r >? sizeof_buffer then sizeof_buffer else r)))
  else ret tt.
Proof.
  rewrite drain_loop_equation_1. unfold drain_loop_unfold_clause_1.
  destruct (Z_lt_dec 0 r) as [H | H].
  - apply Z.ltb_lt in H. rewrite H. reflexivity.
  - apply Z.ltb_nlt in H. rewrite H. reflexivity.
Qed.

Lemma chunk_bounds (r : Z) :
  0 < r ->
  0 < (if r >? sizeof_buffer then sizeof_buffer else r) <= sizeof_buffer
  /\ (if r >? sizeof_buffer then sizeof_buffer else r) <= r.
Proof.
  unfold sizeof_buffer. intros H. destruct (r >? 4096) eqn:E; lia.
Qed.

(** Both loops return, and issue nothing but their own call. *)
Lemma fill_loop_writes (fd r : Z) :
  0 <= r ->
  forall p, exists p' ws,
    fill_loop os fd r p = (Val tt, p', ws) /\ Forall (pipe_write fd) ws.
Proof.
  intros Hr. pattern r. apply Z_lt_induction; [clear r Hr | exact Hr].
  intros r IH p. rewrite fill_loop_step.
  destruct (0 <? r) eqn:E.
  - apply Z.ltb_lt in E. destruct (chunk_bounds E) as [Hn Hle].
    set (n := if r >? sizeof_buffer then sizeof_buffer else r) in *.
    unfold bind, write_buffer, write.
    destruct (os_write os fd (firstn (Z.to_nat n) (buffer p)) (world p))
      as [res w1].
    destruct (IH (r - n) ltac:(lia) (mkProc w1 (buffer p))) as (p' & ws & Hrun & Hws).
    rewrite Hrun. exists p', (EWrite fd (firstn (Z.to_nat n) (buffer p)) res :: ws).
    split; [reflexivity |]. constructor; [reflexivity | exact Hws].
  - exists p, []. split; [reflexivity | constructor].
Qed.

Lemma drain_loop_reads (fd r : Z) :
  0 <= r ->
  forall p, exists p' rs,
    drain_loop os fd r p = (Val tt, p', rs) /\ Forall (pipe_read fd) rs.
Proof.
  intros Hr. pattern r. apply Z_lt_induction; [clear r Hr | exact Hr].
  intros r IH p. rewrite drain_loop_step.
  destruct (0 <? r) eqn:E.
  - apply Z.ltb_lt in E. destruct (chunk_bounds E) as [Hn Hle].
    set (n := if r >? sizeof_buffer then sizeof_buffer else r) in *.
    unfold bind, read_buffer, read.
    destruct (os_read os fd n (world p)) as [res w1].
    destruct res as [bs |]; cbn [world buffer].
    + match goal with
      | |- context [drain_loop os fd (r - n) ?q] =>
          destruct (IH (r - n) ltac:(lia) q) as (p' & rs & Hrun & Hrs)
      end.
      rewrite Hrun. eexists _, (_ :: rs).
      split; [reflexivity |]. constructor; [reflexivity | exact Hrs].
    + match goal with
      | |- context [drain_loop os fd (r - n) ?q] =>
          destruct (IH (r - n) ltac:(lia) q) as (p' & rs & Hrun & Hrs)
      end.
      rewrite Hrun. eexists _, (_ :: rs).
      split; [reflexivity |]. constructor; [reflexivity | exact Hrs].
  - exists p, []. split; [reflexivity | constructor].
Qed.

Lemma to_unsigned_nonneg (z : Z) : 0 <= to_unsigned z.
Proof. unfold to_unsigned. apply Z.mod_pos_bound. reflexivity. Qed.

(** [prepare_pipe] aborts when [pipe] fails and returns the pipe
    otherwise. *)
Lemma prepare_pipe_run (p : Proc W) :
  (exists r rd wr p',
      r <> 0 /\ prepare_pipe os p = (Aborted, p', [EPipe r rd wr; EAbort]))
  \/ (exists rd wr p' tr,
         prepare_pipe os p = (Val (rd, wr), p', tr) /\ Prepared rd wr tr).
Proof.
  unfold prepare_pipe, bind, pipe, abort, fcntl_getpipe_sz.
  destruct (os_pipe os (world p)) as [[r [rd wr]] w1].
  destruct (r =? 0) eqn:E; cbn [negb fst snd world buffer].
  - apply Z.eqb_eq in E. subst r. right.
    destruct (os_getpipe_sz os wr w1) as [sz w2].
    destruct (fill_loop_writes wr (to_unsigned_nonneg sz) (mkProc w2 (buffer p)))
      as (p1 & ws & Hfill & Hws).
    rewrite Hfill.
    destruct (drain_loop_reads rd (to_unsigned_nonneg sz) p1)
      as (p2 & rs & Hdrain & Hrs).
    rewrite Hdrain. unfold ret.
    exists rd, wr, p2, (EPipe 0 rd wr :: EGetPipeSz wr sz :: ws ++ rs).
    split.
    + cbn [app]. rewrite app_nil_r. reflexivity.
    + constructor; assumption.
  - apply Z.eqb_neq in E. left. exists r, rd, wr. eexists.
    split; [exact E | reflexivity].
Qed.

End LoopFacts.

(** ** What [prepare_pipe] asks of every system *)

Section RequestFacts.

Context {W : Type} (os : OS W).

Lemma fill_loop_offers (fd r : Z) :
  0 <= r ->
  forall p, len (buffer p) = sizeof_buffer ->
  exists p' ws,
    fill_loop os fd r p = (Val tt, p', ws)
    /\ buffer p' = buffer p
    /\ Forall (chunk_offered fd) ws /\ bytes_offered ws = r.
Proof.
  intros Hr. generalize Hr. pattern r.
  apply Z_lt_induction; [clear r Hr | exact Hr].
  intros r IH Hr p Hbuf. rewrite fill_loop_step.
  destruct (0 <? r) eqn:E.
  - apply Z.ltb_lt in E. destruct (@chunk_bounds r E) as [Hn Hle].
    set (n := if r >? sizeof_buffer then sizeof_buffer else r) in *.
    assert (Hdata : len (firstn (Z.to_nat n) (buffer p)) = n)
      by (apply len_firstn; lia).
    unfold bind, write_buffer, write.
    destruct (os_write os fd (firstn (Z.to_nat n) (buffer p)) (world p))
      as [res w1].
    destruct (IH (r - n) ltac:(lia) ltac:(lia) (mkProc w1 (buffer p)) Hbuf)
      as (p' & ws & Hrun & Hb & Hws & Hsum).
    rewrite Hrun.
    exists p', (EWrite fd (firstn (Z.to_nat n) (buffer p)) res :: ws).
    split; [reflexivity |]. split; [exact Hb |]. split.
    + constructor; [| exact Hws]. unfold chunk_offered. rewrite Hdata. lia.
    + cbn. unfold bytes_offered in Hsum. rewrite Hsum, Hdata. lia.
  - apply Z.ltb_ge in E. exists p, [].
    split; [reflexivity |]. split; [reflexivity |].
    split; [constructor | cbn; lia].
Qed.

Lemma drain_loop_requests (fd r : Z) :
  0 <= r ->
  forall p, exists p' rs,
    drain_loop os fd r p = (Val tt, p', rs)
    /\ Forall (chunk_requested fd) rs /\ bytes_requested rs = r.
Proof.
  intros Hr. generalize Hr. pattern r.
  apply Z_lt_induction; [clear r Hr | exact Hr].
  intros r IH Hr p. rewrite drain_loop_step.
  destruct (0 <? r) eqn:E.
  - apply Z.ltb_lt in E. destruct (@chunk_bounds r E) as [Hn Hle].
    set (n := if r >? sizeof_buffer then sizeof_buffer else r) in *.
    unfold bind, read_buffer, read.
    destruct (os_read os fd n (world p)) as [res w1].
    destruct res as [bs |]; cbn [world buffer];
      match goal with
      | |- context [drain_loop os fd (r - n) ?q] =>
          destruct (IH (r - n) ltac:(lia) ltac:(lia) q)
            as (p' & rs & Hrun & Hrs & Hsum)
      end;
      rewrite Hrun; eexists _, (_ :: rs);
      (split; [reflexivity |]); split;
      try (constructor; [split; [reflexivity | lia] | exact Hrs]);
      cbn; unfold bytes_requested in Hsum; rewrite Hsum; lia.
  - apply Z.ltb_ge in E. exists p, [].
    split; [reflexivity |]. split; [constructor | cbn; lia].
Qed.

(** For every system that grants a pipe and reports the capacity [c]:
    [prepare_pipe] offers [c] bytes to the producer end, in chunks of at
    most 4096 bytes, then asks the consumer end for [c] bytes. *)
Lemma prepare_pipe_requests (p : Proc W) (rd wr c : Z) (w1 w2 : W) :
  os_pipe os (world p) = (0, (rd, wr), w1) ->
  os_getpipe_sz os wr w1 = (c, w2) -> 0 <= c < 2 ^ 31 ->
  len (buffer p) = sizeof_buffer ->
  exists p' ws rs,
    prepare_pipe os p
    = (Val (rd, wr), p', EPipe 0 rd wr :: EGetPipeSz wr c :: ws ++ rs)
    /\ Forall (chunk_offered wr) ws /\ bytes_offered ws = c
    /\ Forall (chunk_requested rd) rs /\ bytes_requested rs = c.
Proof.
  intros Hpipe Hsz Hc Hbuf.
  unfold prepare_pipe, bind at 1, pipe. rewrite Hpipe.
  cbn [Z.eqb negb fst snd].
  unfold bind at 1, fcntl_getpipe_sz. cbn [world buffer]. rewrite Hsz.
  assert (Hu : to_unsigned c = c)
    by (unfold to_unsigned; apply Z.mod_small; lia).
  rewrite Hu. unfold bind at 1.
  destruct (@fill_loop_offers wr c (proj1 Hc) (mkProc w2 (buffer p)) Hbuf)
    as (p1 & ws & Hfill & _ & Hws & Hwsum).
  rewrite Hfill. unfold bind at 1.
  destruct (@drain_loop_requests rd c (proj1 Hc) p1)
    as (p2 & rs & Hdrain & Hrs & Hrsum).
  rewrite Hdrain. unfold ret.
  exists p2, ws, rs. split.
  - cbn [app]. rewrite app_nil_r. reflexivity.
  - repeat split; assumption.
Qed.

End RequestFacts.

(** ** [check_dirty_pipe], for every system *)

Section WriterFacts.

Context {W : Type} (os : OS W).

(** Every call of [check_dirty_pipe] ends on one of the exit paths. *)
Lemma check_dirty_pipe_path (path : string) (offset : Z) (data : string)
  (p : Proc W) :
  Path path offset data
    (result (check_dirty_pipe os path offset data p))
    (trace (check_dirty_pipe os path offset data p)).
Proof.
  destruct (check_dirty_pipe os path offset data p) as [[o p'] tr] eqn:H.
  unfold result, trace; cbn [fst snd].
  unfold check_dirty_pipe in H.
  destruct (Z.rem offset PAGE_SIZE =? 0) eqn:Epage.
  { injection H as <- <- <-. apply path_page_boundary. }
  assert (Hpage : ~ (PAGE_SIZE | offset)).
  { intros Hd. apply page_boundary_test in Hd. congruence. }
  destruct (_ >? _).
  { injection H as <- <- <-. apply path_crosses. exact Hpage. }
  unfold bind at 1 in H. unfold open in H.
  destruct (os_open os path O_RDONLY 0 (world p)) as [fd w1].
  destruct (fd <? 0) eqn:Efd.
  { apply Z.ltb_lt in Efd. injection H as <- <- <-.
    apply path_open_failed; assumption. }
  apply Z.ltb_ge in Efd.
  unfold bind at 1 in H. unfold fstat in H. cbn [world buffer] in H.
  destruct (os_fstat os fd w1) as [[r size] w2].
  destruct (r =? 0) eqn:Er; cbn [negb] in H.
  2:{ apply Z.eqb_neq in Er. injection H as <- <- <-.
      apply path_stat_failed; assumption. }
  apply Z.eqb_eq in Er. subst r.
  destruct (offset >? size).
  { injection H as <- <- <-. apply path_out_of_range; assumption. }
  destruct (_ >? size).
  { injection H as <- <- <-. apply path_would_grow; assumption. }
  unfold bind at 1 in H.
  destruct (prepare_pipe_run os (mkProc w2 (buffer p)))
    as [(r & rd & wr & p1 & Hr & Hrun) | (rd & wr & p1 & prep & Hrun & Hprep)];
    rewrite Hrun in H.
  { injection H as <- <- <-. apply path_aborted; assumption. }
  unfold bind at 1 in H. unfold splice in H. cbn [fst snd] in H.
  destruct (os_splice os fd (to_loff_t (offset - 1)) wr 1 (world p1))
    as [n w3].
  destruct (n <? 0) eqn:En.
  { apply Z.ltb_lt in En. injection H as <- <- <-.
    eapply path_splice_failed; eassumption. }
  apply Z.ltb_ge in En.
  destruct (n =? 0) eqn:En0.
  { apply Z.eqb_eq in En0. subst n. injection H as <- <- <-.
    eapply path_short_splice; eassumption. }
  apply Z.eqb_neq in En0.
  unfold bind at 1 in H. unfold write in H. cbn [world buffer] in H.
  destruct (os_write os wr (cstr data) w3) as [m w4].
  destruct (m <? 0) eqn:Em.
  { apply Z.ltb_lt in Em. injection H as <- <- <-.
    eapply path_write_failed; try eassumption. lia. }
  apply Z.ltb_ge in Em.
  destruct (to_size_t m <? strlen data).
  { injection H as <- <- <-.
    eapply path_short_write; try eassumption. lia. }
  injection H as <- <- <-.
  eapply path_success; try eassumption. lia.
Qed.

End WriterFacts.

(** ** The validation of [check_dirty_pipe], for every system *)

Section ValidationFacts.

Context {W : Type} (os : OS W).

Lemma gtb_true (a b : Z) : a > b -> (a >? b) = true.
Proof. intros H. apply Z.gtb_lt. lia. Qed.

Lemma gtb_false (a b : Z) : a <= b -> (a >? b) = false.
Proof. intros H. rewrite Z.gtb_ltb. apply Z.ltb_ge. exact H. Qed.

Lemma strlen_nonneg (s : string) : 0 <= strlen s.
Proof. unfold strlen. lia. Qed.

Lemma to_loff_t_add (a b : Z) : to_loff_t (a + to_loff_t b) = to_loff_t (a + b).
Proof.
  unfold to_loff_t.
  replace (a + ((b + 2 ^ 63) mod 2 ^ 64 - 2 ^ 63) + 2 ^ 63)
    with (a + (b + 2 ^ 63) mod 2 ^ 64) by lia.
  rewrite Zplus_mod_idemp_r. f_equal. f_equal. lia.
Qed.

(** The end of the write, as the program computes it. *)
Lemma end_offset_exact (offset : Z) (data : string) :
  LOFF_MIN <= offset -> offset + strlen data <= LOFF_MAX ->
  to_loff_t (offset + to_loff_t (strlen data)) = offset + strlen data.
Proof.
  intros Hlo Hhi. rewrite to_loff_t_add. apply to_loff_t_id.
  pose proof (strlen_nonneg data). lia.
Qed.

(** The next page boundary, as the program computes it. *)
Lemma next_page_exact (offset : Z) :
  ~ (PAGE_SIZE | offset) -> LOFF_MIN <= offset ->
  nextPageBoundary offset <= LOFF_MAX ->
  to_loff_t (Z.lor offset (PAGE_SIZE - 1) + 1) = nextPageBoundary offset.
Proof.
  intros Hnb Hlo Hhi. rewrite next_page_rounds_up by exact Hnb.
  apply to_loff_t_id.
  pose proof (next_page_bounds offset) as Hb.
  rewrite next_page_rounds_up in Hb by exact Hnb. lia.
Qed.

Lemma page_boundary_run (path : string) (offset : Z) (data : string)
  (p : Proc W) :
  (PAGE_SIZE | offset) ->
  check_dirty_pipe os path offset data p
  = (Val EXIT_FAILURE, p, [diagnostic PageBoundaryOffset]).
Proof.
  intros H. apply page_boundary_test in H.
  unfold check_dirty_pipe. rewrite H. reflexivity.
Qed.

Lemma crosses_run (path : string) (offset : Z) (data : string) (p : Proc W) :
  ~ (PAGE_SIZE | offset) ->
  LOFF_MIN <= offset -> offset + strlen data <= LOFF_MAX ->
  offset + strlen data > nextPageBoundary offset ->
  check_dirty_pipe os path offset data p
  = (Val EXIT_FAILURE, p, [diagnostic CrossesPageBoundary]).
Proof.
  intros Hnb Hlo Hhi Hcross.
  unfold check_dirty_pipe.
  rewrite (page_boundary_test_false Hnb).
  rewrite end_offset_exact by assumption.
  rewrite next_page_exact by (assumption || lia).
  rewrite (gtb_true Hcross). reflexivity.
Qed.

(** Past the two page checks the file is opened and its size decides. *)
Lemma sized_run (path : string) (offset : Z) (data : string) (p : Proc W)
  (fd size : Z) (w1 w2 : W) :
  ~ (PAGE_SIZE | offset) ->
  LOFF_MIN <= offset ->
  offset + strlen data <= nextPageBoundary offset <= LOFF_MAX ->
  os_open os path O_RDONLY 0 (world p) = (fd, w1) -> 0 <= fd ->
  os_fstat os fd w1 = (0, size, w2) ->
  (offset > size ->
   check_dirty_pipe os path offset data p
   = (Val EXIT_FAILURE, mkProc w2 (buffer p),
      [EOpen path O_RDONLY fd; EFstat fd 0 size;
       diagnostic OffsetOutOfRange]))
  /\ (offset <= size -> offset + strlen data > size ->
      check_dirty_pipe os path offset data p
      = (Val EXIT_FAILURE, mkProc w2 (buffer p),
         [EOpen path O_RDONLY fd; EFstat fd 0 size;
          diagnostic WouldGrowFile])).
Proof.
  intros Hnb Hlo [Hfit Hhi] Hopen Hfd Hstat.
  split; [intros Hout | intros Hin Hgrow];
    unfold check_dirty_pipe;
    rewrite (page_boundary_test_false Hnb);
    rewrite end_offset_exact by (assumption || lia);
    rewrite next_page_exact by assumption;
    rewrite (gtb_false Hfit);
    unfold bind at 1; unfold open; rewrite Hopen;
    replace (fd <? 0) with false by (symmetry; apply Z.ltb_ge; lia);
    unfold bind at 1; unfold fstat; cbn [world buffer]; rewrite Hstat;
    cbn [Z.eqb negb].
  - rewrite (gtb_true Hout). reflexivity.
  - rewrite (gtb_false Hin), (gtb_true Hgrow). reflexivity.
Qed.

End ValidationFacts.

(** ** The harness, for every system *)

Section HarnessFacts.

Context {W : Type} (os : OS W).

(** [create_test_file] never returns a negative value. *)
Lemma create_test_file_run (path : string) (p : Proc W) :
  exists v p' tr,
    create_test_file os path p = (Val v, p', tr) /\ 0 <= v /\ Created path tr.
Proof.
  destruct (create_test_file os path p) as [[o pe] tr] eqn:H.
  unfold create_test_file in H.
  unfold bind at 1 in H. unfold open in H.
  destruct (os_open os path (Z.lor O_CREAT O_WRONLY) 292 (world p)) as [fd w1].
  destruct (fd <? 0) eqn:Efd.
  { apply Z.ltb_lt in Efd. cbn in H. injection H as <- <- <-.
    do 3 eexists. split; [reflexivity |]. split; [unfold EXIT_FAILURE; lia |].
    apply created_open_failed. exact Efd. }
  unfold bind at 1 in H. unfold write in H. cbn [world buffer] in H.
  destruct (os_write os fd (cstr test_string) w1) as [n w2].
  destruct (n <? 0); cbn in H; injection H as <- <- <-;
    do 3 eexists; (split; [reflexivity |]).
  - split; [unfold EXIT_FAILURE; lia |]. apply created_write_failed.
  - split; [lia |]. apply created.
Qed.

(** [check_dirty_pipe] never returns a negative value. *)
Lemma check_dirty_pipe_nonneg (path : string) (offset : Z) (data : string)
  (p : Proc W) (v : Z) :
  result (check_dirty_pipe os path offset data p) = Val v -> 0 <= v.
Proof.
  intros H. pose proof (check_dirty_pipe_path os path offset data p) as Hp.
  rewrite H in Hp.
  inversion Hp; subst; unfold EXIT_FAILURE, EXIT_SUCCESS; lia.
Qed.

Lemma check_file_content_run (path : string) (p : Proc W) :
  (exists fd p',
      fd < 0
      /\ check_file_content os path p
         = (Val (-1), p',
            [EOpen path O_RDONLY fd; EPerror "testfile read failed"]))
  \/ (exists fd n content p',
         0 <= fd
         /\ (n = len content \/ (n = -1 /\ content = []))
         /\ check_file_content os path p
            = (Val (if negb (n =? 13)
                       || negb (strncmp (cstr test_string) content 13 =? 0)
                    then 1 else 0),
               p', [EOpen path O_RDONLY fd; ERead fd 255 n content; EClose fd])).
Proof.
  destruct (check_file_content os path p) as [[o pe] tr] eqn:H.
  unfold check_file_content in H.
  unfold bind at 1 in H. unfold open in H.
  destruct (os_open os path O_RDONLY 0 (world p)) as [fd w1].
  destruct (fd <? 0) eqn:Efd.
  { apply Z.ltb_lt in Efd. left. exists fd, pe.
    split; [exact Efd |]. cbn in H. injection H as <- <- <-. reflexivity. }
  apply Z.ltb_ge in Efd. right.
  unfold bind at 1 in H. unfold read in H. cbn [world buffer] in H.
  change (strlen test_string) with 13 in H.
  change (Z.to_nat 13) with 13%nat in H.
  destruct (os_read os fd 255 w1) as [[bs |] w2].
  - exists fd, (len (firstn (Z.to_nat 255) bs)), (firstn (Z.to_nat 255) bs), pe.
    split; [exact Efd |]. split; [left; reflexivity |].
    unfold bind, close, ret in H. cbn [world buffer] in H. unfold len.
    destruct (negb _ || negb _); injection H as <- <- <-; reflexivity.
  - exists fd, (-1), [], pe.
    split; [exact Efd |]. split; [right; split; reflexivity |].
    unfold bind, close, ret in H. cbn [world buffer] in H.
    cbn in H. injection H as <- <- <-. reflexivity.
Qed.

(** Every run of [main] is a run of the harness: the values returned by
    [create_test_file] and [check_dirty_pipe] do not stop it. *)
Lemma main_harness (argc : Z) (argv : list string) (p : Proc W) :
  Harness (result (main os argc argv p)) (trace (main os argc argv p)).
Proof.
  destruct (main os argc argv p) as [[o pe] tr] eqn:H.
  unfold result, trace; cbn [fst snd].
  unfold main in H. unfold bind at 1 in H.
  destruct (create_test_file_run test_file p) as (v1 & p1 & t1 & H1 & Hv1 & Hc).
  rewrite H1 in H.
  replace (v1 <? 0) with false in H by (symmetry; apply Z.ltb_ge; exact Hv1).
  unfold bind at 1 in H.
  pose proof (check_dirty_pipe_path os test_file 6 "mammy" p1) as Hpath.
  pose proof (@check_dirty_pipe_nonneg test_file 6 "mammy" p1) as Hnn.
  destruct (check_dirty_pipe os test_file 6 "mammy" p1) as [[o2 p2] t2].
  unfold result, trace in Hpath, Hnn; cbn [fst snd] in Hpath, Hnn.
  destruct o2 as [v2 |].
  2:{ injection H as <- <- <-. apply harness_aborted; assumption. }
  replace (v2 <? 0) with false in H
    by (symmetry; apply Z.ltb_ge; apply Hnn; reflexivity).
  unfold bind at 1 in H.
  destruct (check_file_content_run test_file p2)
    as [(fd & p3 & Hfd & H3) | (fd & n & content & p3 & Hfd & Hn & H3)];
    rewrite H3 in H.
  - cbn in H. injection H as <- <- <-.
    eapply harness_unreadable; eassumption.
  - pose proof (harness_verdict Hc Hpath Hfd Hn) as Hh.
    unfold verdict_line in Hh.
    destruct (negb (n =? 13) || _); cbn in H; injection H as <- <- <-;
      exact Hh.
Qed.

End HarnessFacts.

(** ** Properties of the exit paths *)

Lemma prepared_forall (P : Event -> Prop) (rd wr : Z) (tr : list Event) :
  Prepared rd wr tr ->
  P (EPipe 0 rd wr) ->
  (forall sz, P (EGetPipeSz wr sz)) ->
  (forall e, pipe_write wr e -> P e) ->
  (forall e, pipe_read rd e -> P e) ->
  Forall P tr.
Proof.
  intros [sz ws rs Hws Hrs] Hp Hsz Hw Hr.
  constructor; [exact Hp |]. constructor; [apply Hsz |].
  apply Forall_app. split.
  - eapply Forall_impl; [exact Hw | exact Hws].
  - eapply Forall_impl; [exact Hr | exact Hrs].
Qed.

(** A predicate that holds of the events of [pipe], [fcntl], [write] and
    [read] holds of the events of [prepare_pipe]. *)
Lemma prepared_only (P : Event -> Prop) (rd wr : Z) (tr : list Event) :
  Prepared rd wr tr ->
  (forall r a b, P (EPipe r a b)) ->
  (forall fd sz, P (EGetPipeSz fd sz)) ->
  (forall fd d n, P (EWrite fd d n)) ->
  (forall fd c n d, P (ERead fd c n d)) ->
  Forall P tr.
Proof.
  intros Hprep Hp Hsz Hw Hr.
  apply (prepared_forall P Hprep); auto.
  - intros [] He; try contradiction. apply Hw.
  - intros [] He; try contradiction. apply Hr.
Qed.

Lemma path_no_close (path : string) (offset : Z) (data : string)
  (o : Outcome Z) (tr : list Event) :
  Path path offset data o tr -> Forall no_close tr.
Proof.
  intros H. inversion H; subst; path_forall prepared_only ltac:(intros x; reflexivity).
Qed.

Lemma path_no_stdout (path : string) (offset : Z) (data : string)
  (o : Outcome Z) (tr : list Event) :
  Path path offset data o tr -> Forall no_stdout tr.
Proof.
  intros H. inversion H; subst; path_forall prepared_only ltac:(exact I).
Qed.

Lemma path_no_unlink (path : string) (offset : Z) (data : string)
  (o : Outcome Z) (tr : list Event) :
  Path path offset data o tr -> Forall no_unlink tr.
Proof.
  intros H. inversion H; subst; path_forall prepared_only ltac:(exact I).
Qed.

Lemma no_close_released (tr : list Event) (fd : Z) :
  Forall no_close tr -> existsb (is_close fd) tr = false.
Proof.
  induction 1 as [| e tr He _ IH]; [reflexivity |].
  cbn. rewrite (He fd), IH. reflexivity.
Qed.

Lemma path_splice_at (path : string) (offset : Z) (data : string)
  (o : Outcome Z) (tr : list Event) :
  Path path offset data o tr -> Forall (splice_at (to_loff_t (offset - 1))) tr.
Proof.
  intros H. inversion H; subst; path_forall prepared_only ltac:(cbn; auto).
Qed.

(** A run that got past the validation, to [pipe] or to the splice,
    started off a page boundary. *)
Lemma path_past_validation (path : string) (offset : Z) (data : string)
  (o : Outcome Z) (tr : list Event) :
  Path path offset data o tr ->
  tr <> [diagnostic PageBoundaryOffset] ->
  ~ (PAGE_SIZE | offset).
Proof.
  intros H Hne. inversion H; subst; try assumption. contradiction.
Qed.

(** ** Runs on the model *)

Example strlen_payload : strlen "mammy" = 5.
Proof. reflexivity. Qed.

Example strlen_test_string : strlen test_string = 13.
Proof. reflexivity. Qed.

Example strlen_stops_at_nul :
  strlen (String "a" (String NUL (String "b" EmptyString))) = 1.
Proof. reflexivity. Qed.

Example strncmp_equal : strncmp (cstr "abc") (cstr "abc") 3 = 0.
Proof. reflexivity. Qed.

Example strncmp_prefix : strncmp (cstr "abcd") (cstr "abce") 3 = 0.
Proof. reflexivity. Qed.

Example strncmp_differs : strncmp (cstr "abc") (cstr "abd") 3 = -1.
Proof. reflexivity. Qed.

Example next_page_of_6 : to_loff_t (Z.lor 6 (PAGE_SIZE - 1) + 1) = 4096.
Proof. reflexivity. Qed.

Example next_page_of_minus_5 : to_loff_t (Z.lor (-5) (PAGE_SIZE - 1) + 1) = 0.
Proof. reflexivity. Qed.

Example next_page_wraps :
  to_loff_t (Z.lor LOFF_MAX (PAGE_SIZE - 1) + 1) = LOFF_MIN.
Proof. reflexivity. Qed.

Example round_up_4097 : nextPageBoundary 4097 = 8192.
Proof. reflexivity. Qed.

(** On a kernel without the bug the artifact reads back unchanged, the
    verdict is Safe and the artifact is removed. *)
Example safe_run :
  last_read (trace (main linux 1 ["ditty"%string] (start fresh)))
  = Some (cstr test_string)
  /\ verdict_of (main linux 1 ["ditty"%string] (start fresh)) = Safe
  /\ result (main linux 1 ["ditty"%string] (start fresh)) = Val 0
  /\ file_at test_file
       (world (final (main linux 1 ["ditty"%string] (start fresh))))
     = None.
Proof. vm_compute. repeat split; reflexivity. Qed.

(** On a kernel with the bug bytes 6 to 10 of the artifact read back as
    the payload and the verdict is Vulnerable. *)
Example vulnerable_run :
  last_read (trace (main linux 1 ["ditty"%string] (start fresh_vulnerable)))
  = Some (cstr ("Hello mammy!" ++ LF))
  /\ verdict_of (main linux 1 ["ditty"%string] (start fresh_vulnerable))
     = Vulnerable
  /\ result (main linux 1 ["ditty"%string] (start fresh_vulnerable)) = Val 0.
Proof. vm_compute. repeat split; reflexivity. Qed.

(** * The claims *)

(** ** Validation *)

(** C4.  Validation runs in order and the first failure wins: when the
    offset is a multiple of the page size the call returns
    PageBoundaryOffset, whatever the payload and the files, and touches
    nothing; otherwise, when the offset is a [loff_t] value, the end of
    the write does not overflow [loff_t] and lies beyond the offset
    rounded up to the next page boundary, it returns
    CrossesPageBoundary, again without a system call. *)
Theorem validation_order {W : Type} (os : OS W) (path : string) (offset : Z)
  (data : string) (p : Proc W) :
  ((PAGE_SIZE | offset) ->
   check_dirty_pipe os path offset data p
   = (Val EXIT_FAILURE, p, [diagnostic PageBoundaryOffset]))
  /\ (~ (PAGE_SIZE | offset) ->
      LOFF_MIN <= offset -> offset + strlen data <= LOFF_MAX ->
      offset + strlen data > nextPageBoundary offset ->
      check_dirty_pipe os path offset data p
      = (Val EXIT_FAILURE, p, [diagnostic CrossesPageBoundary])).
Proof.
  split.
  - apply page_boundary_run.
  - apply crosses_run.
Qed.

(** The program's test, for offsets given as numerals. *)
Lemma not_on_boundary (z : Z) :
  (Z.rem z PAGE_SIZE =? 0) = false -> ~ (PAGE_SIZE | z).
Proof.
  intros H Hd. apply page_boundary_test in Hd. congruence.
Qed.

(** On the artifact: offset 4096 is on a page boundary, and five bytes
    from offset 4095 cross one. *)
Lemma validation_order_witness :
  returns_error PageBoundaryOffset
    (check_dirty_pipe linux test_file 4096 "mammy"
       (start with_artifact))
  /\ returns_error CrossesPageBoundary
       (check_dirty_pipe linux test_file 4095 "mammy"
          (start with_artifact)).
Proof.
  split.
  - rewrite (proj1 (validation_order linux test_file 4096 "mammy"
                      (start with_artifact))).
    + split; reflexivity.
    + exists 1. reflexivity.
  - rewrite (proj2 (validation_order linux test_file 4095 "mammy"
                      (start with_artifact))).
    + split; reflexivity.
    + apply not_on_boundary. reflexivity.
    + vm_compute. discriminate.
    + vm_compute. discriminate.
    + vm_compute. reflexivity.
Defined.

(** C3, as the specification states it, fails: with the 13-byte artifact,
    offset 13 and a one-byte payload the call does not return
    OffsetOutOfRange. *)
Lemma end_of_file_not_out_of_range :
  ~ returns_error OffsetOutOfRange
      (check_dirty_pipe linux test_file 13 "x" (start with_artifact)).
Proof.
  intros [_ H]. vm_compute in H. discriminate H.
Qed.

(** C3, amended.  With [offset = size] and a non-empty payload that stays
    within the page, a call that opens the file and obtains its size
    returns WouldGrowFile: the OffsetOutOfRange check is [offset > size]
    and lets [offset = size] through. *)
Theorem end_of_file_would_grow {W : Type} (os : OS W) (path : string)
  (offset : Z) (data : string) (p : Proc W) (fd : Z) (w1 w2 : W) :
  ~ (PAGE_SIZE | offset) ->
  LOFF_MIN <= offset ->
  offset + strlen data <= nextPageBoundary offset <= LOFF_MAX ->
  0 < strlen data ->
  os_open os path O_RDONLY 0 (world p) = (fd, w1) -> 0 <= fd ->
  os_fstat os fd w1 = (0, offset, w2) ->
  returns_error WouldGrowFile (check_dirty_pipe os path offset data p)
  /\ trace (check_dirty_pipe os path offset data p)
     = [EOpen path O_RDONLY fd; EFstat fd 0 offset; diagnostic WouldGrowFile].
Proof.
  intros Hnb Hlo Hfit Hlen Hopen Hfd Hstat.
  destruct (@sized_run W os path offset data p fd offset w1 w2
              Hnb Hlo Hfit Hopen Hfd Hstat) as [_ Hgrow].
  rewrite Hgrow by lia.
  split; [split |]; reflexivity.
Qed.

(** On the 13-byte artifact, one byte at offset 13. *)
Lemma end_of_file_would_grow_witness :
  returns_error WouldGrowFile
    (check_dirty_pipe linux test_file 13 "x" (start with_artifact)).
Proof.
  refine (proj1 (@end_of_file_would_grow _ linux test_file 13 "x"
                   (start with_artifact) 3 _ _ _ _ _ _ _ _ _)).
  - apply not_on_boundary. reflexivity.
  - vm_compute. discriminate.
  - split; vm_compute; discriminate.
  - reflexivity.
  - reflexivity.
  - vm_compute. discriminate.
  - reflexivity.
Defined.

(** ** The splice position *)

(** C9.  For a non-negative offset, a call that passes the validation
    and goes on to request the pipe has [1 <= offset]: offset 0 is a
    multiple of the page size and was rejected.  Every splice of the
    call is issued at [offset - 1], which is not negative. *)
Theorem splice_position_nonneg {W : Type} (os : OS W) (path : string)
  (offset : Z) (data : string) (p : Proc W) :
  0 <= offset <= LOFF_MAX ->
  (forall r rd wr,
      In (EPipe r rd wr) (trace (check_dirty_pipe os path offset data p)) ->
      1 <= offset)
  /\ (forall fd_in off_in fd_out n r,
         In (ESplice fd_in off_in fd_out n r)
           (trace (check_dirty_pipe os path offset data p)) ->
         off_in = offset - 1 /\ 0 <= off_in).
Proof.
  intros Hoff.
  pose proof (check_dirty_pipe_path os path offset data p) as Hpath.
  assert (Hpast : forall e,
             In e (trace (check_dirty_pipe os path offset data p)) ->
             e <> diagnostic PageBoundaryOffset -> 1 <= offset).
  { intros e Hin He.
    assert (Hnb : ~ (PAGE_SIZE | offset)).
    { eapply path_past_validation; [exact Hpath |].
      intros Heq. rewrite Heq in Hin. destruct Hin as [<- | []].
      apply He. reflexivity. }
    assert (offset <> 0) by (intros ->; apply Hnb; exists 0; reflexivity).
    lia. }
  split.
  - intros r rd wr Hin. apply (Hpast _ Hin). discriminate.
  - intros fd_in off_in fd_out n r Hin.
    assert (1 <= offset) by (apply (Hpast _ Hin); discriminate).
    pose proof (path_splice_at Hpath) as Hat.
    rewrite Forall_forall in Hat. specialize (Hat _ Hin). cbn in Hat.
    rewrite to_loff_t_id in Hat by (unfold LOFF_MIN, LOFF_MAX in *; lia).
    lia.
Qed.

(** The run of the harness on the artifact: the pipe is requested and
    the splice is issued at position 5. *)
Lemma splice_position_nonneg_witness : 1 <= 6 /\ 5 = 6 - 1 /\ 0 <= 5.
Proof.
  assert (Hoff : 0 <= 6 <= LOFF_MAX) by (vm_compute; split; discriminate).
  destruct (@splice_position_nonneg _ linux test_file 6 "mammy"
              (start with_artifact) Hoff) as [Hpipe Hsplice].
  split.
  - apply (Hpipe 0 4 5). apply (nth_error_In _ 2). reflexivity.
  - apply (Hsplice 3 5 5 1 1). apply (nth_error_In _ 36).
    vm_compute. reflexivity.
Defined.

(** ** Descriptors *)

(** C6, as the specification states it, fails: a successful call on the
    artifact returns with the file descriptor and both ends of the pipe
    still open. *)
Lemma descriptors_left_open :
  result
    (check_dirty_pipe linux test_file 6 "mammy" (start with_artifact))
  = Val EXIT_SUCCESS
  /\ obtained
       (trace
          (check_dirty_pipe linux test_file 6 "mammy"
             (start with_artifact)))
     = [3; 4; 5]
  /\ releases_all
       (trace
          (check_dirty_pipe linux test_file 6 "mammy"
             (start with_artifact)))
     = false
  /\ map fst
       (k_fds
          (world
             (final
                (check_dirty_pipe linux test_file 6 "mammy"
                   (start with_artifact)))))
     = [5; 4; 3; 0; 1; 2].
Proof.
  vm_compute. repeat split; reflexivity.
Qed.

(** C6, amended.  [check_dirty_pipe] never calls [close]: on every exit
    path the descriptors it obtained are still open when it returns, and
    it releases all it obtained only when it obtained none. *)
Theorem no_descriptor_released {W : Type} (os : OS W) (path : string)
  (offset : Z) (data : string) (p : Proc W) :
  Forall no_close (trace (check_dirty_pipe os path offset data p))
  /\ (releases_all (trace (check_dirty_pipe os path offset data p)) = true
      <-> obtained (trace (check_dirty_pipe os path offset data p)) = []).
Proof.
  pose proof (path_no_close (check_dirty_pipe_path os path offset data p))
    as Hnc.
  split; [exact Hnc |].
  unfold releases_all.
  destruct (obtained _) as [| fd fds]; [split; reflexivity |].
  cbn. rewrite (no_close_released fd Hnc). cbn.
  split; discriminate.
Qed.

(** ** The verdict *)

Lemma nat_of_ascii_inj (a b : ascii) : nat_of_ascii a = nat_of_ascii b -> a = b.
Proof.
  intros H. rewrite <- (ascii_nat_embedding a), <- (ascii_nat_embedding b).
  rewrite H. reflexivity.
Qed.

(** On strings of the same length, the first without NUL, [strncmp]
    over that length is 0 exactly when they are equal. *)
Lemma strncmp_zero (s1 s2 : list ascii) :
  List.length s2 = List.length s1 ->
  Forall (fun c => c <> NUL) s1 ->
  strncmp s1 s2 (List.length s1) = 0 <-> s2 = s1.
Proof.
  revert s2. induction s1 as [| c1 s1 IH]; intros s2 Hlen Hnul.
  - destruct s2; [| discriminate]. split; reflexivity.
  - destruct s2 as [| c2 s2]; [discriminate |].
    cbn [List.length strncmp hd tl].
    inversion Hnul as [| ? ? Hc1 Hrest]; subst.
    destruct (Ascii.eqb c1 c2) eqn:E; cbn [negb].
    + apply Ascii.eqb_eq in E. subst c2.
      replace (Ascii.eqb c1 NUL) with false
        by (symmetry; apply Ascii.eqb_neq; exact Hc1).
      rewrite IH by (cbn in Hlen; congruence || assumption).
      split; [intros -> | intros H; injection H]; auto.
    + apply Ascii.eqb_neq in E. split.
      * intros H. exfalso. apply E. apply nat_of_ascii_inj. lia.
      * intros H. injection H as -> _. contradiction.
Qed.

(** The line [main] prints is decided by equality with the original. *)
Lemma verdict_line_safe (n : Z) (content : list ascii) :
  n = len content ->
  content = cstr test_string ->
  verdict_line n content = ("You are safe" ++ LF)%string.
Proof.
  intros -> ->. reflexivity.
Qed.

Lemma verdict_line_vulnerable (n : Z) (content : list ascii) :
  n = len content ->
  content <> cstr test_string ->
  verdict_line n content = ("VULNERABLE!" ++ LF)%string.
Proof.
  intros Hn Hne. unfold verdict_line.
  destruct (n =? 13) eqn:E; [| reflexivity].
  apply Z.eqb_eq in E. cbn [negb orb].
  assert (Hlen : List.length content = 13%nat) by (unfold len in Hn; lia).
  destruct (strncmp _ content 13 =? 0) eqn:Es; [| reflexivity].
  apply Z.eqb_eq in Es. exfalso. apply Hne.
  destruct (@strncmp_zero (cstr test_string) content) as [Hz _].
  - rewrite Hlen. reflexivity.
  - repeat constructor; discriminate.
  - exact (Hz Es).
Qed.

Lemma stdout_none (tr : list Event) : Forall no_stdout tr -> stdout tr = [].
Proof.
  induction 1 as [| e tr He _ IH]; [reflexivity |].
  unfold stdout in *. cbn. rewrite IH. destruct e; try reflexivity.
  contradiction.
Qed.

Lemma created_no_stdout (path : string) (tr : list Event) :
  Created path tr -> Forall no_stdout tr.
Proof.
  intros H. inversion H; subst; repeat constructor.
Qed.

Lemma stdout_harness (t1 t2 tl : list Event) (path : string) (offset : Z)
  (data : string) (o : Outcome Z) :
  Created path t1 -> Path path offset data o t2 ->
  stdout (t1 ++ t2 ++ tl) = stdout tl.
Proof.
  intros Hc Hp. unfold stdout. rewrite !flat_map_app.
  fold (stdout t1). fold (stdout t2).
  rewrite (stdout_none (created_no_stdout Hc)).
  rewrite (stdout_none (path_no_stdout Hp)). reflexivity.
Qed.

(** C1, as the specification states it, fails.  Over a longer file
    left at the path of the artifact the overwrite sequence completes
    and leaves the artifact byte for byte as it was before the probe.
    The content read back is that unchanged content, which is neither
    the test string nor the test string with the payload injected: the
    classification of the specification gives Safe when it compares
    with the content before the probe and Error when it compares with
    the test string, and the verdict of the program is Vulnerable. *)
Lemma changed_content_is_vulnerable :
  result
    (check_dirty_pipe linux test_file 6 "mammy"
       (final (create_test_file linux test_file (start stale_long))))
  = Val EXIT_SUCCESS
  /\ nth_error (trace (main linux 1 ["ditty"%string] (start stale_long))) 40
     = Some (EWrite 5 (cstr "mammy") 5)
  /\ file_at test_file
       (world (final (create_test_file linux test_file (start stale_long))))
     = Some (mkFile (cstr ("Hello World!" ++ LF ++ "defghij")) 420)
  /\ file_at test_file
       (world
          (final
             (check_dirty_pipe linux test_file 6 "mammy"
                (final (create_test_file linux test_file
                          (start stale_long))))))
     = Some (mkFile (cstr ("Hello World!" ++ LF ++ "defghij")) 420)
  /\ last_read (trace (main linux 1 ["ditty"%string] (start stale_long)))
     = Some (cstr ("Hello World!" ++ LF ++ "defghij"))
  /\ spec_verdict (cstr ("Hello World!" ++ LF ++ "defghij")) 6 (cstr "mammy")
       (last_read (trace (main linux 1 ["ditty"%string] (start stale_long))))
     = Safe
  /\ spec_verdict (cstr test_string) 6 (cstr "mammy")
       (last_read (trace (main linux 1 ["ditty"%string] (start stale_long))))
     = Error
  /\ verdict_of (main linux 1 ["ditty"%string] (start stale_long))
     = Vulnerable.
Proof.
  vm_compute. repeat split; reflexivity.
Qed.

(** C1, amended.  In a run of the harness in which the overwrite
    sequence completes, that is, the call of [check_dirty_pipe] that
    follows [create_test_file] returns [EXIT_SUCCESS], the run ends with
    the read-back.  When the artifact cannot be opened the verdict is
    Error.  When it is opened, the verdict is Safe if the read delivers
    the 13 bytes of the test string and nothing else, and Vulnerable in
    every other case: for any other content, and for a read that
    fails. *)
Theorem verdict_by_content {W : Type} (os : OS W) (argc : Z)
  (argv : list string) (p : Proc W) :
  result
    (check_dirty_pipe os test_file 6 "mammy"
       (final (create_test_file os test_file p)))
  = Val EXIT_SUCCESS ->
  (exists pre fd,
      fd < 0
      /\ trace (main os argc argv p)
         = pre ++ [EOpen test_file O_RDONLY fd;
                   EPerror "testfile read failed"]
      /\ verdict_of (main os argc argv p) = Error)
  \/ (exists pre fd n content line,
         0 <= fd
         /\ trace (main os argc argv p)
            = pre ++ [EOpen test_file O_RDONLY fd; ERead fd 255 n content;
                      EClose fd; EStdout line; EUnlink test_file]
         /\ ((n = 13 /\ content = cstr test_string
              /\ verdict_of (main os argc argv p) = Safe)
             \/ ((n < 0 \/ content <> cstr test_string)
                 /\ verdict_of (main os argc argv p) = Vulnerable))).
Proof.
  intros Hok.
  destruct (@create_test_file_run W os test_file p)
    as (v1 & p1 & t1 & H1 & Hv1 & Hc).
  rewrite H1 in Hok. unfold final in Hok; cbn [fst snd] in Hok.
  pose proof (check_dirty_pipe_path os test_file 6 "mammy" p1) as Hp.
  destruct (check_dirty_pipe os test_file 6 "mammy" p1) as [[o2 p2] t2] eqn:H2.
  unfold result, trace in Hok, Hp; cbn [fst snd] in Hok, Hp. subst o2.
  unfold verdict_of.
  destruct (main os argc argv p) as [[o pe] tr] eqn:H.
  unfold result, trace; cbn [fst snd].
  unfold main in H. unfold bind at 1 in H. rewrite H1 in H.
  replace (v1 <? 0) with false in H by (symmetry; apply Z.ltb_ge; exact Hv1).
  unfold bind at 1 in H. rewrite H2 in H.
  change (EXIT_SUCCESS <? 0) with false in H.
  unfold bind at 1 in H.
  destruct (@check_file_content_run W os test_file p2)
    as [(fd & p3 & Hfd & H3) | (fd & n & content & p3 & Hfd & Hn & H3)];
    rewrite H3 in H.
  - cbn in H. injection H as <- <- <-. left. exists (t1 ++ t2), fd.
    split; [exact Hfd |]. split; [rewrite <- app_assoc; reflexivity |].
    reflexivity.
  - right. exists (t1 ++ t2), fd, n, content, (verdict_line n content).
    split; [exact Hfd |].
    assert (Htr : tr = t1 ++ t2
                       ++ [EOpen test_file O_RDONLY fd;
                           ERead fd 255 n content; EClose fd;
                           EStdout (verdict_line n content);
                           EUnlink test_file]
                  /\ o = Val 0).
    { unfold verdict_line.
      destruct (negb (n =? 13) || _); cbn in H; injection H as <- <- <-;
        split; reflexivity. }
    destruct Htr as [-> ->].
    split; [rewrite <- app_assoc; reflexivity |].
    rewrite (stdout_harness _ Hc Hp). cbn.
    assert (Hdec : {content = cstr test_string} + {content <> cstr test_string})
      by (apply list_eq_dec, ascii_dec).
    destruct Hn as [Hn | [Hn Hnil]].
    + destruct Hdec as [He | Hne].
      * left. split; [rewrite Hn, He; reflexivity |]. split; [exact He |].
        rewrite (verdict_line_safe Hn He). reflexivity.
      * right. split; [right; exact Hne |].
        rewrite (verdict_line_vulnerable Hn Hne). reflexivity.
    + right. split; [left; lia |]. rewrite Hn, Hnil. reflexivity.
Qed.

(** The run of the harness from a system without a file at the path of
    the artifact. *)
Lemma verdict_by_content_witness :
  (exists pre fd,
      fd < 0
      /\ trace (main linux 1 ["ditty"%string] (start fresh))
         = pre ++ [EOpen test_file O_RDONLY fd;
                   EPerror "testfile read failed"]
      /\ verdict_of (main linux 1 ["ditty"%string] (start fresh)) = Error)
  \/ (exists pre fd n content line,
         0 <= fd
         /\ trace (main linux 1 ["ditty"%string] (start fresh))
            = pre ++ [EOpen test_file O_RDONLY fd; ERead fd 255 n content;
                      EClose fd; EStdout line; EUnlink test_file]
         /\ ((n = 13 /\ content = cstr test_string
              /\ verdict_of (main linux 1 ["ditty"%string] (start fresh))
                 = Safe)
             \/ ((n < 0 \/ content <> cstr test_string)
                 /\ verdict_of (main linux 1 ["ditty"%string] (start fresh))
                    = Vulnerable))).
Proof.
  apply (@verdict_by_content _ linux 1 ["ditty"%string] (start fresh)).
  vm_compute. reflexivity.
Defined.

(** ** What the harness addresses *)

Lemma after_splice_skip (pre tl : list Event) :
  Forall no_splice pre -> after_splice (pre ++ tl) = after_splice tl.
Proof.
  induction 1 as [| e pre He _ IH]; [reflexivity |].
  destruct e; try exact IH. contradiction.
Qed.

Lemma after_splice_none (tr : list Event) :
  Forall no_splice tr -> after_splice tr = [].
Proof.
  intros H. rewrite <- (app_nil_r tr). apply (after_splice_skip [] H).
Qed.

Lemma prepared_no_splice (rd wr : Z) (tr : list Event) :
  Prepared rd wr tr -> Forall no_splice tr.
Proof.
  intros H. eapply prepared_only; [exact H | ..]; intros; exact I.
Qed.

Lemma path_addresses (path : string) (offset : Z) (data : string)
  (o : Outcome Z) (tr : list Event) :
  LOFF_MIN < offset <= LOFF_MAX ->
  Path path offset data o tr -> Forall (addresses path offset) tr.
Proof.
  intros Hoff H.
  assert (Hpos : to_loff_t (offset - 1) = offset - 1)
    by (apply to_loff_t_id; lia).
  inversion H; subst; rewrite ?Hpos; path_forall prepared_only ltac:(cbn; auto).
Qed.

(** After the splice of a call, the only write is that of the payload. *)
Lemma path_carries (path : string) (offset : Z) (data : string)
  (o : Outcome Z) (tr tl : list Event) :
  Path path offset data o tr ->
  Forall no_splice tl -> Forall (carries (cstr data)) tl ->
  Forall (carries (cstr data)) (after_splice (tr ++ tl)).
Proof.
  intros H Hns Hc.
  assert (Hnone : Forall (carries (cstr data)) (after_splice tl))
    by (rewrite (after_splice_none Hns); constructor).
  inversion H; subst; try exact Hnone;
    try (cbn; rewrite (after_splice_none Hns); constructor);
    cbn [app after_splice];
    rewrite <- app_assoc;
    rewrite (after_splice_skip _ (prepared_no_splice ltac:(eassumption)));
    cbn [app after_splice];
    repeat (apply Forall_cons; [cbn; auto |]); exact Hc.
Qed.

Lemma harness_targets (o : Outcome Z) (tr : list Event) :
  Harness o tr -> targets test_file 6 (cstr "mammy") tr.
Proof.
  assert (Hoff : LOFF_MIN < 6 <= LOFF_MAX)
    by (vm_compute; split; discriminate || reflexivity).
  assert (Hcr : forall t, Created test_file t ->
                          Forall (addresses test_file 6) t
                          /\ Forall no_splice t).
  { intros t Ht. inversion Ht; subst; split; repeat constructor. }
  intros H.
  inversion H as [t1 t2 Hc Hp | t1 v t2 fd Hc Hp Hfd
                 | t1 v t2 fd n content Hc Hp Hfd Hn]; subst;
    destruct (Hcr _ Hc) as [Ha1 Hns1];
    pose proof (path_addresses Hoff Hp) as Ha2.
  - split.
    + apply Forall_app. split; assumption.
    + rewrite (after_splice_skip _ Hns1).
      rewrite <- (app_nil_r t2).
      apply (path_carries Hp); constructor.
  - split.
    + rewrite !Forall_app. repeat split; try assumption.
      repeat constructor.
    + rewrite (after_splice_skip _ Hns1).
      apply (path_carries Hp); repeat constructor.
  - split.
    + rewrite !Forall_app. repeat split; try assumption.
      repeat constructor.
    + rewrite (after_splice_skip _ Hns1).
      apply (path_carries Hp); repeat constructor.
Qed.

(** C10.  [main] does not look at its arguments: two invocations from
    the same state of the system run identically, whatever [argc] and
    [argv], and every run opens and unlinks only [/tmp/testfile.txt],
    splices only one byte at position 6 - 1 and, after the splice, writes
    only the payload [mammy]. *)
Theorem main_ignores_arguments {W : Type} (os : OS W) (argc argc' : Z)
  (argv argv' : list string) (p : Proc W) :
  main os argc argv p = main os argc' argv' p
  /\ targets test_file 6 (cstr "mammy") (trace (main os argc argv p)).
Proof.
  split; [reflexivity |].
  apply (harness_targets (main_harness os argc argv p)).
Qed.

(** ** Exit status and removal of the artifact *)

(** C2 fails on the code.  Over a read-only three-byte file left at the
    path of the artifact, [create_test_file] fails and [check_dirty_pipe]
    rejects the offset, both returning [EXIT_FAILURE]; [main] tests for a
    negative value, goes on, prints a verdict and exits with status 0. *)
Lemma failed_validation_exits_zero :
  firstn 5 (trace (main linux 1 ["ditty"%string] (start stale_short)))
  = [EOpen test_file (Z.lor O_CREAT O_WRONLY) (-1);
     EPerror "testfile open failed";
     EOpen test_file O_RDONLY 3; EFstat 3 0 3;
     diagnostic OffsetOutOfRange]
  /\ stdout (trace (main linux 1 ["ditty"%string] (start stale_short)))
     = [("VULNERABLE!" ++ LF)%string]
  /\ result (main linux 1 ["ditty"%string] (start stale_short)) = Val 0.
Proof.
  vm_compute. repeat split; reflexivity.
Qed.

(** For every system: a failure of [check_dirty_pipe] never makes [main]
    exit with a failure status; it does so only when the read-back cannot
    open the artifact. *)
Lemma exit_failure_only_unreadable {W : Type} (os : OS W) (argc : Z)
  (argv : list string) (p : Proc W) (v : Z) :
  result (main os argc argv p) = Val v ->
  v = 0
  \/ (v = EXIT_FAILURE
      /\ exists pre fd,
           fd < 0
           /\ trace (main os argc argv p)
              = pre ++ [EOpen test_file O_RDONLY fd;
                        EPerror "testfile read failed"]).
Proof.
  intros Hv. pose proof (main_harness os argc argv p) as H.
  rewrite Hv in H.
  inversion H as [| t1 v2 t2 fd Hc Hp Hfd | t1 v2 t2 fd n content Hc Hp Hfd Hn];
    subst.
  - right. split; [reflexivity |]. exists (t1 ++ t2), fd.
    split; [exact Hfd |]. rewrite <- app_assoc. reflexivity.
  - left. reflexivity.
Qed.

Lemma no_unlink_none (path : string) (tr : list Event) :
  Forall no_unlink tr -> existsb (is_unlink path) tr = false.
Proof.
  induction 1 as [| e tr He _ IH]; [reflexivity |].
  cbn. rewrite IH. destruct e; try reflexivity. contradiction.
Qed.

Lemma created_no_unlink (path : string) (tr : list Event) :
  Created path tr -> Forall no_unlink tr.
Proof.
  intros H. inversion H; subst; repeat constructor.
Qed.

(** For every system: a run of [main] unlinks the artifact exactly when
    it exits with status 0. *)
Lemma unlink_iff_exit_zero {W : Type} (os : OS W) (argc : Z)
  (argv : list string) (p : Proc W) :
  existsb (is_unlink test_file) (trace (main os argc argv p)) = true
  <-> result (main os argc argv p) = Val 0.
Proof.
  pose proof (main_harness os argc argv p) as H.
  destruct (main os argc argv p) as [[o pe] tr].
  unfold result, trace in *; cbn [fst snd] in *.
  inversion H as [t1 t2 Hc Hp | t1 v t2 fd Hc Hp Hfd
                 | t1 v t2 fd n content Hc Hp Hfd Hn]; subst;
    rewrite !existsb_app;
    rewrite (no_unlink_none test_file (created_no_unlink Hc));
    rewrite (no_unlink_none test_file (path_no_unlink Hp)); cbn.
  - split; discriminate.
  - split; discriminate.
  - rewrite ?orb_true_r. split; reflexivity.
Qed.

(** C7 fails on the code.  With [RLIMIT_NOFILE] at 6 the three
    descriptors [check_dirty_pipe] leaves open exhaust the table, the
    read-back cannot open the artifact, and [main] returns
    [EXIT_FAILURE] without unlinking it: the artifact is still there. *)
Lemma artifact_left_behind :
  result (main linux 1 ["ditty"%string] (start tight)) = Val EXIT_FAILURE
  /\ existsb (is_unlink test_file)
       (trace (main linux 1 ["ditty"%string] (start tight)))
     = false
  /\ file_at test_file
       (world (final (main linux 1 ["ditty"%string] (start tight))))
     = Some (mkFile (cstr test_string) 292).
Proof.
  vm_compute. repeat split; reflexivity.
Qed.

(** ** The size checks *)

(** C5.  The validation is in order and the first failure wins, so the
    size checks are reached by the requests that pass the two page
    checks, on a file that is opened.  For these: with [offset > size]
    the call returns OffsetOutOfRange; with
    [offset <= size < offset + len(payload)] it returns WouldGrowFile; in
    both cases no splice and no write was issued and the files of the
    system are what they were. *)
Theorem size_checks_leave_file (k : Kernel) (buf : list ascii)
  (path : string) (offset : Z) (data : string) (fd : Z) (f : File) :
  ~ (PAGE_SIZE | offset) ->
  LOFF_MIN <= offset ->
  offset + strlen data <= nextPageBoundary offset <= LOFF_MAX ->
  free_fd k = Some fd ->
  file_at path k = Some f ->
  (offset > len (f_data f) ->
   returns_error OffsetOutOfRange
     (check_dirty_pipe linux path offset data (mkProc k buf)))
  /\ (offset <= len (f_data f) -> offset + strlen data > len (f_data f) ->
      returns_error WouldGrowFile
        (check_dirty_pipe linux path offset data (mkProc k buf)))
  /\ (offset + strlen data > len (f_data f) ->
      Forall no_transfer
        (trace (check_dirty_pipe linux path offset data (mkProc k buf)))
      /\ k_files
           (world
              (final (check_dirty_pipe linux path offset data (mkProc k buf))))
         = k_files k).
Proof.
  intros Hnb Hlo Hfit Hfd Hf.
  pose proof (@free_fd_spec k fd Hfd) as [Hfd0 _].
  destruct (@sized_run Kernel linux path offset data (mkProc k buf) fd
              (len (f_data f)) _ _ Hnb Hlo Hfit
              (@linux_open_rdonly k path fd f Hfd Hf) Hfd0
              (@linux_fstat_opened k path fd f 0 false Hf)) as [Hout Hgrow].
  split; [| split].
  - intros H. rewrite (Hout H). split; reflexivity.
  - intros H1 H2. rewrite (Hgrow H1 H2). split; reflexivity.
  - intros H.
    destruct (Z_gt_le_dec offset (len (f_data f))) as [Hgt | Hle].
    + rewrite (Hout Hgt). split; [repeat constructor | reflexivity].
    + rewrite (Hgrow Hle H). split; [repeat constructor | reflexivity].
Qed.

(** On the 13-byte artifact: five bytes at offset 20, and at offset 10. *)
Lemma size_checks_leave_file_witness :
  returns_error OffsetOutOfRange
    (check_dirty_pipe linux test_file 20 "mammy"
       (start with_artifact))
  /\ returns_error WouldGrowFile
       (check_dirty_pipe linux test_file 10 "mammy"
          (start with_artifact))
  /\ k_files
       (world
          (final
             (check_dirty_pipe linux test_file 10 "mammy"
                (start with_artifact))))
     = k_files with_artifact.
Proof.
  assert (Hfd : free_fd with_artifact = Some 3) by reflexivity.
  assert (Hf : file_at test_file with_artifact
               = Some (mkFile (cstr test_string) 292)) by reflexivity.
  split; [| split].
  - refine (proj1 (@size_checks_leave_file with_artifact _ test_file
                     20 "mammy" 3 _ _ _ _ Hfd Hf) _).
    + apply not_on_boundary. reflexivity.
    + vm_compute. discriminate.
    + split; vm_compute; discriminate.
    + reflexivity.
  - refine (proj1 (proj2 (@size_checks_leave_file with_artifact _
                            test_file 10 "mammy" 3 _ _ _ _ Hfd Hf))
              _ _).
    + apply not_on_boundary. reflexivity.
    + vm_compute. discriminate.
    + split; vm_compute; discriminate.
    + vm_compute. discriminate.
    + reflexivity.
  - refine (proj2 (proj2 (proj2 (@size_checks_leave_file with_artifact _
                                   test_file 10 "mammy" 3 _ _ _ _
                                   Hfd Hf)) _)).
    + apply not_on_boundary. reflexivity.
    + vm_compute. discriminate.
    + split; vm_compute; discriminate.
    + reflexivity.
Defined.

(** ** Preparing the pipe *)

(** The fill loop on the model: with room for [r] more bytes in the
    pipe, every chunk is written whole and [r] bytes are queued. *)
Lemma fill_loop_linux (wr r : Z) :
  0 <= r ->
  forall (k : Kernel) (buf : list ascii),
    desc_at wr k = Some DPipeWr -> k_ref k = None ->
    len (k_pipe k) + r <= k_pipe_sz k ->
    len buf = sizeof_buffer ->
    exists q ws,
      fill_loop linux wr r (mkProc k buf)
      = (Val tt, mkProc (set_pipe (k_pipe k ++ q) None k) buf, ws)
      /\ len q = r
      /\ Forall (chunk_write wr) ws
      /\ bytes_written ws = r.
Proof.
  intros Hr. generalize Hr. pattern r.
  apply Z_lt_induction; [clear r Hr | exact Hr].
  intros r IH Hr k buf Hwr Href Hroom Hbuf. rewrite fill_loop_step.
  destruct (0 <? r) eqn:E.
  - apply Z.ltb_lt in E. destruct (@chunk_bounds r E) as [Hn Hle].
    set (n := if r >? sizeof_buffer then sizeof_buffer else r) in *.
    unfold sizeof_buffer in Hn, Hbuf.
    assert (Hdata : len (firstn (Z.to_nat n) buf) = n)
      by (apply len_firstn; lia).
    unfold bind, write_buffer, write. cbn [world buffer os_write linux].
    unfold linux_write. rewrite Hwr, Href, Hdata.
    replace (len (k_pipe k) + n >? k_pipe_sz k) with false
      by (symmetry; apply gtb_false; lia).
    set (data := firstn (Z.to_nat n) buf) in *.
    destruct (IH (r - n) ltac:(lia) ltac:(lia)
                (set_pipe (k_pipe k ++ data) None k) buf)
      as (q & ws & Hrun & Hq & Hws & Hsum).
    + exact Hwr.
    + reflexivity.
    + cbn [k_pipe set_pipe k_pipe_sz]. rewrite len_app. lia.
    + exact Hbuf.
    + rewrite Hrun. exists (data ++ q), (EWrite wr data n :: ws).
      cbn [k_pipe set_pipe]. rewrite set_pipe_set_pipe, <- app_assoc.
      split; [reflexivity |]. split; [rewrite len_app; lia |].
      split.
      * constructor; [| exact Hws].
        unfold chunk_write, sizeof_buffer. rewrite Hdata. lia.
      * cbn. unfold bytes_written in Hsum. rewrite Hsum. lia.
  - apply Z.ltb_ge in E. assert (r = 0) by lia. subst r.
    exists [], []. rewrite app_nil_r, (set_pipe_same k Href).
    split; [reflexivity |]. split; [reflexivity |].
    split; [constructor | reflexivity].
Qed.

(** The drain loop on the model: with [r] bytes queued, every chunk is
    read whole and the pipe is left empty. *)
Lemma drain_loop_linux (rd r : Z) :
  0 <= r ->
  forall (k : Kernel) (buf : list ascii),
    desc_at rd k = Some DPipeRd -> k_ref k = None ->
    len (k_pipe k) = r ->
    len buf = sizeof_buffer ->
    exists buf' rs,
      drain_loop linux rd r (mkProc k buf)
      = (Val tt, mkProc (set_pipe [] None k) buf', rs)
      /\ len buf' = sizeof_buffer
      /\ Forall (chunk_read rd) rs
      /\ bytes_read rs = r.
Proof.
  intros Hr. generalize Hr. pattern r.
  apply Z_lt_induction; [clear r Hr | exact Hr].
  intros r IH Hr k buf Hrd Href Hlen Hbuf. rewrite drain_loop_step.
  destruct (0 <? r) eqn:E.
  - apply Z.ltb_lt in E. destruct (@chunk_bounds r E) as [Hn Hle].
    set (n := if r >? sizeof_buffer then sizeof_buffer else r) in *.
    unfold sizeof_buffer in Hn, Hbuf.
    assert (Hdata : len (firstn (Z.to_nat n) (k_pipe k)) = n)
      by (apply len_firstn; lia).
    unfold bind, read_buffer, read. cbn [world buffer os_read linux].
    unfold linux_read. rewrite Hrd, Href.
    destruct (k_pipe k) as [| c q] eqn:Hq; [cbn in Hlen; lia |].
    rewrite <- Hq in *. rewrite firstn_firstn, Nat.min_id.
    fold (len (firstn (Z.to_nat n) (k_pipe k))). rewrite Hdata.
    set (data := firstn (Z.to_nat n) (k_pipe k)) in *.
    replace (match skipn (Z.to_nat n) (k_pipe k) with
             | [] => None
             | _ :: _ => None
             end) with (@None (string * Z))
      by (destruct (skipn (Z.to_nat n) (k_pipe k)); reflexivity).
    cbn [world buffer].
    destruct (IH (r - n) ltac:(lia) ltac:(lia)
                (set_pipe (skipn (Z.to_nat n) (k_pipe k)) None k)
                (store data buf))
      as (buf' & rs & Hrun & Hbuf' & Hrs & Hsum).
    + exact Hrd.
    + reflexivity.
    + cbn [k_pipe set_pipe]. rewrite len_skipn by lia. lia.
    + rewrite len_store by lia. unfold sizeof_buffer. exact Hbuf.
    + rewrite Hrun. exists buf', (ERead rd n n data :: rs).
      rewrite set_pipe_set_pipe.
      split; [reflexivity |]. split; [exact Hbuf' |].
      split.
      * constructor; [| exact Hrs].
        unfold chunk_read, sizeof_buffer. rewrite Hdata. lia.
      * cbn. unfold bytes_read in Hsum. rewrite Hsum. lia.
  - apply Z.ltb_ge in E. assert (Hr0 : r = 0) by lia.
    assert (Hempty : k_pipe k = [])
      by (destruct (k_pipe k); [reflexivity | cbn in Hlen; lia]).
    exists buf, []. rewrite <- Hempty, (set_pipe_same k Href).
    split; [reflexivity |]. split; [exact Hbuf |].
    split; [constructor | rewrite Hr0; reflexivity].
Qed.



(** * Further properties *)

(** ** The chunks of [prepare_pipe] *)

Lemma chunks_zero : chunks 0 = [].
Proof. reflexivity. Qed.

Lemma chunks_last (r : Z) : 0 < r <= sizeof_buffer -> chunks r = [r].
Proof.
  unfold chunks, sizeof_buffer. intros H.
  destruct (Z.eq_dec r 4096) as [-> | Hne]; [reflexivity |].
  rewrite Z.div_small, Z.mod_small by lia.
  replace (r =? 0) with false by (symmetry; apply Z.eqb_neq; lia).
  reflexivity.
Qed.

Lemma chunks_next (r : Z) :
  sizeof_buffer < r -> chunks r = sizeof_buffer :: chunks (r - sizeof_buffer).
Proof.
  unfold chunks, sizeof_buffer. intros H.
  assert (Hd : r / 4096 = (r - 4096) / 4096 + 1).
  { replace r with ((r - 4096) + 1 * 4096) at 1 by lia.
    apply Z.div_add. lia. }
  assert (Hm : r mod 4096 = (r - 4096) mod 4096).
  { replace r with ((r - 4096) + 1 * 4096) at 1 by lia.
    apply Z.mod_add. lia. }
  rewrite Hd, Hm.
  replace (Z.to_nat ((r - 4096) / 4096 + 1))
    with (S (Z.to_nat ((r - 4096) / 4096)))
    by (pose proof (Z.div_pos (r - 4096) 4096); lia).
  reflexivity.
Qed.

(** The chunk the loops take next, and what is left. *)
Lemma chunks_step (r : Z) :
  0 < r ->
  chunks r
  = (if r >? sizeof_buffer then sizeof_buffer else r)
      :: chunks (r - (if r >? sizeof_buffer then sizeof_buffer else r)).
Proof.
  intros H. destruct (r >? sizeof_buffer) eqn:E.
  - apply chunks_next. apply Z.gtb_lt in E. lia.
  - rewrite Z.sub_diag, chunks_zero. apply chunks_last.
    rewrite Z.gtb_ltb in E. apply Z.ltb_ge in E. lia.
Qed.

Section ChunkFacts.

Context {W : Type} (os : OS W).

Lemma fill_loop_chunks (fd r : Z) :
  0 <= r ->
  forall p, len (buffer p) = sizeof_buffer ->
  exists p' ws,
    fill_loop os fd r p = (Val tt, p', ws)
    /\ buffer p' = buffer p
    /\ Forall (pipe_write fd) ws /\ offered ws = chunks r.
Proof.
  intros Hr. generalize Hr. pattern r.
  apply Z_lt_induction; [clear r Hr | exact Hr].
  intros r IH Hr p Hbuf. rewrite fill_loop_step.
  destruct (0 <? r) eqn:E.
  - apply Z.ltb_lt in E. rewrite (chunks_step E).
    destruct (@chunk_bounds r E) as [Hn Hle].
    set (n := if r >? sizeof_buffer then sizeof_buffer else r) in *.
    assert (Hdata : len (firstn (Z.to_nat n) (buffer p)) = n)
      by (apply len_firstn; lia).
    unfold bind, write_buffer, write.
    destruct (os_write os fd (firstn (Z.to_nat n) (buffer p)) (world p))
      as [res w1].
    destruct (IH (r - n) ltac:(lia) ltac:(lia) (mkProc w1 (buffer p)) Hbuf)
      as (p' & ws & Hrun & Hb & Hws & Hsizes).
    rewrite Hrun.
    exists p', (EWrite fd (firstn (Z.to_nat n) (buffer p)) res :: ws).
    split; [reflexivity |]. split; [exact Hb |]. split.
    + constructor; [reflexivity | exact Hws].
    + unfold offered in *. cbn. rewrite Hsizes, Hdata. reflexivity.
  - apply Z.ltb_ge in E. assert (Hr0 : r = 0) by lia. rewrite Hr0.
    exists p, []. repeat split; constructor.
Qed.

Lemma drain_loop_chunks (fd r : Z) :
  0 <= r ->
  forall p, len (buffer p) = sizeof_buffer ->
  exists p' rs,
    drain_loop os fd r p = (Val tt, p', rs)
    /\ len (buffer p') = sizeof_buffer
    /\ Forall (pipe_read fd) rs /\ requested rs = chunks r.
Proof.
  intros Hr. generalize Hr. pattern r.
  apply Z_lt_induction; [clear r Hr | exact Hr].
  intros r IH Hr p Hbuf. rewrite drain_loop_step.
  destruct (0 <? r) eqn:E.
  - apply Z.ltb_lt in E. rewrite (chunks_step E).
    destruct (@chunk_bounds r E) as [Hn Hle].
    set (n := if r >? sizeof_buffer then sizeof_buffer else r) in *.
    unfold bind, read_buffer, read.
    destruct (os_read os fd n (world p)) as [res w1].
    assert (Hstore : forall bs,
               len (store (firstn (Z.to_nat n) bs) (buffer p)) = sizeof_buffer).
    { intros bs. rewrite len_store; [exact Hbuf |].
      unfold len in *. rewrite length_firstn. lia. }
    destruct res as [bs |]; cbn [world buffer];
      match goal with
      | |- context [drain_loop os fd (r - n) ?q] =>
          destruct (IH (r - n) ltac:(lia) ltac:(lia) q)
            as (p' & rs & Hrun & Hb & Hrs & Hsizes);
          [ first [ apply Hstore | exact Hbuf ] |]
      end;
      rewrite Hrun; eexists _, (_ :: rs);
      (split; [reflexivity |]); (split; [exact Hb |]); split;
      try (constructor; [reflexivity | exact Hrs]);
      unfold requested in *; cbn; rewrite Hsizes; reflexivity.
  - apply Z.ltb_ge in E. assert (Hr0 : r = 0) by lia. rewrite Hr0.
    exists p, []. repeat split; [exact Hbuf | constructor].
Qed.

(** [prepare_pipe] aborts when [pipe] fails; otherwise it goes through
    the capacity [fcntl] returned, in both loops. *)
Lemma prepare_pipe_run_chunks (p : Proc W) :
  len (buffer p) = sizeof_buffer ->
  (exists r rd wr p',
      r <> 0 /\ prepare_pipe os p = (Aborted, p', [EPipe r rd wr; EAbort]))
  \/ (exists rd wr c p' ws rs,
         prepare_pipe os p
         = (Val (rd, wr), p', EPipe 0 rd wr :: EGetPipeSz wr c :: ws ++ rs)
         /\ Forall (pipe_write wr) ws /\ offered ws = chunks (to_unsigned c)
         /\ Forall (pipe_read rd) rs
         /\ requested rs = chunks (to_unsigned c)).
Proof.
  intros Hbuf.
  unfold prepare_pipe, bind, pipe, abort, fcntl_getpipe_sz.
  destruct (os_pipe os (world p)) as [[r [rd wr]] w1].
  destruct (r =? 0) eqn:E; cbn [negb fst snd world buffer].
  - apply Z.eqb_eq in E. subst r. right.
    destruct (os_getpipe_sz os wr w1) as [c w2].
    destruct (@fill_loop_chunks wr (to_unsigned c) (to_unsigned_nonneg c)
                (mkProc w2 (buffer p)) Hbuf)
      as (p1 & ws & Hfill & Hb1 & Hws & Hoff).
    rewrite Hfill.
    assert (Hbuf1 : len (buffer p1) = sizeof_buffer)
      by (rewrite Hb1; exact Hbuf).
    destruct (@drain_loop_chunks rd (to_unsigned c) (to_unsigned_nonneg c)
                p1 Hbuf1)
      as (p2 & rs & Hdrain & _ & Hrs & Hreq).
    rewrite Hdrain. unfold ret.
    exists rd, wr, c, p2, ws, rs. split.
    + cbn [app]. rewrite app_nil_r. reflexivity.
    + repeat split; assumption.
  - apply Z.eqb_neq in E. left. exists r, rd, wr. eexists.
    split; [exact E | reflexivity].
Qed.

End ChunkFacts.

(** ** The phases of [check_dirty_pipe], for every system *)

Section PhaseFacts.

Context {W : Type} (os : OS W).

(** Every call is rejected by the validation, aborted by [prepare_pipe],
    or reaches the transfer with a request the validation accepts. *)
Lemma check_dirty_pipe_phases (path : string) (offset : Z) (data : string)
  (p : Proc W) :
  (exists e pre,
      Rejected path offset data e pre
      /\ result (check_dirty_pipe os path offset data p) = Val EXIT_FAILURE
      /\ trace (check_dirty_pipe os path offset data p)
         = pre ++ [diagnostic e])
  \/ (exists fd size r rd wr,
         0 <= fd /\ accepts offset data size = true /\ r <> 0
         /\ result (check_dirty_pipe os path offset data p) = Aborted
         /\ trace (check_dirty_pipe os path offset data p)
            = [EOpen path O_RDONLY fd; EFstat fd 0 size; EPipe r rd wr;
               EAbort])
  \/ (exists fd size rd wr prep v tl,
         0 <= fd /\ accepts offset data size = true
         /\ Prepared rd wr prep
         /\ Transfer fd (to_loff_t (offset - 1)) wr data v tl
         /\ result (check_dirty_pipe os path offset data p) = Val v
         /\ trace (check_dirty_pipe os path offset data p)
            = EOpen path O_RDONLY fd :: EFstat fd 0 size :: prep ++ tl).
Proof.
  destruct (check_dirty_pipe os path offset data p) as [[o p'] tr] eqn:H.
  unfold result, trace; cbn [fst snd].
  unfold check_dirty_pipe in H. cbv zeta in H.
  change (to_loff_t (Z.lor offset (PAGE_SIZE - 1) + 1))
    with (next_page offset) in H.
  change (to_loff_t (offset + to_loff_t (strlen data)))
    with (end_offset offset (strlen data)) in H.
  destruct (Z.rem offset PAGE_SIZE =? 0) eqn:Epage.
  { injection H as <- <- <-. left. exists PageBoundaryOffset, [].
    split; [| split; reflexivity].
    apply rejected_page_boundary. apply Z.eqb_eq. exact Epage. }
  assert (Hpage : Z.rem offset PAGE_SIZE <> 0) by (apply Z.eqb_neq; exact Epage).
  destruct (end_offset offset (strlen data) >? next_page offset) eqn:Ecross.
  { injection H as <- <- <-. left. exists CrossesPageBoundary, [].
    split; [| split; reflexivity].
    apply rejected_crosses; [exact Hpage |]. apply Z.gtb_lt in Ecross. lia. }
  assert (Hfit : end_offset offset (strlen data) <= next_page offset).
  { rewrite Z.gtb_ltb in Ecross. apply Z.ltb_ge in Ecross. exact Ecross. }
  unfold bind at 1 in H. unfold open in H.
  destruct (os_open os path O_RDONLY 0 (world p)) as [fd w1].
  destruct (fd <? 0) eqn:Efd.
  { apply Z.ltb_lt in Efd. injection H as <- <- <-. left.
    exists OpenFailed, [EOpen path O_RDONLY fd].
    split; [| split; reflexivity]. apply rejected_open; assumption. }
  apply Z.ltb_ge in Efd.
  unfold bind at 1 in H. unfold fstat in H. cbn [world buffer] in H.
  destruct (os_fstat os fd w1) as [[r size] w2].
  destruct (r =? 0) eqn:Er; cbn [negb] in H.
  2:{ apply Z.eqb_neq in Er. injection H as <- <- <-. left.
      exists StatFailed, [EOpen path O_RDONLY fd; EFstat fd r size].
      split; [| split; reflexivity]. apply rejected_stat; assumption. }
  apply Z.eqb_eq in Er. subst r.
  destruct (offset >? size) eqn:Eout.
  { injection H as <- <- <-. left.
    exists OffsetOutOfRange, [EOpen path O_RDONLY fd; EFstat fd 0 size].
    split; [| split; reflexivity].
    apply rejected_out_of_range; try assumption.
    apply Z.gtb_lt in Eout. lia. }
  destruct (end_offset offset (strlen data) >? size) eqn:Egrow.
  { injection H as <- <- <-. left.
    exists WouldGrowFile, [EOpen path O_RDONLY fd; EFstat fd 0 size].
    split; [| split; reflexivity].
    apply rejected_would_grow; try assumption.
    - rewrite Z.gtb_ltb in Eout. apply Z.ltb_ge in Eout. exact Eout.
    - apply Z.gtb_lt in Egrow. lia. }
  assert (Hacc : accepts offset data size = true).
  { unfold accepts. rewrite Epage, Ecross, Eout, Egrow. reflexivity. }
  right.
  unfold bind at 1 in H.
  destruct (prepare_pipe_run os (mkProc w2 (buffer p)))
    as [(r & rd & wr & p1 & Hr & Hrun) | (rd & wr & p1 & prep & Hrun & Hprep)];
    rewrite Hrun in H.
  { injection H as <- <- <-. left. exists fd, size, r, rd, wr.
    repeat split; assumption. }
  right.
  unfold bind at 1 in H. unfold splice in H. cbn [fst snd] in H.
  destruct (os_splice os fd (to_loff_t (offset - 1)) wr 1 (world p1))
    as [n w3].
  destruct (n <? 0) eqn:En.
  { apply Z.ltb_lt in En. injection H as <- <- <-.
    exists fd, size, rd, wr, prep, EXIT_FAILURE. eexists.
    repeat split; try eassumption. apply transfer_splice_failed. exact En. }
  apply Z.ltb_ge in En.
  destruct (n =? 0) eqn:En0.
  { apply Z.eqb_eq in En0. subst n. injection H as <- <- <-.
    exists fd, size, rd, wr, prep, EXIT_FAILURE. eexists.
    repeat split; try eassumption. apply transfer_short_splice. }
  apply Z.eqb_neq in En0.
  unfold bind at 1 in H. unfold write in H. cbn [world buffer] in H.
  destruct (os_write os wr (cstr data) w3) as [m w4].
  destruct (m <? 0) eqn:Em.
  { apply Z.ltb_lt in Em. injection H as <- <- <-.
    exists fd, size, rd, wr, prep, EXIT_FAILURE. eexists.
    repeat split; try eassumption. apply transfer_write_failed; lia. }
  apply Z.ltb_ge in Em.
  destruct (to_size_t m <? strlen data) eqn:Eshort.
  { apply Z.ltb_lt in Eshort. injection H as <- <- <-.
    exists fd, size, rd, wr, prep, EXIT_FAILURE. eexists.
    repeat split; try eassumption. apply transfer_short_write; lia. }
  apply Z.ltb_ge in Eshort. injection H as <- <- <-.
  exists fd, size, rd, wr, prep, EXIT_SUCCESS. eexists.
  repeat split; try eassumption. apply transfer_success; lia.
Qed.

End PhaseFacts.

(** ** [prepare_pipe], for every system *)



(** ** Arithmetic of the accepted requests *)

Lemma next_page_formula (z : Z) :
  ~ (PAGE_SIZE | z) ->
  nextPageBoundary z = PAGE_SIZE * (z / PAGE_SIZE) + PAGE_SIZE.
Proof.
  intros H. rewrite <- (next_page_rounds_up H). rewrite lor_page. lia.
Qed.

(** A payload that ends at or before the next page boundary lies, with
    the byte before it, on the page of its offset. *)
Lemma same_page (z l : Z) :
  ~ (PAGE_SIZE | z) -> 0 <= l -> z + l <= nextPageBoundary z ->
  (z - 1) / PAGE_SIZE = z / PAGE_SIZE
  /\ (z + l - 1) / PAGE_SIZE = z / PAGE_SIZE.
Proof.
  intros Hnb Hl Hfit. rewrite (next_page_formula Hnb) in Hfit.
  unfold PAGE_SIZE in *.
  assert (z mod 4096 <> 0) by (intro E; apply Hnb; apply Z.mod_divide; lia).
  pose proof (Z.mod_pos_bound z 4096 ltac:(lia)).
  pose proof (Z.div_mod z 4096 ltac:(lia)).
  split; symmetry.
  - apply Z.div_unique with (r := z mod 4096 - 1); lia.
  - apply Z.div_unique with (r := z mod 4096 + l - 1); lia.
Qed.

Lemma to_loff_t_wrap (z : Z) :
  LOFF_MAX < z <= LOFF_MAX + 2 ^ 64 -> to_loff_t z = z - 2 ^ 64.
Proof.
  unfold to_loff_t, LOFF_MAX. intros H.
  replace (z + 2 ^ 63) with ((z - 2 ^ 63) + 1 * 2 ^ 64) by lia.
  rewrite Z.mod_add by lia. rewrite Z.mod_small; lia.
Qed.

(** What the four tests of the validation establish. *)
Lemma accepts_sound (offset : Z) (data : string) (size : Z) :
  LOFF_MIN <= offset -> offset + strlen data <= LOFF_MAX ->
  accepts offset data size = true ->
  ~ (PAGE_SIZE | offset)
  /\ offset + strlen data <= nextPageBoundary offset
  /\ offset + strlen data <= size.
Proof.
  intros Hlo Hhi H. unfold accepts in H.
  apply andb_prop in H. destruct H as [H Hgrow].
  apply andb_prop in H. destruct H as [H Hout].
  apply andb_prop in H. destruct H as [Hpage Hcross].
  apply negb_true_iff in Hpage. apply negb_true_iff in Hcross.
  apply negb_true_iff in Hgrow.
  unfold end_offset in Hcross, Hgrow.
  rewrite end_offset_exact in Hcross, Hgrow by assumption.
  assert (Hnb : ~ (PAGE_SIZE | offset)).
  { intros Hd. apply page_boundary_test in Hd. congruence. }
  rewrite Z.gtb_ltb in Hcross, Hgrow.
  apply Z.ltb_ge in Hcross. apply Z.ltb_ge in Hgrow.
  split; [exact Hnb |]. split; [| exact Hgrow].
  unfold next_page in Hcross. rewrite (next_page_rounds_up Hnb) in Hcross.
  pose proof (next_page_bounds offset) as Hb.
  rewrite (next_page_rounds_up Hnb) in Hb.
  pose proof (strlen_nonneg data).
  destruct (Z_le_gt_dec (nextPageBoundary offset) LOFF_MAX) as [Hle | Hgt].
  - rewrite to_loff_t_id in Hcross; [exact Hcross | lia].
  - rewrite to_loff_t_wrap in Hcross;
      unfold LOFF_MAX, LOFF_MIN, PAGE_SIZE in *; lia.
Qed.

(** What makes the four tests pass. *)
Lemma accepts_complete (offset : Z) (data : string) (size : Z) :
  ~ (PAGE_SIZE | offset) -> LOFF_MIN <= offset ->
  offset + strlen data <= nextPageBoundary offset <= LOFF_MAX ->
  offset + strlen data <= size ->
  accepts offset data size = true.
Proof.
  intros Hnb Hlo [Hfit Hhi] Hin.
  pose proof (strlen_nonneg data).
  unfold accepts, end_offset, next_page.
  rewrite (page_boundary_test_false Hnb).
  rewrite end_offset_exact by (assumption || lia).
  rewrite next_page_exact by assumption.
  rewrite (gtb_false Hfit), (gtb_false Hin).
  rewrite gtb_false by lia. reflexivity.
Qed.

(** ** The diagnostics of [check_dirty_pipe] *)

Lemma diagnostic_inj (e e' : WriteError) :
  diagnostic e = diagnostic e' -> e = e'.
Proof.
  destruct e, e'; intros H; try reflexivity; vm_compute in H; discriminate.
Qed.

Lemma last_app_nonempty (l tl : list Event) (d : Event) :
  tl <> [] -> last (l ++ tl) d = last tl d.
Proof.
  intros H. induction l as [| a l IH]; [reflexivity |].
  rewrite <- IH. cbn [app last].
  destruct (l ++ tl) eqn:E; [| reflexivity].
  apply app_eq_nil in E. destruct E as [_ E]. contradiction.
Qed.

Lemma diagnostics_none (tr : list Event) :
  Forall (fun e => diagnostics [e] = []) tr -> diagnostics tr = [].
Proof.
  induction 1 as [| e tr He _ IH]; [reflexivity |].
  change (e :: tr) with ([e] ++ tr). unfold diagnostics in *.
  rewrite filter_app, He, IH. reflexivity.
Qed.

Lemma diagnostics_prepared (rd wr : Z) (prep : list Event) :
  Prepared rd wr prep -> diagnostics prep = [].
Proof.
  intros H. apply diagnostics_none.
  eapply prepared_only; [exact H | ..]; intros; reflexivity.
Qed.

Lemma rejected_quiet (path : string) (offset : Z) (data : string)
  (e : WriteError) (pre : list Event) :
  Rejected path offset data e pre ->
  Forall validation_event (pre ++ [diagnostic e]).
Proof.
  intros H. inversion H; subst; repeat constructor.
Qed.

Lemma prepared_writes (rd wr : Z) (prep : list Event) :
  Prepared rd wr prep ->
  forall fd bytes n, In (EWrite fd bytes n) prep -> fd = wr.
Proof.
  intros H fd bytes n Hin.
  assert (Hall : Forall (fun e => match e with
                                  | EWrite fd' _ _ => fd' = wr
                                  | _ => True
                                  end) prep).
  { apply (prepared_forall _ H); try exact I.
    - intros sz. exact I.
    - intros [] He; try contradiction. exact He.
    - intros [] He; try contradiction. exact I. }
  rewrite Forall_forall in Hall. exact (Hall _ Hin).
Qed.

Lemma prepared_head (rd wr : Z) (prep : list Event) :
  Prepared rd wr prep -> In (EPipe 0 rd wr) prep.
Proof.
  intros [sz ws rs _ _]. left. reflexivity.
Qed.

Section ErrorFacts.

Context {W : Type} (os : OS W).

(** A call that returns the error [e] was rejected with [e] by the
    validation, or failed with [e] in the transfer. *)
Lemma returns_error_inv (path : string) (offset : Z) (data : string)
  (p : Proc W) (e : WriteError) :
  returns_error e (check_dirty_pipe os path offset data p) ->
  (exists pre,
      Rejected path offset data e pre
      /\ trace (check_dirty_pipe os path offset data p)
         = pre ++ [diagnostic e])
  \/ (exists fd size rd wr prep tl,
         0 <= fd /\ accepts offset data size = true
         /\ Prepared rd wr prep
         /\ Transfer fd (to_loff_t (offset - 1)) wr data EXIT_FAILURE tl
         /\ last tl EAbort = diagnostic e
         /\ trace (check_dirty_pipe os path offset data p)
            = EOpen path O_RDONLY fd :: EFstat fd 0 size :: prep ++ tl).
Proof.
  intros [Hres Hlast].
  destruct (check_dirty_pipe_phases os path offset data p)
    as [(e' & pre & Hrej & _ & Htr)
       | [(fd & size & r & rd & wr & _ & _ & _ & Hab & _)
         | (fd & size & rd & wr & prep & v & tl
            & Hfd & Hacc & Hprep & Htrans & Hv & Htr)]].
  - left. exists pre. rewrite Htr in Hlast. rewrite last_last in Hlast.
    apply diagnostic_inj in Hlast. subst e'. split; assumption.
  - rewrite Hab in Hres. discriminate.
  - right. rewrite Hv in Hres. injection Hres as ->.
    exists fd, size, rd, wr, prep, tl. repeat split; try assumption.
    rewrite Htr in Hlast.
    change (EOpen path O_RDONLY fd :: EFstat fd 0 size :: prep ++ tl)
      with ([EOpen path O_RDONLY fd; EFstat fd 0 size] ++ prep ++ tl)
      in Hlast.
    rewrite app_assoc in Hlast.
    rewrite last_app_nonempty in Hlast; [exact Hlast |].
    inversion Htrans; discriminate.
Qed.

(** A call whose events contain a splice reached the transfer. *)
Lemma splice_inv (path : string) (offset : Z) (data : string) (p : Proc W)
  (fd pos wr n ret : Z) :
  In (ESplice fd pos wr n ret)
    (trace (check_dirty_pipe os path offset data p)) ->
  exists size rd prep v tl,
    0 <= fd /\ accepts offset data size = true
    /\ Prepared rd wr prep
    /\ Transfer fd (to_loff_t (offset - 1)) wr data v tl
    /\ hd EAbort tl = ESplice fd pos wr n ret
    /\ result (check_dirty_pipe os path offset data p) = Val v
    /\ trace (check_dirty_pipe os path offset data p)
       = EOpen path O_RDONLY fd :: EFstat fd 0 size :: prep ++ tl.
Proof.
  intros Hin.
  destruct (check_dirty_pipe_phases os path offset data p)
    as [(e' & pre & Hrej & _ & Htr)
       | [(fd' & size & r & rd & wr' & _ & _ & _ & _ & Htr)
         | (fd' & size & rd & wr' & prep & v & tl
            & Hfd & Hacc & Hprep & Htrans & Hv & Htr)]];
    rewrite Htr in Hin.
  - pose proof (rejected_quiet Hrej) as Hq.
    rewrite Forall_forall in Hq. destruct (Hq _ Hin).
  - repeat (destruct Hin as [Hin | Hin]; [discriminate |]). destruct Hin.
  - destruct Hin as [Hin | [Hin | Hin]]; try discriminate.
    apply in_app_or in Hin. destruct Hin as [Hin | Hin].
    { pose proof (prepared_no_splice Hprep) as Hns.
      rewrite Forall_forall in Hns. destruct (Hns _ Hin). }
    assert (Heq : hd EAbort tl = ESplice fd pos wr n ret).
    { inversion Htrans; subst; cbn in Hin |- *;
        repeat (destruct Hin as [Hin | Hin];
                [first [ exact Hin | discriminate ] |]);
        destruct Hin. }
    assert (Hfdwr : fd' = fd /\ wr' = wr).
    { inversion Htrans; subst; cbn in Heq; injection Heq; auto. }
    destruct Hfdwr as [-> ->].
    exists size, rd, prep, v, tl. repeat split; assumption.
Qed.

End ErrorFacts.

(** ** [check_dirty_pipe]: what a call reports *)

(** X3.  A call of [check_dirty_pipe] that returns [EXIT_FAILURE] put
    exactly one diagnostic on the error stream, one of the ten of the
    program, as the last thing it did; a call that returns
    [EXIT_SUCCESS], and a call that is aborted, put none. *)
Theorem one_diagnostic_per_failure {W : Type} (os : OS W) (path : string)
  (offset : Z) (data : string) (p : Proc W) :
  match result (check_dirty_pipe os path offset data p) with
  | Val v =>
      (v = EXIT_SUCCESS
       /\ diagnostics (trace (check_dirty_pipe os path offset data p)) = [])
      \/ (v = EXIT_FAILURE
          /\ exists e,
               diagnostics (trace (check_dirty_pipe os path offset data p))
               = [diagnostic e]
               /\ last (trace (check_dirty_pipe os path offset data p)) EAbort
                  = diagnostic e)
  | Aborted =>
      diagnostics (trace (check_dirty_pipe os path offset data p)) = []
  end.
Proof.
  destruct (check_dirty_pipe_phases os path offset data p)
    as [(e & pre & Hrej & Hres & Htr)
       | [(fd & size & r & rd & wr & _ & _ & _ & Hres & Htr)
         | (fd & size & rd & wr & prep & v & tl
            & Hfd & Hacc & Hprep & Htrans & Hres & Htr)]];
    rewrite Hres, Htr.
  - right. split; [reflexivity |]. exists e. split.
    + inversion Hrej; subst; reflexivity.
    + apply last_last.
  - reflexivity.
  - assert (Hd : diagnostics
                   (EOpen path O_RDONLY fd :: EFstat fd 0 size :: prep ++ tl)
                 = diagnostics tl).
    { unfold diagnostics. cbn [filter]. rewrite filter_app.
      fold (diagnostics prep). rewrite (diagnostics_prepared Hprep).
      reflexivity. }
    assert (Hl : last
                   (EOpen path O_RDONLY fd :: EFstat fd 0 size :: prep ++ tl)
                   EAbort
                 = last tl EAbort).
    { change (EOpen path O_RDONLY fd :: EFstat fd 0 size :: prep ++ tl)
        with ([EOpen path O_RDONLY fd; EFstat fd 0 size] ++ prep ++ tl).
      rewrite app_assoc. apply last_app_nonempty.
      inversion Htrans; discriminate. }
    rewrite Hd, Hl.
    inversion Htrans; subst.
    + right. split; [reflexivity |]. exists SpliceFailed. split; reflexivity.
    + right. split; [reflexivity |]. exists ShortSplice. split; reflexivity.
    + right. split; [reflexivity |]. exists WriteFailed. split; reflexivity.
    + right. split; [reflexivity |]. exists ShortWrite. split; reflexivity.
    + left. split; reflexivity.
Qed.

(** X4.  [check_dirty_pipe] opens nothing but [path], and that with
    [O_RDONLY]; it unlinks nothing; and each of its writes goes to the
    producer end of the pipe it obtained in the same call. *)
Theorem check_dirty_pipe_access {W : Type} (os : OS W) (path : string)
  (offset : Z) (data : string) (p : Proc W) :
  Forall (read_only path) (trace (check_dirty_pipe os path offset data p))
  /\ (forall fd bytes n,
         In (EWrite fd bytes n)
           (trace (check_dirty_pipe os path offset data p)) ->
         exists rd,
           In (EPipe 0 rd fd)
             (trace (check_dirty_pipe os path offset data p))).
Proof.
  destruct (check_dirty_pipe_phases os path offset data p)
    as [(e & pre & Hrej & Hres & Htr)
       | [(fd & size & r & rd & wr & _ & _ & _ & Hres & Htr)
         | (fd & size & rd & wr & prep & v & tl
            & Hfd & Hacc & Hprep & Htrans & Hres & Htr)]];
    rewrite Htr.
  - split.
    + inversion Hrej; subst; repeat constructor.
    + intros fd bytes n Hin. pose proof (rejected_quiet Hrej) as Hq.
      rewrite Forall_forall in Hq. destruct (Hq _ Hin).
  - split.
    + repeat constructor.
    + intros fd' bytes n Hin.
      repeat (destruct Hin as [Hin | Hin]; [discriminate |]). destruct Hin.
  - split.
    + apply Forall_cons; [split; reflexivity |].
      apply Forall_cons; [exact I |].
      apply Forall_app. split.
      * eapply prepared_only; [exact Hprep | ..]; intros; exact I.
      * inversion Htrans; subst; repeat constructor.
    + intros fd' bytes n Hin.
      assert (Hwr : fd' = wr).
      { destruct Hin as [Hin | [Hin | Hin]]; try discriminate.
        apply in_app_or in Hin. destruct Hin as [Hin | Hin].
        - exact (prepared_writes Hprep _ _ _ Hin).
        - inversion Htrans; subst; cbn in Hin;
            repeat (destruct Hin as [Hin | Hin];
                    [first [ injection Hin; auto | discriminate ] |]);
            destruct Hin. }
      subst fd'. exists rd. right. right. apply in_or_app. left.
      exact (prepared_head Hprep).
Qed.

(** X5.  A call the validation rejects leaves no other events than the
    [open], the [fstat] and the diagnostic: it obtains no pipe and
    reads, writes and splices nothing. *)
Theorem rejection_is_quiet {W : Type} (os : OS W) (path : string)
  (offset : Z) (data : string) (p : Proc W) (e : WriteError) :
  In e [PageBoundaryOffset; CrossesPageBoundary; OpenFailed; StatFailed;
        OffsetOutOfRange; WouldGrowFile] ->
  returns_error e (check_dirty_pipe os path offset data p) ->
  Forall validation_event (trace (check_dirty_pipe os path offset data p)).
Proof.
  intros He Hret.
  destruct (@returns_error_inv W os path offset data p e Hret)
    as [(pre & Hrej & Htr)
       | (fd & size & rd & wr & prep & tl
          & _ & _ & _ & Htrans & Hlast & _)].
  - rewrite Htr. exact (rejected_quiet Hrej).
  - exfalso.
    inversion Htrans; subst; cbn in Hlast;
      repeat (destruct He as [<- | He]; [vm_compute in Hlast; discriminate |]);
      destruct He.
Qed.

(** A request that starts on a page boundary, on the model. *)
Lemma rejection_is_quiet_witness :
  Forall validation_event
    (trace (check_dirty_pipe linux test_file 4096 "mammy"
              (start with_artifact))).
Proof.
  apply (@rejection_is_quiet _ linux test_file 4096 "mammy"
           (start with_artifact) PageBoundaryOffset).
  - left. reflexivity.
  - split; reflexivity.
Defined.

(** ** [check_dirty_pipe]: what the validation establishes *)

Section AcceptedFacts.

Context {W : Type} (os : OS W).

(** A request the four tests accept, over a file that opens and whose
    size is known, gets to [pipe]. *)
Lemma accepted_run (path : string) (offset : Z) (data : string) (p : Proc W)
  (fd size : Z) (w1 w2 : W) :
  os_open os path O_RDONLY 0 (world p) = (fd, w1) -> 0 <= fd ->
  os_fstat os fd w1 = (0, size, w2) ->
  accepts offset data size = true ->
  exists r rd wr tl,
    trace (check_dirty_pipe os path offset data p)
    = EOpen path O_RDONLY fd :: EFstat fd 0 size :: EPipe r rd wr :: tl.
Proof.
  intros Hopen Hfd Hstat H. unfold accepts in H.
  apply andb_prop in H. destruct H as [H Hgrow].
  apply andb_prop in H. destruct H as [H Hout].
  apply andb_prop in H. destruct H as [Hpage Hcross].
  apply negb_true_iff in Hpage. apply negb_true_iff in Hcross.
  apply negb_true_iff in Hout. apply negb_true_iff in Hgrow.
  destruct (check_dirty_pipe os path offset data p) as [[o p'] tr] eqn:Hrun.
  unfold trace; cbn [snd].
  unfold check_dirty_pipe in Hrun. cbv zeta in Hrun.
  change (to_loff_t (Z.lor offset (PAGE_SIZE - 1) + 1))
    with (next_page offset) in Hrun.
  change (to_loff_t (offset + to_loff_t (strlen data)))
    with (end_offset offset (strlen data)) in Hrun.
  rewrite Hpage, Hcross in Hrun.
  unfold bind at 1 in Hrun. unfold open in Hrun. rewrite Hopen in Hrun.
  replace (fd <? 0) with false in Hrun by (symmetry; apply Z.ltb_ge; exact Hfd).
  unfold bind at 1 in Hrun. unfold fstat in Hrun.
  cbn [world buffer] in Hrun. rewrite Hstat in Hrun.
  cbn [Z.eqb negb] in Hrun. rewrite Hout, Hgrow in Hrun.
  unfold bind at 1 in Hrun.
  destruct (prepare_pipe_run os (mkProc w2 (buffer p)))
    as [(r & rd & wr & p1 & Hr & Hprun)
       | (rd & wr & p1 & prep & Hprun & Hprep)];
    rewrite Hprun in Hrun.
  - injection Hrun as <- <- <-. exists r, rd, wr, [EAbort]. reflexivity.
  - destruct Hprep as [sz ws rs Hws Hrs].
    match type of Hrun with
    | context [bind (splice os ?a ?b ?c ?d) ?k ?q] =>
        destruct (bind (splice os a b c d) k q) as [[o2 p2] t2]
    end.
    injection Hrun as <- <- <-.
    exists 0, rd, wr, (EGetPipeSz wr sz :: (ws ++ rs) ++ t2). reflexivity.
Qed.

End AcceptedFacts.



(** X7.  A call that gets to the splice has a request the validation
    holds for.  For a request whose positions fit the type [loff_t]:
    when the events of a call contain a splice, the offset is off a page
    boundary, the byte before it and the last byte of the payload lie on
    the page of the offset, and the payload ends within the size [fstat]
    gave for the descriptor the splice reads from. *)
Theorem splice_only_when_valid {W : Type} (os : OS W) (path : string)
  (offset : Z) (data : string) (p : Proc W) (fd pos wr n ret : Z) :
  LOFF_MIN <= offset -> offset + strlen data <= LOFF_MAX ->
  In (ESplice fd pos wr n ret)
    (trace (check_dirty_pipe os path offset data p)) ->
  ~ (PAGE_SIZE | offset)
  /\ (offset - 1) / PAGE_SIZE = offset / PAGE_SIZE
  /\ (offset + strlen data - 1) / PAGE_SIZE = offset / PAGE_SIZE
  /\ exists size,
       In (EFstat fd 0 size) (trace (check_dirty_pipe os path offset data p))
       /\ offset + strlen data <= size.
Proof.
  intros Hlo Hhi Hin.
  destruct (@splice_inv W os path offset data p fd pos wr n ret Hin)
    as (size & rd & prep & v & tl & Hfd & Hacc & _ & _ & _ & _ & Htr).
  destruct (accepts_sound _ _ Hlo Hhi Hacc) as (Hnb & Hfit & Hsize).
  destruct (same_page Hnb (strlen_nonneg data) Hfit) as [Hbefore Hlast].
  repeat split; try assumption.
  exists size. split; [| exact Hsize].
  rewrite Htr. right. left. reflexivity.
Qed.

(** The run of the harness over the artifact, on the model. *)
Lemma splice_only_when_valid_witness :
  ~ (PAGE_SIZE | 6)
  /\ (6 - 1) / PAGE_SIZE = 6 / PAGE_SIZE
  /\ (6 + strlen "mammy" - 1) / PAGE_SIZE = 6 / PAGE_SIZE
  /\ exists size,
       In (EFstat 3 0 size)
         (trace (check_dirty_pipe linux test_file 6 "mammy"
                   (start with_artifact)))
       /\ 6 + strlen "mammy" <= size.
Proof.
  apply (@splice_only_when_valid _ linux test_file 6 "mammy"
           (start with_artifact) 3 5 5 1 1).
  - vm_compute. discriminate.
  - vm_compute. discriminate.
  - apply (nth_error_In _ 36). vm_compute. reflexivity.
Defined.



(** X9.  A negative offset is not rejected.  When it is off a page
    boundary and the payload ends at or before the next boundary, over a
    file that opens and whose size is not negative, the call goes on to
    [pipe], and every splice it issues is at the negative position
    [offset - 1]. *)
Theorem negative_offset_accepted {W : Type} (os : OS W) (path : string)
  (offset : Z) (data : string) (p : Proc W) (fd size : Z) (w1 w2 : W) :
  LOFF_MIN <= offset < 0 -> ~ (PAGE_SIZE | offset) ->
  offset + strlen data <= nextPageBoundary offset ->
  os_open os path O_RDONLY 0 (world p) = (fd, w1) -> 0 <= fd ->
  os_fstat os fd w1 = (0, size, w2) -> 0 <= size ->
  (exists r rd wr tl,
      trace (check_dirty_pipe os path offset data p)
      = EOpen path O_RDONLY fd :: EFstat fd 0 size :: EPipe r rd wr :: tl)
  /\ Forall (splice_at (offset - 1))
       (trace (check_dirty_pipe os path offset data p))
  /\ offset - 1 < 0.
Proof.
  intros Hoff Hnb Hfit Hopen Hfd Hstat Hsize.
  assert (Hnext : nextPageBoundary offset <= 0).
  { rewrite (next_page_formula Hnb). unfold PAGE_SIZE in *.
    pose proof (Z.div_mod offset 4096 ltac:(lia)).
    pose proof (Z.mod_pos_bound offset 4096 ltac:(lia)).
    assert (offset / 4096 < 0) by (apply Z.div_lt_upper_bound; lia).
    lia. }
  assert (Hacc : accepts offset data size = true).
  { apply accepts_complete; try assumption; unfold LOFF_MAX; lia. }
  split; [| split; [| lia]].
  - exact (@accepted_run W os path offset data p fd size w1 w2
             Hopen Hfd Hstat Hacc).
  - pose proof (path_splice_at (check_dirty_pipe_path os path offset data p))
      as Hat.
    rewrite to_loff_t_id in Hat; [exact Hat |].
    assert (offset <> LOFF_MIN)
      by (intros ->; apply Hnb; exists (- 2 ^ 51); reflexivity).
    unfold LOFF_MIN, LOFF_MAX in *. lia.
Qed.

(** Five bytes at offset -5, over the artifact on the model. *)
Lemma negative_offset_accepted_witness :
  (exists r rd wr tl,
      trace (check_dirty_pipe linux test_file (-5) "mammy"
               (start with_artifact))
      = EOpen test_file O_RDONLY 3 :: EFstat 3 0 13 :: EPipe r rd wr :: tl)
  /\ Forall (splice_at (-5 - 1))
       (trace (check_dirty_pipe linux test_file (-5) "mammy"
                 (start with_artifact)))
  /\ -5 - 1 < 0.
Proof.
  refine (@negative_offset_accepted _ linux test_file (-5) "mammy"
            (start with_artifact) 3 13 _ _ _ _ _ _ _ _ _).
  - vm_compute. split; [discriminate | reflexivity].
  - apply not_on_boundary. reflexivity.
  - vm_compute. discriminate.
  - reflexivity.
  - lia.
  - reflexivity.
  - lia.
Defined.

(** ** [check_dirty_pipe]: the transfer *)

(** X10.  Once the splice is issued, what it and the write return
    decides the result.  A negative count from [splice] gives the error
    of a failed splice and a count of 0 that of a short splice, without
    a write.  After a positive count the payload is written to the pipe
    end the splice fed: a negative count from [write] gives the error of
    a failed write, a count that, as a [size_t], is below the length of
    the payload that of a short write, and any other count
    [EXIT_SUCCESS]. *)
Theorem transfer_outcome {W : Type} (os : OS W) (path : string)
  (offset : Z) (data : string) (p : Proc W) (fd pos wr len n : Z) :
  In (ESplice fd pos wr len n)
    (trace (check_dirty_pipe os path offset data p)) ->
  (n < 0
   /\ returns_error SpliceFailed (check_dirty_pipe os path offset data p)
   /\ after_splice (trace (check_dirty_pipe os path offset data p))
      = [diagnostic SpliceFailed])
  \/ (n = 0
      /\ returns_error ShortSplice (check_dirty_pipe os path offset data p)
      /\ after_splice (trace (check_dirty_pipe os path offset data p))
         = [diagnostic ShortSplice])
  \/ (0 < n
      /\ exists m,
           hd EAbort
             (after_splice (trace (check_dirty_pipe os path offset data p)))
           = EWrite wr (cstr data) m
           /\ ((m < 0
                /\ returns_error WriteFailed
                     (check_dirty_pipe os path offset data p))
               \/ (0 <= m /\ to_size_t m < strlen data
                   /\ returns_error ShortWrite
                        (check_dirty_pipe os path offset data p))
               \/ (0 <= m /\ strlen data <= to_size_t m
                   /\ result (check_dirty_pipe os path offset data p)
                      = Val EXIT_SUCCESS))).
Proof.
  intros Hin.
  destruct (@splice_inv W os path offset data p fd pos wr len n Hin)
    as (size & rd & prep & v & tl & Hfd & Hacc & Hprep & Htrans & Hhd
        & Hres & Htr).
  assert (Hafter : after_splice
                     (trace (check_dirty_pipe os path offset data p))
                   = after_splice tl).
  { rewrite Htr.
    change (EOpen path O_RDONLY fd :: EFstat fd 0 size :: prep ++ tl)
      with ([EOpen path O_RDONLY fd; EFstat fd 0 size] ++ prep ++ tl).
    rewrite app_assoc. apply after_splice_skip.
    apply Forall_app. split; [repeat constructor |].
    exact (prepared_no_splice Hprep). }
  assert (Hlast : last (trace (check_dirty_pipe os path offset data p)) EAbort
                  = last tl EAbort).
  { rewrite Htr.
    change (EOpen path O_RDONLY fd :: EFstat fd 0 size :: prep ++ tl)
      with ([EOpen path O_RDONLY fd; EFstat fd 0 size] ++ prep ++ tl).
    rewrite app_assoc. apply last_app_nonempty.
    inversion Htrans; discriminate. }
  unfold returns_error. rewrite Hafter, Hlast, Hres.
  inversion Htrans as [n' Hn | | n' m Hn Hm | n' m Hn Hm Hshort
                      | n' m Hn Hm Hfull]; subst; cbn in Hhd;
    injection Hhd; intros; subst.
  - left. repeat split. exact Hn.
  - right. left. repeat split.
  - right. right. split; [exact Hn |]. exists m. split; [reflexivity |].
    left. repeat split. exact Hm.
  - right. right. split; [exact Hn |]. exists m. split; [reflexivity |].
    right. left. repeat split; assumption.
  - right. right. split; [exact Hn |]. exists m. split; [reflexivity |].
    right. right. repeat split; assumption.
Qed.

(** On the model with writes that store three bytes only, the payload
    of five is a short write. *)
Lemma transfer_outcome_witness :
  returns_error ShortWrite
    (check_dirty_pipe (writes_short 3 linux) test_file 6 "mammy"
       (start with_artifact)).
Proof.
  destruct (@transfer_outcome _ (writes_short 3 linux) test_file 6 "mammy"
              (start with_artifact) 3 5 5 1 1)
    as [(Hn & _) | [(Hn & _) | (_ & m & _ & [(_ & H) | [(_ & _ & H) | H]])]].
  - apply (nth_error_In _ 36). vm_compute. reflexivity.
  - exfalso. lia.
  - exfalso. lia.
  - exfalso. destruct H as [_ H]. vm_compute in H. discriminate.
  - exact H.
  - exfalso. destruct H as (_ & _ & H). vm_compute in H. discriminate.
Defined.

(** X11.  [check_dirty_pipe] returns [EXIT_SUCCESS] only at the end of
    the whole sequence.  In a process whose scratch buffer has its 4096
    bytes: [open] and [fstat] succeeded; the four tests of the
    validation passed; [pipe] succeeded and, for the capacity [c] that
    [fcntl] returned, the writes to the pipe offered whole buffers of
    4096 bytes and then the rest of [c], read as an [unsigned], and the
    reads asked for the same sizes; the splice of one byte at
    [offset - 1] returned a positive count; and the write of the payload
    returned a count that is not negative and, as a [size_t], not below
    the length of the payload.  These are all the events of the call,
    in this order. *)
Theorem success_needs_full_transfer {W : Type} (os : OS W) (path : string)
  (offset : Z) (data : string) (p : Proc W) :
  len (buffer p) = sizeof_buffer ->
  result (check_dirty_pipe os path offset data p) = Val EXIT_SUCCESS ->
  exists fd size rd wr c ws rs n m,
    trace (check_dirty_pipe os path offset data p)
    = EOpen path O_RDONLY fd :: EFstat fd 0 size
        :: (EPipe 0 rd wr :: EGetPipeSz wr c :: ws ++ rs)
        ++ [ESplice fd (to_loff_t (offset - 1)) wr 1 n;
            EWrite wr (cstr data) m]
    /\ 0 <= fd /\ accepts offset data size = true
    /\ Forall (pipe_write wr) ws /\ offered ws = chunks (to_unsigned c)
    /\ Forall (pipe_read rd) rs /\ requested rs = chunks (to_unsigned c)
    /\ 0 < n /\ 0 <= m /\ strlen data <= to_size_t m.
Proof.
  intros Hbuf Hok.
  destruct (check_dirty_pipe os path offset data p) as [[o p'] tr] eqn:H.
  unfold result in Hok. unfold trace. cbn [fst snd] in *. subst o.
  unfold check_dirty_pipe in H. cbv zeta in H.
  change (to_loff_t (Z.lor offset (PAGE_SIZE - 1) + 1))
    with (next_page offset) in H.
  change (to_loff_t (offset + to_loff_t (strlen data)))
    with (end_offset offset (strlen data)) in H.
  destruct (Z.rem offset PAGE_SIZE =? 0) eqn:Epage; [discriminate H |].
  destruct (end_offset offset (strlen data) >? next_page offset) eqn:Ecross;
    [discriminate H |].
  unfold bind at 1 in H. unfold open in H.
  destruct (os_open os path O_RDONLY 0 (world p)) as [fd w1].
  destruct (fd <? 0) eqn:Efd; [discriminate H |].
  apply Z.ltb_ge in Efd.
  unfold bind at 1 in H. unfold fstat in H. cbn [world buffer] in H.
  destruct (os_fstat os fd w1) as [[r size] w2].
  destruct (r =? 0) eqn:Er; cbn [negb] in H; [| discriminate H].
  apply Z.eqb_eq in Er. subst r.
  destruct (offset >? size) eqn:Eout; [discriminate H |].
  destruct (end_offset offset (strlen data) >? size) eqn:Egrow;
    [discriminate H |].
  assert (Hacc : accepts offset data size = true).
  { unfold accepts. rewrite Epage, Ecross, Eout, Egrow. reflexivity. }
  unfold bind at 1 in H.
  destruct (@prepare_pipe_run_chunks W os (mkProc w2 (buffer p)) Hbuf)
    as [(r & rd & wr & p1 & Hr & Hrun)
       | (rd & wr & c & p1 & ws & rs & Hrun & Hws & Hoff & Hrs & Hreq)];
    rewrite Hrun in H; [discriminate H |].
  unfold bind at 1 in H. unfold splice in H. cbn [fst snd] in H.
  destruct (os_splice os fd (to_loff_t (offset - 1)) wr 1 (world p1))
    as [n w3].
  destruct (n <? 0) eqn:En; [discriminate H |].
  apply Z.ltb_ge in En.
  destruct (n =? 0) eqn:En0; [discriminate H |].
  apply Z.eqb_neq in En0.
  unfold bind at 1 in H. unfold write in H. cbn [world buffer] in H.
  destruct (os_write os wr (cstr data) w3) as [m w4].
  destruct (m <? 0) eqn:Em; [discriminate H |].
  apply Z.ltb_ge in Em.
  destruct (to_size_t m <? strlen data) eqn:Eshort; [discriminate H |].
  apply Z.ltb_ge in Eshort.
  injection H as _ <-.
  exists fd, size, rd, wr, c, ws, rs, n, m.
  split; [reflexivity |].
  repeat split; try assumption. lia.
Qed.

(** The run of the harness over the artifact, on the model. *)
Lemma success_needs_full_transfer_witness :
  exists fd size rd wr c ws rs n m,
    trace (check_dirty_pipe linux test_file 6 "mammy" (start with_artifact))
    = EOpen test_file O_RDONLY fd :: EFstat fd 0 size
        :: (EPipe 0 rd wr :: EGetPipeSz wr c :: ws ++ rs)
        ++ [ESplice fd (to_loff_t (6 - 1)) wr 1 n;
            EWrite wr (cstr "mammy") m]
    /\ 0 <= fd /\ accepts 6 "mammy" size = true
    /\ Forall (pipe_write wr) ws /\ offered ws = chunks (to_unsigned c)
    /\ Forall (pipe_read rd) rs /\ requested rs = chunks (to_unsigned c)
    /\ 0 < n /\ 0 <= m /\ strlen "mammy" <= to_size_t m.
Proof.
  apply (@success_needs_full_transfer _ linux test_file 6 "mammy"
           (start with_artifact)).
  - reflexivity.
  - vm_compute. reflexivity.
Defined.

(** X12.  With an empty payload only the offset is validated and the
    write cannot be short.  For an offset that fits the type [loff_t],
    with the next page boundary: a call with a payload of length 0 never
    reports a write across a page boundary, a file that would grow, or a
    short write. *)
Theorem empty_payload {W : Type} (os : OS W) (path : string)
  (offset : Z) (data : string) (p : Proc W) :
  strlen data = 0 ->
  LOFF_MIN <= offset -> nextPageBoundary offset <= LOFF_MAX ->
  ~ returns_error CrossesPageBoundary (check_dirty_pipe os path offset data p)
  /\ ~ returns_error WouldGrowFile (check_dirty_pipe os path offset data p)
  /\ ~ returns_error ShortWrite (check_dirty_pipe os path offset data p).
Proof.
  intros Hlen Hlo Hnext.
  assert (Hend : end_offset offset (strlen data) = offset).
  { rewrite Hlen. unfold end_offset. change (to_loff_t 0) with 0.
    rewrite Z.add_0_r. apply to_loff_t_id.
    pose proof (next_page_bounds offset) as Hb.
    destruct (Z.eq_dec (Z.rem offset PAGE_SIZE) 0) as [E | E].
    - assert (Hd : (PAGE_SIZE | offset))
        by (apply page_boundary_test; apply Z.eqb_eq; exact E).
      destruct Hd as [q Hq]. unfold nextPageBoundary, PAGE_SIZE in *.
      subst offset.
      replace (q * 4096 + (4096 - 1)) with (4095 + q * 4096) in Hnext by lia.
      rewrite Z.div_add in Hnext by lia.
      change (4095 / 4096) with 0 in Hnext. lia.
    - assert (Hnb : ~ (PAGE_SIZE | offset)).
      { intros Hd. apply page_boundary_test in Hd.
        apply Z.eqb_eq in Hd. contradiction. }
      rewrite (next_page_rounds_up Hnb) in Hb. lia. }
  assert (Hnp : Z.rem offset PAGE_SIZE <> 0 -> offset < next_page offset).
  { intros E.
    assert (Hnb : ~ (PAGE_SIZE | offset)).
    { intros Hd. apply page_boundary_test in Hd.
      apply Z.eqb_eq in Hd. contradiction. }
    unfold next_page. rewrite (next_page_exact Hnb Hlo Hnext).
    pose proof (next_page_bounds offset) as Hb.
    rewrite (next_page_rounds_up Hnb) in Hb. lia. }
  split; [| split]; intros Hret;
    destruct (@returns_error_inv W os path offset data p _ Hret)
      as [(pre & Hrej & _)
         | (fd & size & rd & wr & prep & tl
            & _ & _ & _ & Htrans & Hlast & _)].
  - inversion Hrej as [| Hrem Hcross | | | |]. rewrite Hend in Hcross.
    specialize (Hnp Hrem). lia.
  - inversion Htrans; subst; vm_compute in Hlast; discriminate.
  - inversion Hrej as [| | | | | fd size Hrem Hfit Hfd Hle Hgrow].
    rewrite Hend in Hgrow. lia.
  - inversion Htrans; subst; vm_compute in Hlast; discriminate.
  - inversion Hrej.
  - inversion Htrans as [| | | n m Hn Hm Hshort |]; subst;
      try (vm_compute in Hlast; discriminate).
    rewrite Hlen in Hshort. unfold to_size_t in Hshort.
    pose proof (Z.mod_pos_bound m (2 ^ 64) ltac:(lia)). lia.
Qed.

(** The empty string at offset 6. *)
Lemma empty_payload_witness :
  ~ returns_error CrossesPageBoundary
      (check_dirty_pipe linux test_file 6 "" (start with_artifact))
  /\ ~ returns_error WouldGrowFile
         (check_dirty_pipe linux test_file 6 "" (start with_artifact))
  /\ ~ returns_error ShortWrite
         (check_dirty_pipe linux test_file 6 "" (start with_artifact)).
Proof.
  apply (@empty_payload _ linux test_file 6 "" (start with_artifact)).
  - reflexivity.
  - vm_compute. discriminate.
  - vm_compute. discriminate.
Defined.

(** ** [create_test_file], for every system *)

Section CreateFacts.

Context {W : Type} (os : OS W).

(** The three ways a call of [create_test_file] ends. *)
Lemma create_test_file_cases (path : string) (p : Proc W) :
  (exists fd,
      fd < 0
      /\ result (create_test_file os path p) = Val EXIT_FAILURE
      /\ trace (create_test_file os path p)
         = [EOpen path (Z.lor O_CREAT O_WRONLY) fd;
            EPerror "testfile open failed"])
  \/ (exists fd n,
         0 <= fd /\ n < 0
         /\ result (create_test_file os path p) = Val EXIT_FAILURE
         /\ trace (create_test_file os path p)
            = [EOpen path (Z.lor O_CREAT O_WRONLY) fd;
               EWrite fd (cstr test_string) n;
               EPerror "testfile write failed"])
  \/ (exists fd n,
         0 <= fd /\ 0 <= n
         /\ result (create_test_file os path p) = Val 0
         /\ trace (create_test_file os path p)
            = [EOpen path (Z.lor O_CREAT O_WRONLY) fd;
               EWrite fd (cstr test_string) n; EClose fd]).
Proof.
  destruct (create_test_file os path p) as [[o pe] tr] eqn:H.
  unfold result, trace; cbn [fst snd].
  unfold create_test_file in H.
  unfold bind at 1 in H. unfold open in H.
  destruct (os_open os path (Z.lor O_CREAT O_WRONLY) 292 (world p)) as [fd w1].
  destruct (fd <? 0) eqn:Efd.
  { apply Z.ltb_lt in Efd. cbn in H. injection H as <- <- <-.
    left. exists fd. repeat split. exact Efd. }
  apply Z.ltb_ge in Efd.
  unfold bind at 1 in H. unfold write in H. cbn [world buffer] in H.
  destruct (os_write os fd (cstr test_string) w1) as [n w2].
  destruct (n <? 0) eqn:En; cbn in H; injection H as <- <- <-; right.
  - apply Z.ltb_lt in En. left. exists fd, n. repeat split; assumption.
  - apply Z.ltb_ge in En. right. exists fd, n. repeat split; assumption.
Qed.

End CreateFacts.

(** X13.  [create_test_file] tests what [write] returns for its sign
    only.  It returns 0, after closing the descriptor, whenever [open]
    and [write] return values that are not negative, also when [write]
    stored fewer than the 13 bytes of the test string or none; it
    returns [EXIT_FAILURE] after one message on the error stream when
    [open] fails, without a write, and when [write] fails. *)
Theorem create_test_file_outcome {W : Type} (os : OS W) (path : string)
  (p : Proc W) :
  (result (create_test_file os path p) = Val 0
   /\ exists fd n,
        0 <= fd /\ 0 <= n
        /\ trace (create_test_file os path p)
           = [EOpen path (Z.lor O_CREAT O_WRONLY) fd;
              EWrite fd (cstr test_string) n; EClose fd])
  \/ (result (create_test_file os path p) = Val EXIT_FAILURE
      /\ ((exists fd,
              fd < 0
              /\ trace (create_test_file os path p)
                 = [EOpen path (Z.lor O_CREAT O_WRONLY) fd;
                    EPerror "testfile open failed"])
          \/ (exists fd n,
                 0 <= fd /\ n < 0
                 /\ trace (create_test_file os path p)
                    = [EOpen path (Z.lor O_CREAT O_WRONLY) fd;
                       EWrite fd (cstr test_string) n;
                       EPerror "testfile write failed"]))).
Proof.
  destruct (create_test_file_cases os path p)
    as [(fd & Hfd & Hres & Htr)
       | [(fd & n & Hfd & Hn & Hres & Htr)
         | (fd & n & Hfd & Hn & Hres & Htr)]].
  - right. split; [exact Hres |]. left. exists fd. split; assumption.
  - right. split; [exact Hres |]. right. exists fd, n. repeat split; assumption.
  - left. split; [exact Hres |]. exists fd, n. repeat split; assumption.
Qed.

(** X14.  [create_test_file] leaves the descriptor it obtained open
    exactly when [write] fails: on that path it returns without
    [close]. *)
Theorem create_test_file_leaks_on_write_failure {W : Type} (os : OS W)
  (path : string) (p : Proc W) :
  releases_all (trace (create_test_file os path p)) = false
  <-> exists fd bytes n,
        n < 0 /\ In (EWrite fd bytes n) (trace (create_test_file os path p)).
Proof.
  destruct (create_test_file_cases os path p)
    as [(fd & Hfd & _ & Htr)
       | [(fd & n & Hfd & Hn & _ & Htr)
         | (fd & n & Hfd & Hn & _ & Htr)]];
    rewrite Htr; unfold releases_all; cbn [obtained flat_map app].
  - replace (fd <? 0) with true by (symmetry; apply Z.ltb_lt; exact Hfd).
    cbn. split; [discriminate |].
    intros (fd' & bytes & n & _ & Hin).
    repeat (destruct Hin as [Hin | Hin]; [discriminate |]). destruct Hin.
  - replace (fd <? 0) with false by (symmetry; apply Z.ltb_ge; exact Hfd).
    cbn. split; [| reflexivity].
    intros _. exists fd, (cstr test_string), n.
    split; [exact Hn |]. right. left. reflexivity.
  - replace (fd <? 0) with false by (symmetry; apply Z.ltb_ge; exact Hfd).
    cbn. rewrite Z.eqb_refl. cbn. split; [discriminate |].
    intros (fd' & bytes & n' & Hn' & Hin). exfalso.
    destruct Hin as [Hin | [Hin | [Hin | []]]]; try discriminate.
    injection Hin as _ _ <-. lia.
Qed.

(** ** [check_file_content], for every system *)

(** X15.  [check_file_content] closes the descriptor it opens on every
    path, also when the read fails; it opens nothing but [path], and
    that with [O_RDONLY]; and it writes, splices and unlinks nothing. *)
Theorem check_file_content_releases {W : Type} (os : OS W) (path : string)
  (p : Proc W) :
  releases_all (trace (check_file_content os path p)) = true
  /\ Forall (read_only path) (trace (check_file_content os path p))
  /\ Forall no_transfer (trace (check_file_content os path p)).
Proof.
  destruct (@check_file_content_run W os path p)
    as [(fd & p' & Hfd & Hrun) | (fd & n & content & p' & Hfd & Hn & Hrun)];
    rewrite Hrun; unfold trace, releases_all;
    cbn [snd obtained flat_map app].
  - replace (fd <? 0) with true by (symmetry; apply Z.ltb_lt; exact Hfd).
    repeat split; repeat constructor.
  - replace (fd <? 0) with false by (symmetry; apply Z.ltb_ge; exact Hfd).
    cbn. rewrite Z.eqb_refl. repeat split; repeat constructor.
Qed.

(** X16.  What [check_file_content] returns: -1 exactly when [open]
    fails; 0 exactly when the read of up to 255 bytes delivers the 13
    bytes of the test string and nothing else; and 1 for any other
    content, for a longer or a shorter one, and for a read that
    fails. *)
Theorem check_file_content_result {W : Type} (os : OS W) (path : string)
  (p : Proc W) :
  (result (check_file_content os path p) = Val (-1)
   /\ exists fd,
        fd < 0
        /\ trace (check_file_content os path p)
           = [EOpen path O_RDONLY fd; EPerror "testfile read failed"])
  \/ (result (check_file_content os path p) = Val 0
      /\ exists fd,
           0 <= fd
           /\ trace (check_file_content os path p)
              = [EOpen path O_RDONLY fd;
                 ERead fd 255 13 (cstr test_string); EClose fd])
  \/ (result (check_file_content os path p) = Val 1
      /\ exists fd n content,
           0 <= fd /\ content <> cstr test_string
           /\ (n = len content \/ (n = -1 /\ content = []))
           /\ trace (check_file_content os path p)
              = [EOpen path O_RDONLY fd; ERead fd 255 n content; EClose fd]).
Proof.
  destruct (@check_file_content_run W os path p)
    as [(fd & p' & Hfd & Hrun) | (fd & n & content & p' & Hfd & Hn & Hrun)];
    rewrite Hrun; unfold result, trace; cbn [fst snd].
  - left. split; [reflexivity |]. exists fd. split; [exact Hfd | reflexivity].
  - right.
    destruct (negb (n =? 13)
              || negb (strncmp (cstr test_string) content 13 =? 0)) eqn:E.
    + right. split; [reflexivity |]. exists fd, n, content.
      repeat split; try assumption.
      intros ->. destruct Hn as [-> | [_ Hnil]]; [| discriminate].
      vm_compute in E. discriminate.
    + left. split; [reflexivity |]. exists fd. split; [exact Hfd |].
      apply orb_false_elim in E. destruct E as [E13 Ecmp].
      apply negb_false_iff in E13. apply negb_false_iff in Ecmp.
      apply Z.eqb_eq in E13. apply Z.eqb_eq in Ecmp.
      destruct Hn as [Hn | [Hn _]]; [| lia].
      assert (Hlen : List.length content = 13%nat)
        by (unfold len in Hn; lia).
      destruct (@strncmp_zero (cstr test_string) content) as [Hz _].
      * rewrite Hlen. reflexivity.
      * repeat constructor; discriminate.
      * rewrite (Hz Ecmp), E13. reflexivity.
Qed.

(** ** [main], for every system *)

Lemma created_no_pipe (path : string) (tr : list Event) :
  Created path tr -> Forall pipe_granted tr.
Proof.
  intros H. inversion H; subst; repeat constructor.
Qed.

(** A call of [check_dirty_pipe] that returns was granted its pipe. *)
Lemma path_val_granted (path : string) (offset : Z) (data : string)
  (v : Z) (tr : list Event) :
  Path path offset data (Val v) tr -> Forall pipe_granted tr.
Proof.
  intros H.
  inversion H; subst;
    repeat (apply Forall_cons; [exact I |]);
    try apply Forall_nil;
    (apply Forall_app; split;
     [ eapply prepared_forall;
       [eassumption | reflexivity | intros; exact I | |];
       intros [] He; try contradiction; exact I
     | repeat constructor ]).
Qed.

Lemma path_aborted_inv (path : string) (offset : Z) (data : string)
  (tr : list Event) :
  Path path offset data Aborted tr ->
  exists r rd wr, r <> 0 /\ In (EPipe r rd wr) tr /\ Forall no_unlink tr.
Proof.
  intros H. inversion H; subst. exists r, rd, wr.
  split; [assumption |]. split; [| repeat constructor].
  right. right. left. reflexivity.
Qed.

Lemma last_read_app (pre : list Event) (fd count n : Z) (content : list ascii)
  (tl : list Event) :
  Forall (fun e => match e with ERead _ _ _ _ => False | _ => True end) tl ->
  last_read (pre ++ ERead fd count n content :: tl)
  = if n <? 0 then None else Some content.
Proof.
  intros Htl. unfold last_read. rewrite fold_left_app. cbn [fold_left].
  generalize (if n <? 0 then None else Some content).
  induction Htl as [| e tl He _ IH]; intros acc; [reflexivity |].
  cbn [fold_left]. destruct e; try apply IH. contradiction.
Qed.

Section MainFacts.

Context {W : Type} (os : OS W).

(** The events of [main] are those of [create_test_file], then those of
    the call of [check_dirty_pipe], then those of the read-back. *)
Lemma main_trace (argc : Z) (argv : list string) (p : Proc W) :
  exists t1 p1 rest,
    Created test_file t1
    /\ trace (main os argc argv p)
       = t1 ++ trace (check_dirty_pipe os test_file 6 "mammy" p1) ++ rest.
Proof.
  destruct (main os argc argv p) as [[o pe] tr] eqn:H.
  unfold trace at 1; cbn [snd].
  unfold main in H. unfold bind at 1 in H.
  destruct (@create_test_file_run W os test_file p)
    as (v1 & p1 & t1 & H1 & Hv1 & Hc).
  rewrite H1 in H.
  replace (v1 <? 0) with false in H by (symmetry; apply Z.ltb_ge; exact Hv1).
  unfold bind at 1 in H.
  pose proof (@check_dirty_pipe_nonneg W os test_file 6 "mammy" p1) as Hnn.
  exists t1, p1.
  destruct (check_dirty_pipe os test_file 6 "mammy" p1) as [[o2 p2] t2].
  unfold result in Hnn; cbn [fst] in Hnn. unfold trace; cbn [snd].
  destruct o2 as [v2 |].
  2:{ injection H as <- <- <-. exists []. split; [exact Hc |].
      rewrite app_nil_r. reflexivity. }
  replace (v2 <? 0) with false in H
    by (symmetry; apply Z.ltb_ge; apply Hnn; reflexivity).
  cbv beta iota in H.
  match type of H with
  | context [bind (check_file_content os test_file) ?k ?q] =>
      destruct (bind (check_file_content os test_file) k q) as [[o3 p3] t3]
  end.
  injection H as <- <- <-. exists t3. split; [exact Hc | reflexivity].
Qed.

End MainFacts.

(** X17.  The exit status of [main] and its standard output go
    together.  A run that exits with status 0 printed exactly one line,
    [You are safe] or [VULNERABLE!]; a run that exits with
    [EXIT_FAILURE], and a run that is aborted, printed nothing; and
    there is no other exit status. *)
Theorem main_exit_and_verdict {W : Type} (os : OS W) (argc : Z)
  (argv : list string) (p : Proc W) :
  (result (main os argc argv p) = Val 0
   /\ (stdout (trace (main os argc argv p)) = [("You are safe" ++ LF)%string]
       \/ stdout (trace (main os argc argv p))
          = [("VULNERABLE!" ++ LF)%string]))
  \/ (result (main os argc argv p) = Val EXIT_FAILURE
      /\ stdout (trace (main os argc argv p)) = [])
  \/ (result (main os argc argv p) = Aborted
      /\ stdout (trace (main os argc argv p)) = []).
Proof.
  pose proof (main_harness os argc argv p) as H.
  destruct (main os argc argv p) as [[o pe] tr].
  unfold result, trace in *; cbn [fst snd] in *.
  inversion H as [t1 t2 Hc Hp | t1 v t2 fd Hc Hp Hfd
                 | t1 v t2 fd n content Hc Hp Hfd Hn]; subst.
  - right. right. split; [reflexivity |].
    rewrite <- (app_nil_r t2). rewrite (stdout_harness _ Hc Hp). reflexivity.
  - right. left. split; [reflexivity |].
    rewrite (stdout_harness _ Hc Hp). reflexivity.
  - left. split; [reflexivity |].
    rewrite (stdout_harness _ Hc Hp). cbn. unfold verdict_line.
    destruct (negb (n =? 13) || _); [right | left]; reflexivity.
Qed.

(** X18.  [main] unlinks the artifact once, as the last thing it does,
    in the runs that exit with status 0, and in no other run. *)
Theorem main_unlinks_last {W : Type} (os : OS W) (argc : Z)
  (argv : list string) (p : Proc W) :
  (result (main os argc argv p) = Val 0 ->
   exists pre,
     trace (main os argc argv p) = pre ++ [EUnlink test_file]
     /\ Forall no_unlink pre)
  /\ (result (main os argc argv p) <> Val 0 ->
      Forall no_unlink (trace (main os argc argv p))).
Proof.
  pose proof (main_harness os argc argv p) as H.
  destruct (main os argc argv p) as [[o pe] tr].
  unfold result, trace in *; cbn [fst snd] in *.
  inversion H as [t1 t2 Hc Hp | t1 v t2 fd Hc Hp Hfd
                 | t1 v t2 fd n content Hc Hp Hfd Hn]; subst;
    pose proof (created_no_unlink Hc) as H1;
    pose proof (path_no_unlink Hp) as H2.
  - split; [discriminate |]. intros _. apply Forall_app. split; assumption.
  - split; [discriminate |]. intros _.
    rewrite !Forall_app. repeat split; try assumption. repeat constructor.
  - split; [| intros Hne; exfalso; apply Hne; reflexivity].
    intros _.
    exists (t1 ++ t2 ++ [EOpen test_file O_RDONLY fd; ERead fd 255 n content;
                         EClose fd; EStdout (verdict_line n content)]).
    split.
    + rewrite <- !app_assoc. reflexivity.
    + rewrite !Forall_app. repeat split; try assumption. repeat constructor.
Qed.

(** X19.  [main] is aborted exactly when [pipe] fails: in every other
    run the only [pipe] call succeeded. *)
Theorem main_aborts_iff_pipe_fails {W : Type} (os : OS W) (argc : Z)
  (argv : list string) (p : Proc W) :
  result (main os argc argv p) = Aborted
  <-> exists r rd wr,
        r <> 0 /\ In (EPipe r rd wr) (trace (main os argc argv p)).
Proof.
  pose proof (main_harness os argc argv p) as H.
  destruct (main os argc argv p) as [[o pe] tr].
  unfold result, trace in *; cbn [fst snd] in *.
  assert (Hgranted : forall t, Forall pipe_granted t ->
                               forall r rd wr, In (EPipe r rd wr) t -> r = 0).
  { intros t Ht r rd wr Hin. rewrite Forall_forall in Ht.
    exact (Ht _ Hin). }
  inversion H as [t1 t2 Hc Hp | t1 v t2 fd Hc Hp Hfd
                 | t1 v t2 fd n content Hc Hp Hfd Hn]; subst.
  - split; [intros _ | reflexivity].
    destruct (path_aborted_inv Hp) as (r & rd & wr & Hr & Hin & _).
    exists r, rd, wr. split; [exact Hr |]. apply in_or_app. right. exact Hin.
  - split; [discriminate |]. intros (r & rd & wr & Hr & Hin). exfalso.
    apply Hr. refine (Hgranted _ _ _ _ _ Hin).
    apply Forall_app. split; [exact (created_no_pipe Hc) |].
    apply Forall_app. split; [exact (path_val_granted Hp) |].
    repeat constructor.
  - split; [discriminate |]. intros (r & rd & wr & Hr & Hin). exfalso.
    apply Hr. refine (Hgranted _ _ _ _ _ Hin).
    apply Forall_app. split; [exact (created_no_pipe Hc) |].
    apply Forall_app. split; [exact (path_val_granted Hp) |].
    repeat constructor.
Qed.

(** X20.  A read-back that fails is reported as a vulnerable kernel.
    When a run of [main] exits with status 0 and its last read, the one
    of [check_file_content], failed, the line it printed is
    [VULNERABLE!]. *)
Theorem read_failure_reported_vulnerable {W : Type} (os : OS W) (argc : Z)
  (argv : list string) (p : Proc W) :
  result (main os argc argv p) = Val 0 ->
  last_read (trace (main os argc argv p)) = None ->
  stdout (trace (main os argc argv p)) = [("VULNERABLE!" ++ LF)%string].
Proof.
  pose proof (main_harness os argc argv p) as H.
  destruct (main os argc argv p) as [[o pe] tr].
  unfold result, trace in *; cbn [fst snd] in *.
  intros Hres Hlast.
  inversion H as [t1 t2 Hc Hp | t1 v t2 fd Hc Hp Hfd
                 | t1 v t2 fd n content Hc Hp Hfd Hn]; subst;
    try discriminate.
  rewrite (stdout_harness _ Hc Hp). cbn.
  replace (t1 ++ t2 ++ [EOpen test_file O_RDONLY fd; ERead fd 255 n content;
                        EClose fd; EStdout (verdict_line n content);
                        EUnlink test_file])
    with ((t1 ++ t2 ++ [EOpen test_file O_RDONLY fd])
            ++ ERead fd 255 n content
            :: [EClose fd; EStdout (verdict_line n content);
                EUnlink test_file]) in Hlast
    by (rewrite <- !app_assoc; reflexivity).
  rewrite last_read_app in Hlast by (repeat constructor).
  destruct (n <? 0) eqn:En; [| discriminate].
  apply Z.ltb_lt in En.
  destruct Hn as [Hn | [-> ->]]; [unfold len in Hn; lia |].
  reflexivity.
Qed.

(** On the model with a failing [read]. *)
Lemma read_failure_reported_vulnerable_witness :
  stdout (trace (main (read_fails linux) 1 ["ditty"%string] (start fresh)))
  = [("VULNERABLE!" ++ LF)%string].
Proof.
  apply (@read_failure_reported_vulnerable _ (read_fails linux) 1
           ["ditty"%string] (start fresh)).
  - vm_compute. reflexivity.
  - vm_compute. reflexivity.
Defined.

(** X21.  What [create_test_file] returns never stops [main], and the
    call of [check_dirty_pipe] it makes always passes the two page
    checks: every run of [main] opens the artifact read-only for the
    probe right after the events of the creation, whether the creation
    failed or not. *)
Theorem main_always_probes {W : Type} (os : OS W) (argc : Z)
  (argv : list string) (p : Proc W) :
  exists t1 fd rest,
    Created test_file t1
    /\ trace (main os argc argv p)
       = t1 ++ EOpen test_file O_RDONLY fd :: rest.
Proof.
  destruct (@main_trace W os argc argv p) as (t1 & p1 & rest & Hc & Htr).
  exists t1. rewrite Htr.
  destruct (check_dirty_pipe_phases os test_file 6 "mammy" p1)
    as [(e & pre & Hrej & _ & Ht2)
       | [(fd & size & r & rd & wr & _ & _ & _ & _ & Ht2)
         | (fd & size & rd & wr & prep & v & tl
            & _ & _ & _ & _ & _ & Ht2)]];
    rewrite Ht2.
  - inversion Hrej as [Hrem | Hrem Hcross | fd | fd r size | fd size
                      | fd size]; subst.
    + vm_compute in Hrem. discriminate.
    + vm_compute in Hcross. discriminate.
    + exists fd. eexists. split; [exact Hc | reflexivity].
    + exists fd. eexists. split; [exact Hc | reflexivity].
    + exists fd. eexists. split; [exact Hc | reflexivity].
    + exists fd. eexists. split; [exact Hc | reflexivity].
  - exists fd. eexists. split; [exact Hc | reflexivity].
  - exists fd. eexists. split; [exact Hc | reflexivity].
Qed.

(** ** What [prepare_pipe] puts into the pipe *)

Section FillFacts.

Context {W : Type} (os : OS W).

(** The writes of the first loop carry prefixes of the scratch buffer
    as it is when the loop starts. *)
Lemma fill_loop_data (fd r : Z) :
  0 <= r ->
  forall p, exists p' ws,
    fill_loop os fd r p = (Val tt, p', ws)
    /\ Forall (fun e => exists n ret,
                   e = EWrite fd (firstn n (buffer p)) ret) ws.
Proof.
  intros Hr. pattern r. apply Z_lt_induction; [clear r Hr | exact Hr].
  intros r IH p. rewrite fill_loop_step.
  destruct (0 <? r) eqn:E.
  - apply Z.ltb_lt in E. destruct (@chunk_bounds r E) as [Hn Hle].
    set (n := if r >? sizeof_buffer then sizeof_buffer else r) in *.
    unfold bind, write_buffer, write.
    destruct (os_write os fd (firstn (Z.to_nat n) (buffer p)) (world p))
      as [res w1].
    destruct (IH (r - n) ltac:(lia) (mkProc w1 (buffer p)))
      as (p' & ws & Hrun & Hws).
    rewrite Hrun.
    exists p', (EWrite fd (firstn (Z.to_nat n) (buffer p)) res :: ws).
    split; [reflexivity |]. constructor; [| exact Hws].
    exists (Z.to_nat n), res. reflexivity.
  - exists p, []. split; [reflexivity | constructor].
Qed.

End FillFacts.

(** X22.  In a process whose scratch buffer is still zeroed, as the
    static array is when the program starts, [prepare_pipe] writes
    nothing but NUL bytes: the pipe is filled before anything is read
    into the buffer. *)
Theorem prepare_pipe_writes_zeros {W : Type} (os : OS W) (p : Proc W) :
  Forall (fun c => c = NUL) (buffer p) ->
  Forall writes_zeros (trace (prepare_pipe os p)).
Proof.
  intros Hzero.
  unfold prepare_pipe, bind at 1, pipe.
  destruct (os_pipe os (world p)) as [[r [rd wr]] w1].
  destruct (r =? 0); cbn [negb fst snd].
  2:{ cbn. repeat constructor. }
  unfold bind at 1, fcntl_getpipe_sz. cbn [world buffer].
  destruct (os_getpipe_sz os wr w1) as [sz w2].
  unfold bind at 1.
  destruct (@fill_loop_data W os wr (to_unsigned sz) (to_unsigned_nonneg sz)
              (mkProc w2 (buffer p)))
    as (p1 & ws & Hfill & Hws).
  rewrite Hfill. unfold bind at 1.
  destruct (@drain_loop_reads W os rd (to_unsigned sz) (to_unsigned_nonneg sz)
              p1)
    as (p2 & rs & Hdrain & Hrs).
  rewrite Hdrain. unfold ret, trace. cbn [snd app].
  apply Forall_cons; [exact I |]. apply Forall_cons; [exact I |].
  apply Forall_app. split.
  - eapply Forall_impl; [| exact Hws].
    intros e (n & ret' & ->). cbn [writes_zeros buffer].
    apply Forall_forall. intros c Hc.
    rewrite Forall_forall in Hzero. apply Hzero.
    rewrite <- (firstn_skipn n (buffer p)). apply in_or_app. left. exact Hc.
  - rewrite app_nil_r. eapply Forall_impl; [| exact Hrs].
    intros [] He; try contradiction. exact I.
Qed.

(** The process as it starts, on the model. *)
Lemma prepare_pipe_writes_zeros_witness :
  Forall writes_zeros (trace (prepare_pipe linux (start fresh))).
Proof.
  apply (@prepare_pipe_writes_zeros _ linux (start fresh)).
  apply Forall_forall. intros c Hc.
  apply repeat_spec in Hc. exact Hc.
Defined.

(** ** Runs on the model, for every state of the kernel *)

Lemma assoc_drop_same (x : Z) (l : list (Z * Desc)) :
  assoc Z.eqb x (drop Z.eqb x l) = None.
Proof.
  unfold drop. induction l as [| [z d] l IH]; [reflexivity |].
  cbn [filter fst]. destruct (Z.eqb x z) eqn:E; cbn [negb].
  - exact IH.
  - cbn [assoc]. rewrite E. exact IH.
Qed.

Lemma file_put_same (path : string) (f : File) (l : list (string * File)) :
  assoc String.eqb path (put String.eqb path f l) = Some f.
Proof.
  unfold put. cbn. rewrite String.eqb_refl. reflexivity.
Qed.

Lemma find_ext (f g : Z -> bool) (l : list Z) :
  (forall x, f x = g x) -> find f l = find g l.
Proof.
  intros H. induction l as [| a l IH]; [reflexivity |].
  cbn. rewrite H, IH. reflexivity.
Qed.

Lemma free_fd_ext (k k' : Kernel) :
  k_nofile k' = k_nofile k ->
  (forall fd, desc_at fd k' = desc_at fd k) ->
  free_fd k' = free_fd k.
Proof.
  intros Hn Hd. unfold free_fd. rewrite Hn.
  apply find_ext. intros x. rewrite Hd. reflexivity.
Qed.

(** [create_test_file] over a path that is free or holds a file its
    owner may write: the test string goes over the first 13 bytes, the
    descriptor is closed again and the table is as before. *)
Lemma create_on_model (k : Kernel) (buf : list ascii) (path : string)
  (fd : Z) (old : list ascii) :
  free_fd k = Some fd ->
  (file_at path k = None /\ old = []
   \/ exists mode,
        file_at path k = Some (mkFile old mode) /\ Z.land mode 128 <> 0) ->
  exists k1 mode,
    create_test_file linux path (mkProc k buf)
    = (Val 0, mkProc k1 buf,
       [EOpen path (Z.lor O_CREAT O_WRONLY) fd;
        EWrite fd (cstr test_string) 13; EClose fd])
    /\ file_at path k1
       = Some (mkFile (cstr test_string ++ skipn 13 old) mode)
    /\ (mode = match file_at path k with Some f => f_mode f | None => 292 end)
    /\ (forall x, desc_at x k1 = desc_at x k)
    /\ k_nofile k1 = k_nofile k /\ k_pipe_sz k1 = k_pipe_sz k
    /\ k_vulnerable k1 = k_vulnerable k.
Proof.
  intros Hfd Hfile.
  destruct (free_fd_spec _ Hfd) as [Hfd0 Hnone].
  assert (Hopen : exists k' mode,
             linux_open path (Z.lor O_CREAT O_WRONLY) 292 k
             = (fd, set_fds (put Z.eqb fd (DFile path 0 true) (k_fds k')) k')
             /\ file_at path k' = Some (mkFile old mode)
             /\ mode = match file_at path k with
                       | Some f => f_mode f
                       | None => 292
                       end
             /\ k_fds k' = k_fds k /\ k_nofile k' = k_nofile k
             /\ k_pipe_sz k' = k_pipe_sz k
             /\ k_vulnerable k' = k_vulnerable k).
  { unfold linux_open. rewrite Hfd.
    change (negb (Z.land (Z.lor O_CREAT O_WRONLY) 3 =? O_RDONLY)) with true.
    change (Z.land (Z.lor O_CREAT O_WRONLY) O_CREAT =? 0) with false.
    destruct Hfile as [[Hf ->] | (mode & Hf & Hmode)]; rewrite Hf.
    - exists (set_files (put String.eqb path (mkFile [] 292) (k_files k)) k), 292.
      split; [reflexivity |]. split; [| repeat split].
      unfold file_at. cbn [k_files set_files]. apply file_put_same.
    - exists k, mode. cbn [f_mode andb].
      replace (Z.land mode 128 =? 0) with false
        by (symmetry; apply Z.eqb_neq; exact Hmode).
      repeat split. exact Hf. }
  destruct Hopen
    as (k' & mode & Hopen & Hf' & Hmode & Hfds & Hnofile & Hpsz & Hvuln).
  unfold create_test_file, bind at 1, open. cbn [world buffer os_open linux].
  rewrite Hopen.
  replace (fd <? 0) with false by (symmetry; apply Z.ltb_ge; exact Hfd0).
  unfold bind at 1, write. cbn [world buffer os_write linux].
  unfold linux_write at 1. unfold desc_at at 1. cbn [k_fds set_fds].
  rewrite assoc_put_same.
  unfold file_at at 1. cbn [k_files set_fds]. fold (file_at path k').
  rewrite Hf'. cbn [f_data f_mode].
  change (len (cstr test_string)) with 13. change (13 <? 0) with false.
  unfold bind, close, ret. cbn [world buffer os_close linux app].
  eexists _, mode. split; [reflexivity |].
  split; [| split; [exact Hmode | split; [| repeat split; assumption]]].
  - unfold linux_close, file_at. cbn [k_files set_fds set_files].
    rewrite file_put_same. reflexivity.
  - intros x. unfold linux_close, desc_at. cbn [k_fds set_fds set_files].
    destruct (Z.eq_dec x fd) as [-> | Hne].
    + rewrite assoc_drop_same. symmetry. exact Hnone.
    + rewrite assoc_drop_other by exact Hne.
      rewrite assoc_put_other by exact Hne.
      rewrite assoc_put_other by exact Hne.
      rewrite Hfds. reflexivity.
Qed.

Lemma file_drop_same (path : string) (l : list (string * File)) :
  assoc String.eqb path (drop String.eqb path l) = None.
Proof.
  unfold drop. induction l as [| [z d] l IH]; [reflexivity |].
  cbn [filter fst]. destruct (String.eqb path z) eqn:E; cbn [negb].
  - exact IH.
  - cbn [assoc]. rewrite E. exact IH.
Qed.

Lemma desc_at_put (k : Kernel) (y : Z) (d : Desc) (x : Z) :
  desc_at x (set_fds (put Z.eqb y d (k_fds k)) k)
  = if x =? y then Some d else desc_at x k.
Proof.
  unfold desc_at. cbn [k_fds set_fds].
  destruct (x =? y) eqn:E.
  - apply Z.eqb_eq in E. subst y. apply assoc_put_same.
  - apply Z.eqb_neq in E. apply assoc_put_other. exact E.
Qed.

Lemma find_seq_lowest (f : Z -> bool) (n : nat) :
  f (Z.of_nat n) = true ->
  forall (count start : nat),
    (start <= n < start + count)%nat ->
    (forall i, (start <= i < n)%nat -> f (Z.of_nat i) = false) ->
    find f (map Z.of_nat (seq start count)) = Some (Z.of_nat n).
Proof.
  intros Hn. induction count as [| count IH]; intros start Hrange Hbelow.
  - lia.
  - cbn [seq map find].
    destruct (Nat.eq_dec start n) as [-> | Hne].
    + rewrite Hn. reflexivity.
    + rewrite (Hbelow start) by lia.
      apply IH; [lia |]. intros i Hi. apply Hbelow. lia.
Qed.

(** The lowest descriptor that is not in use is the one [open] and
    [pipe] take. *)
Lemma free_fd_lowest (k : Kernel) (n : nat) :
  Z.of_nat n < k_nofile k ->
  (forall i, (i < n)%nat -> desc_at (Z.of_nat i) k <> None) ->
  desc_at (Z.of_nat n) k = None ->
  free_fd k = Some (Z.of_nat n).
Proof.
  intros Hlim Hbelow Hfree. unfold free_fd.
  apply find_seq_lowest.
  - rewrite Hfree. reflexivity.
  - lia.
  - intros i Hi. specialize (Hbelow i ltac:(lia)).
    destruct (desc_at (Z.of_nat i) k); [reflexivity | contradiction].
Qed.

(** [check_file_content] over a file that exists. *)
Lemma check_on_model (k : Kernel) (buf : list ascii) (path : string)
  (fd : Z) (content : list ascii) (mode : Z) :
  free_fd k = Some fd -> file_at path k = Some (mkFile content mode) ->
  exists k',
    check_file_content linux path (mkProc k buf)
    = (Val (if negb (len (firstn 255 content) =? 13)
               || negb (strncmp (cstr test_string) (firstn 255 content) 13
                        =? 0)
            then 1 else 0),
       mkProc k' buf,
       [EOpen path O_RDONLY fd;
        ERead fd 255 (len (firstn 255 content)) (firstn 255 content);
        EClose fd])
    /\ k_files k' = k_files k.
Proof.
  intros Hfd Hf.
  destruct (free_fd_spec _ Hfd) as [Hfd0 _].
  unfold check_file_content, bind at 1, open.
  cbn [world buffer os_open linux].
  rewrite (@linux_open_rdonly k path fd _ Hfd Hf).
  replace (fd <? 0) with false by (symmetry; apply Z.ltb_ge; exact Hfd0).
  unfold bind at 1, read. cbn [world buffer os_read linux].
  unfold linux_read at 1. unfold desc_at at 1. cbn [k_fds set_fds].
  rewrite assoc_put_same.
  unfold file_at at 1. cbn [k_files set_fds]. fold (file_at path k).
  rewrite Hf. cbn [f_data].
  change (Z.to_nat 0) with 0%nat. change (Z.to_nat 255) with 255%nat.
  cbn [skipn]. rewrite firstn_firstn. cbn [Nat.min].
  change (strlen test_string) with 13. change (Z.to_nat 13) with 13%nat.
  fold (len (firstn 255 content)).
  unfold bind, close, ret. cbn [world buffer os_close linux].
  destruct (negb _ || negb _); eexists; split; reflexivity.
Qed.

(** X23.  On the model, [create_test_file] does not truncate.  Over a
    path that is free, or that holds a file its owner may write, it
    returns 0 and leaves the test string followed by what the old file
    held beyond its first 13 bytes; a new file gets the mode 0444 and
    an old one keeps its mode. *)
Theorem create_test_file_keeps_tail (k : Kernel) (buf : list ascii)
  (path : string) (fd : Z) (old : list ascii) :
  free_fd k = Some fd ->
  (file_at path k = None /\ old = []
   \/ exists mode,
        file_at path k = Some (mkFile old mode) /\ Z.land mode 128 <> 0) ->
  result (create_test_file linux path (mkProc k buf)) = Val 0
  /\ file_at path
       (world (final (create_test_file linux path (mkProc k buf))))
     = Some (mkFile (cstr test_string ++ skipn 13 old)
               (match file_at path k with
                | Some f => f_mode f
                | None => 292
                end)).
Proof.
  intros Hfd Hfile.
  destruct (@create_on_model k buf path fd old Hfd Hfile)
    as (k1 & mode & Hrun & Hf1 & Hmode & _).
  rewrite Hrun. unfold result, final; cbn [fst snd world].
  split; [reflexivity |]. rewrite Hf1, Hmode. reflexivity.
Qed.

(** Over the writable file of 20 bytes. *)
Lemma create_test_file_keeps_tail_witness :
  result (create_test_file linux test_file (mkProc stale_long [])) = Val 0
  /\ file_at test_file
       (world (final (create_test_file linux test_file (mkProc stale_long []))))
     = Some (mkFile
               (cstr test_string ++ skipn 13 (cstr "0123456789abcdefghij"))
               (match file_at test_file stale_long with
                | Some f => f_mode f
                | None => 292
                end)).
Proof.
  apply (@create_test_file_keeps_tail stale_long [] test_file 3
           (cstr "0123456789abcdefghij")).
  - reflexivity.
  - right. exists 420. split; [reflexivity |]. vm_compute. discriminate.
Defined.



(** ** The probe on the model of a kernel without the bug *)

(** On the model [prepare_pipe] fills the pipe to its capacity and
    drains it, and leaves the kernel as [pipe] left it. *)
Lemma prepare_pipe_linux (k k1 : Kernel) (buf : list ascii) (rd wr : Z) :
  linux_pipe k = (0, (rd, wr), k1) ->
  0 <= k_pipe_sz k < 2 ^ 31 ->
  len buf = sizeof_buffer ->
  exists buf' ws rs,
    prepare_pipe linux (mkProc k buf)
    = (Val (rd, wr), mkProc k1 buf',
       EPipe 0 rd wr :: EGetPipeSz wr (k_pipe_sz k) :: ws ++ rs)
    /\ Forall (chunk_write wr) ws /\ bytes_written ws = k_pipe_sz k
    /\ Forall (chunk_read rd) rs /\ bytes_read rs = k_pipe_sz k
    /\ len buf' = sizeof_buffer.
Proof.
  intros Hpipe Hc Hbuf.
  destruct (@linux_pipe_obtained k k1 rd wr Hpipe)
    as (Hrd & Hwr & Hq & Href & Hsz1).
  unfold prepare_pipe, bind at 1, pipe. cbn [world buffer os_pipe linux].
  rewrite Hpipe. cbn [Z.eqb negb fst snd].
  unfold bind at 1, fcntl_getpipe_sz. cbn [world buffer os_getpipe_sz linux].
  unfold linux_getpipe_sz. rewrite Hwr, Hsz1.
  assert (Hu : to_unsigned (k_pipe_sz k) = k_pipe_sz k)
    by (unfold to_unsigned; apply Z.mod_small; lia).
  rewrite Hu. unfold bind at 1.
  destruct (@fill_loop_linux wr (k_pipe_sz k) (proj1 Hc) k1 buf Hwr Href)
    as (q & ws & Hfill & Hlq & Hws & Hwsum).
  { rewrite Hq, Hsz1. cbn. lia. }
  { exact Hbuf. }
  rewrite Hfill. unfold bind at 1.
  destruct (@drain_loop_linux rd (k_pipe_sz k) (proj1 Hc)
              (set_pipe (k_pipe k1 ++ q) None k1) buf Hrd eq_refl)
    as (buf' & rs & Hdrain & Hbuf' & Hrs & Hrsum).
  { cbn [k_pipe set_pipe]. rewrite Hq. exact Hlq. }
  { exact Hbuf. }
  rewrite Hdrain. unfold ret.
  rewrite set_pipe_set_pipe. rewrite <- Hq. rewrite (set_pipe_same _ Href).
  exists buf', ws, rs.
  split; [cbn [app]; rewrite app_nil_r; reflexivity |].
  repeat split; assumption.
Qed.

Lemma linux_pipe_keeps (k k1 : Kernel) (rd wr : Z) :
  linux_pipe k = (0, (rd, wr), k1) ->
  k_files k1 = k_files k /\ k_vulnerable k1 = k_vulnerable k
  /\ k_nofile k1 = k_nofile k
  /\ forall x d, desc_at x k = Some d -> desc_at x k1 = Some d.
Proof.
  unfold linux_pipe.
  destruct (free_fd k) as [rd' |] eqn:Hrd; [| discriminate].
  destruct (free_fd (set_fds _ k)) as [wr' |] eqn:Hwr; [| discriminate].
  intros H. injection H as <- <- <-.
  apply free_fd_spec in Hrd. destruct Hrd as [_ Hrd].
  apply free_fd_spec in Hwr. destruct Hwr as [_ Hwr].
  split; [reflexivity |]. split; [reflexivity |]. split; [reflexivity |].
  intros x d Hx. unfold desc_at in *. cbn [k_fds set_fds set_pipe] in *.
  assert (x <> rd') by (intros ->; congruence).
  assert (x <> wr').
  { intros ->. rewrite assoc_put_other in Hwr by assumption. congruence. }
  rewrite !assoc_put_other by assumption. exact Hx.
Qed.

Lemma firstn_one (n : nat) (l : list ascii) :
  (n < List.length l)%nat -> exists c, firstn 1 (skipn n l) = [c].
Proof.
  intros H. destruct (skipn n l) as [| c rest] eqn:E.
  - exfalso. pose proof (length_skipn n l) as Hl. rewrite E in Hl.
    cbn in Hl. lia.
  - exists c. reflexivity.
Qed.

(** The run of [check_dirty_pipe] on a kernel without the bug, for a
    request the validation accepts and a pipe that holds the spliced
    byte and the payload. *)
Lemma probe_run_linux (k k1 : Kernel) (buf : list ascii) (path : string)
  (offset : Z) (data : string) (fd rd wr : Z) (f : File) :
  k_vulnerable k = false ->
  ~ (PAGE_SIZE | offset) -> 0 <= offset ->
  offset + strlen data <= nextPageBoundary offset <= LOFF_MAX ->
  offset + strlen data <= len (f_data f) ->
  free_fd k = Some fd -> file_at path k = Some f ->
  linux_pipe (set_fds (put Z.eqb fd (DFile path 0 false) (k_fds k)) k)
  = (0, (rd, wr), k1) ->
  1 + strlen data <= k_pipe_sz k < 2 ^ 31 ->
  len buf = sizeof_buffer ->
  exists kf buf' ws rs,
    check_dirty_pipe linux path offset data (mkProc k buf)
    = (Val EXIT_SUCCESS, mkProc kf buf',
       EOpen path O_RDONLY fd :: EFstat fd 0 (len (f_data f))
         :: (EPipe 0 rd wr :: EGetPipeSz wr (k_pipe_sz k) :: ws ++ rs)
         ++ [ESplice fd (offset - 1) wr 1 1;
             EWrite wr (cstr data) (strlen data)])
    /\ Forall (chunk_write wr) ws /\ bytes_written ws = k_pipe_sz k
    /\ Forall (chunk_read rd) rs /\ bytes_read rs = k_pipe_sz k
    /\ k_files kf = k_files k
    /\ k_fds kf = k_fds k1 /\ k_nofile kf = k_nofile k.
Proof.
  intros Hsafe Hnb Hoff [Hfit Hhi] Hsize Hfd Hf Hpipe Hsz Hbuf.
  pose proof (strlen_nonneg data) as Hlen.
  assert (Hoff1 : 1 <= offset).
  { assert (offset <> 0) by (intros ->; apply Hnb; exists 0; reflexivity). lia. }
  destruct (free_fd_spec _ Hfd) as [Hfd0 _].
  set (k0 := set_fds (put Z.eqb fd (DFile path 0 false) (k_fds k)) k) in *.
  destruct (@prepare_pipe_linux k0 k1 buf rd wr Hpipe ltac:(cbn; lia) Hbuf)
    as (buf' & ws & rs & Hprep & Hws & Hwsum & Hrs & Hrsum & _).
  change (k_pipe_sz k0) with (k_pipe_sz k) in Hprep, Hwsum, Hrsum.
  destruct (@linux_pipe_obtained k0 k1 rd wr Hpipe)
    as (_ & Hwr & Hq & Href & Hsz1).
  destruct (@linux_pipe_keeps k0 k1 rd wr Hpipe)
    as (Hfiles & Hvuln & Hnofile & Hkeep).
  assert (Hfd1 : desc_at fd k1 = Some (DFile path 0 false)).
  { apply Hkeep. unfold desc_at, k0. cbn [k_fds set_fds]. apply assoc_put_same. }
  assert (Hf1 : file_at path k1 = Some f).
  { unfold file_at. rewrite Hfiles. exact Hf. }
  destruct (check_dirty_pipe linux path offset data (mkProc k buf))
    as [[o p'] tr] eqn:Hrun.
  unfold check_dirty_pipe in Hrun.
  rewrite (page_boundary_test_false Hnb) in Hrun.
  rewrite end_offset_exact in Hrun by (unfold LOFF_MIN; lia).
  rewrite next_page_exact in Hrun by (assumption || unfold LOFF_MIN; lia).
  rewrite (gtb_false Hfit) in Hrun.
  unfold bind at 1 in Hrun. unfold open in Hrun.
  cbn [world buffer os_open linux] in Hrun.
  rewrite (@linux_open_rdonly k path fd f Hfd Hf) in Hrun. fold k0 in Hrun.
  replace (fd <? 0) with false in Hrun by (symmetry; apply Z.ltb_ge; exact Hfd0).
  unfold bind at 1 in Hrun. unfold fstat in Hrun.
  cbn [world buffer os_fstat linux] in Hrun.
  unfold k0 at 1 in Hrun.
  rewrite (@linux_fstat_opened k path fd f 0 false Hf) in Hrun. fold k0 in Hrun.
  cbn [Z.eqb negb] in Hrun.
  rewrite (@gtb_false offset (len (f_data f))) in Hrun by lia.
  rewrite (gtb_false Hsize) in Hrun.
  unfold bind at 1 in Hrun. rewrite Hprep in Hrun. cbn [fst snd] in Hrun.
  rewrite to_loff_t_id in Hrun by (unfold LOFF_MIN, LOFF_MAX in *; lia).
  unfold bind at 1 in Hrun. unfold splice in Hrun.
  cbn [world buffer os_splice linux] in Hrun.
  unfold linux_splice in Hrun. rewrite Hfd1, Hwr, Hf1 in Hrun.
  replace (offset - 1 <? 0) with false in Hrun
    by (symmetry; apply Z.ltb_ge; lia).
  destruct (@firstn_one (Z.to_nat (offset - 1)) (f_data f)) as [c Hc].
  { unfold len in Hsize. lia. }
  change (Z.to_nat 1) with 1%nat in Hrun. rewrite Hc, Hq in Hrun.
  change (len [] + len [c]) with 1 in Hrun. change (len [c]) with 1 in Hrun.
  rewrite Hsz1 in Hrun. change (k_pipe_sz k0) with (k_pipe_sz k) in Hrun.
  rewrite (@gtb_false 1 (k_pipe_sz k)) in Hrun by lia.
  change (1 <? 0) with false in Hrun. change (1 =? 0) with false in Hrun.
  cbn [app] in Hrun.
  unfold bind at 1 in Hrun. unfold write in Hrun.
  cbn [world buffer os_write linux] in Hrun.
  unfold linux_write in Hrun. unfold desc_at at 1 in Hrun.
  cbn [k_fds set_pipe] in Hrun. fold (desc_at wr k1) in Hrun.
  rewrite Hwr in Hrun. cbn [k_pipe k_pipe_sz k_ref set_pipe] in Hrun.
  change (len [c]) with 1 in Hrun.
  change (len (cstr data)) with (strlen data) in Hrun.
  rewrite Hsz1 in Hrun. change (k_pipe_sz k0) with (k_pipe_sz k) in Hrun.
  rewrite (@gtb_false (1 + strlen data) (k_pipe_sz k)) in Hrun by lia.
  change (file_at path (set_pipe [c] (Some (path, offset - 1 + 1)) k1))
    with (file_at path k1) in Hrun.
  rewrite Hf1 in Hrun.
  change (k_vulnerable (set_pipe [c] (Some (path, offset - 1 + 1)) k1))
    with (k_vulnerable k1) in Hrun.
  rewrite Hvuln in Hrun. change (k_vulnerable k0) with (k_vulnerable k) in Hrun.
  rewrite Hsafe in Hrun. cbn [andb] in Hrun.
  assert (Hsizet : (to_size_t (strlen data) <? strlen data) = false).
  { apply Z.ltb_ge. unfold to_size_t. rewrite Z.mod_small; lia. }
  assert (Hneg : (strlen data <? 0) = false) by (apply Z.ltb_ge; lia).
  rewrite Hneg, Hsizet in Hrun. injection Hrun as <- <- <-.
  eexists _, buf', ws, rs. split; [reflexivity |].
  repeat split; try assumption.
Qed.



(** X26.  On the model of a kernel without the bug the harness gives no
    false alarm.  From a process with the three standard descriptors, a
    limit of at least 7 descriptors, a pipe capacity from 6 bytes up and
    no file at the path of the artifact, [main] exits with status 0,
    prints [You are safe] and nothing else, and leaves no file at the
    path of the artifact. *)
Theorem main_on_model (nofile sz : Z) (fs : list (string * File))
  (argc : Z) (argv : list string) :
  7 <= nofile -> 6 <= sz < 2 ^ 31 ->
  assoc String.eqb test_file fs = None ->
  result
    (main linux argc argv
       (start (mkKernel fs [(0, DTty); (1, DTty); (2, DTty)] [] None
                 nofile sz false)))
  = Val 0
  /\ stdout
       (trace
          (main linux argc argv
             (start (mkKernel fs [(0, DTty); (1, DTty); (2, DTty)] [] None
                       nofile sz false))))
     = [("You are safe" ++ LF)%string]
  /\ file_at test_file
       (world
          (final
             (main linux argc argv
                (start (mkKernel fs [(0, DTty); (1, DTty); (2, DTty)] []
                          None nofile sz false)))))
     = None.
Proof.
  intros Hnofile Hsz Hfile.
  set (k := mkKernel fs [(0, DTty); (1, DTty); (2, DTty)] [] None nofile sz
              false).
  set (buf := repeat NUL (Z.to_nat sizeof_buffer)).
  change (start k) with (mkProc k buf).
  assert (Hbuf : len buf = sizeof_buffer) by reflexivity.
  assert (Hstd : forall i, (i < 3)%nat -> desc_at (Z.of_nat i) k <> None).
  { intros i Hi. destruct i as [| [| [| i]]]; try discriminate. lia. }
  assert (Hfd : free_fd k = Some 3).
  { apply (@free_fd_lowest k 3); [cbn; lia | exact Hstd | reflexivity]. }
  destruct (@create_on_model k buf test_file 3 [] Hfd
              (or_introl (conj Hfile eq_refl)))
    as (kc & mode & Hcreate & Hfc & Hmode & Hdc & Hnc & Hpc & Hvc).
  unfold file_at in Hmode. cbn [k_files k] in Hmode.
  rewrite Hfile in Hmode. subst mode.
  change (cstr test_string ++ skipn 13 []) with (cstr test_string) in Hfc.
  assert (Hfdc : free_fd kc = Some 3)
    by (rewrite <- Hfd; apply free_fd_ext; assumption).
  set (k0 := set_fds (put Z.eqb 3 (DFile test_file 0 false) (k_fds kc)) kc).
  set (k1 := set_fds (put Z.eqb 4 DPipeRd (k_fds k0)) k0).
  set (k2 := set_pipe [] None (set_fds (put Z.eqb 5 DPipeWr (k_fds k1)) k1)).
  assert (Hd0 : forall x,
             desc_at x k0
             = if x =? 3 then Some (DFile test_file 0 false)
               else desc_at x k).
  { intros x. unfold k0. rewrite desc_at_put, Hdc. reflexivity. }
  assert (Hd1 : forall x,
             desc_at x k1
             = if x =? 4 then Some DPipeRd
               else if x =? 3 then Some (DFile test_file 0 false)
                    else desc_at x k).
  { intros x. unfold k1. rewrite desc_at_put, Hd0. reflexivity. }
  assert (Hd2 : forall x,
             desc_at x k2
             = if x =? 5 then Some DPipeWr
               else if x =? 4 then Some DPipeRd
                    else if x =? 3 then Some (DFile test_file 0 false)
                         else desc_at x k).
  { intros x. unfold k2.
    change (desc_at x (set_pipe [] None
                         (set_fds (put Z.eqb 5 DPipeWr (k_fds k1)) k1)))
      with (desc_at x (set_fds (put Z.eqb 5 DPipeWr (k_fds k1)) k1)).
    rewrite desc_at_put, Hd1. reflexivity. }
  assert (Hrd : free_fd k0 = Some 4).
  { apply (@free_fd_lowest k0 4).
    - cbn [k_nofile k0 set_fds]. rewrite Hnc. cbn. lia.
    - intros i Hi. rewrite Hd0.
      destruct i as [| [| [| [| i]]]]; try discriminate. lia.
    - rewrite Hd0. reflexivity. }
  assert (Hwr : free_fd k1 = Some 5).
  { apply (@free_fd_lowest k1 5).
    - cbn [k_nofile k1 k0 set_fds]. rewrite Hnc. cbn. lia.
    - intros i Hi. rewrite Hd1.
      destruct i as [| [| [| [| [| i]]]]]; try discriminate. lia.
    - rewrite Hd1. reflexivity. }
  assert (Hpipe : linux_pipe k0 = (0, (4, 5), k2)).
  { unfold linux_pipe. rewrite Hrd. fold k1. rewrite Hwr. reflexivity. }
  destruct (@probe_run_linux kc k2 buf test_file 6 "mammy" 3 4 5
              (mkFile (cstr test_string) 292))
    as (kf & buf' & ws & rs & Hprobe & Hws & _ & Hrs & _ & Hff & Hfdsf & Hnf);
    try assumption.
  { apply not_on_boundary. reflexivity. }
  { lia. }
  { split; vm_compute; discriminate. }
  { vm_compute. discriminate. }
  { rewrite Hpc. change (strlen "mammy") with 5. cbn [k_pipe_sz k]. lia. }
  assert (Hfile_f : file_at test_file kf
                    = Some (mkFile (cstr test_string) 292)).
  { unfold file_at. rewrite Hff. exact Hfc. }
  assert (Hdf : forall x, desc_at x kf = desc_at x k2).
  { intros x. unfold desc_at. rewrite Hfdsf. reflexivity. }
  assert (Hfdf : free_fd kf = Some 6).
  { apply (@free_fd_lowest kf 6).
    - rewrite Hnf, Hnc. cbn. lia.
    - intros i Hi. rewrite Hdf, Hd2.
      destruct i as [| [| [| [| [| [| i]]]]]]; try discriminate. lia.
    - rewrite Hdf, Hd2. reflexivity. }
  destruct (@check_on_model kf buf' test_file 6 _ 292 Hfdf Hfile_f)
    as (k' & Hcheck & _).
  assert (Hws_out : stdout ws = []).
  { apply stdout_none. eapply Forall_impl; [| exact Hws].
    intros [] He; try contradiction. exact I. }
  assert (Hrs_out : stdout rs = []).
  { apply stdout_none. eapply Forall_impl; [| exact Hrs].
    intros [] He; try contradiction. exact I. }
  destruct (main linux argc argv (mkProc k buf)) as [[o pe] tr] eqn:Hmain.
  unfold result, trace, final; cbn [fst snd].
  unfold main in Hmain. unfold bind at 1 in Hmain. rewrite Hcreate in Hmain.
  change (0 <? 0) with false in Hmain.
  unfold bind at 1 in Hmain. rewrite Hprobe in Hmain.
  change (EXIT_SUCCESS <? 0) with false in Hmain.
  unfold bind at 1 in Hmain. rewrite Hcheck in Hmain.
  match type of Hmain with
  | context [(if ?c then 1 else 0) =? -1] =>
      replace c with false in Hmain by (vm_compute; reflexivity)
  end.
  cbn in Hmain. injection Hmain as <- <- <-.
  split; [reflexivity |]. split.
  - unfold stdout in Hws_out, Hrs_out |- *. cbn [flat_map].
    rewrite !flat_map_app, Hws_out, Hrs_out. reflexivity.
  - cbn [world]. unfold linux_unlink, file_at. cbn [k_files set_files].
    apply file_drop_same.
Qed.

(** The process as it starts, with the defaults. *)
Lemma main_on_model_witness :
  result
    (main linux 1 ["ditty"%string]
       (start (mkKernel [] [(0, DTty); (1, DTty); (2, DTty)] [] None
                 1024 65536 false)))
  = Val 0
  /\ stdout
       (trace
          (main linux 1 ["ditty"%string]
             (start (mkKernel [] [(0, DTty); (1, DTty); (2, DTty)] [] None
                       1024 65536 false))))
     = [("You are safe" ++ LF)%string]
  /\ file_at test_file
       (world
          (final
             (main linux 1 ["ditty"%string]
                (start (mkKernel [] [(0, DTty); (1, DTty); (2, DTty)] []
                          None 1024 65536 false)))))
     = None.
Proof.
  apply (@main_on_model 1024 65536 [] 1 ["ditty"%string]).
  - lia.
  - lia.
  - reflexivity.
Defined.
